(** * scriptr: the template compositor and the subtitle formatter

    A shallow embedding of
      - [backend/app/services/caption_service.py]  (modules [Caption],
        [Ass] and [Transcription]),
      - [backend/app/services/template_service.py] (module [Template]),
      - [backend/app/api/v1/endpoints/templates.py] (modules [Endpoints]
        and [Catalog]),
      - [backend/app/api/v1/endpoints/captions.py] (module [CaptionJobs]),
    together with the fragment of the Python run time these functions
    rely on (module [Py]): text as sequences of code points, arbitrary
    precision integers, IEEE-754 binary64 floats, JSON values and
    exceptions.  The definitions come first; the properties follow in
    [PyFacts], [CaptionFacts], [TemplateFacts], [EndpointFacts],
    [CatalogFacts], [CaptionJobFacts], [TranscriptionFacts] and
    [AssFacts]: each property of the specification under its number (C1
    to C10), and further properties of the code under theirs (X1 to
    X30). *)

From Stdlib Require Import ZArith List Bool Lia String Ascii.
From Stdlib Require Import Sorting.Sorted Sorting.Permutation.
From Stdlib Require Import Floats.SpecFloat.
Import ListNotations.
Open Scope Z_scope.

(* ===================================================================== *)
(** * The Python run time                                                  *)
(* ===================================================================== *)

Module Py.

(** ** Exceptions

    A computation either returns or raises.  Only the class of a built-in
    exception is recorded; [HTTPStatusError] keeps the status code and
    [FFmpegError] the text the code puts in its message;
    [ValidationError] is the one a response model raises for a field
    outside its bounds. *)

Definition char := N.
Definition str := list char.

Inductive exc : Type :=
| ValueError
| TypeError
| AttributeError
| IndexError
| KeyError
| OverflowError
| ZeroDivisionError
| FileNotFoundError
| HTTPStatusError (status_code : Z)
| TransportError
| FFmpegError (stderr : str)
| ValidationError.

Inductive exn (A : Type) : Type :=
| Ok (a : A)
| Raise (e : exc).
Arguments Ok {A} a.
Arguments Raise {A} e.

Definition bind {A B} (c : exn A) (k : A -> exn B) : exn B :=
  match c with
  | Ok a => k a
  | Raise e => Raise e
  end.

Notation "x <- c ;; k" := (bind c (fun x => k))
  (at level 61, c at next level, right associativity).
Notation "' p <- c ;; k" := (bind c (fun x => match x with p => k end))
  (at level 61, p pattern, c at next level, right associativity).

(** [try: c except Exception: h]. *)
Definition try_except {A} (c : exn A) (h : exc -> A) : A :=
  match c with
  | Ok a => a
  | Raise e => h e
  end.

Fixpoint mapM {A B} (f : A -> exn B) (l : list A) : exn (list B) :=
  match l with
  | [] => Ok []
  | a :: l' => b <- f a ;; bs <- mapM f l' ;; Ok (b :: bs)
  end.

(** ** Text *)

Definition lit (s : string) : str := map N_of_ascii (list_ascii_of_string s).

Definition ch (a : ascii) : char := N_of_ascii a.

Definition str_eqb (s t : str) : bool :=
  if list_eq_dec N.eq_dec s t then true else false.

Definition len (s : str) : Z := Z.of_nat (List.length s).

(** [str.isspace] for one code point: the code points whose bidirectional
    class is WS, B or S or whose category is Zs. *)
Definition isspace (c : char) : bool :=
  let c := Z.of_N c in
  ((9 <=? c) && (c <=? 13)) || ((28 <=? c) && (c <=? 32))
  || (c =? 133) || (c =? 160) || (c =? 5760)
  || ((8192 <=? c) && (c <=? 8202))
  || (c =? 8232) || (c =? 8233) || (c =? 8239) || (c =? 8287)
  || (c =? 12288).

Fixpoint lstrip_by (p : char -> bool) (s : str) : str :=
  match s with
  | [] => []
  | c :: s' => if p c then lstrip_by p s' else s
  end.

Definition rstrip_by (p : char -> bool) (s : str) : str :=
  rev (lstrip_by p (rev s)).

(** [s.strip()] *)
Definition strip (s : str) : str := rstrip_by isspace (lstrip_by isspace s).

(** [s.lstrip(chars)] *)
Definition lstrip_chars (chars s : str) : str :=
  lstrip_by (fun c => existsb (N.eqb c) chars) s.

(** [s.startswith(p)] *)
Fixpoint startswith (s p : str) : bool :=
  match p, s with
  | [], _ => true
  | _ :: _, [] => false
  | a :: p', b :: s' => N.eqb a b && startswith s' p'
  end.

(** [s.find(sub)]: the lowest index where [sub] occurs, or -1. *)
Fixpoint find_from (i : Z) (s sub : str) : Z :=
  if startswith s sub then i
  else match s with
       | [] => -1
       | _ :: s' => find_from (i + 1) s' sub
       end.

Definition find (s sub : str) : Z := find_from 0 s sub.

(** [sub in s] *)
Definition contains (s sub : str) : bool := 0 <=? find s sub.

(** [s[a:b]] with Python's treatment of negative and out-of-range bounds. *)
Definition clamp_index (n i : Z) : Z :=
  let i := if i <? 0 then i + n else i in
  Z.max 0 (Z.min n i).

Definition slice {A} (s : list A) (a b : Z) : list A :=
  let n := Z.of_nat (List.length s) in
  let a := clamp_index n a in
  let b := clamp_index n b in
  firstn (Z.to_nat (b - a)) (skipn (Z.to_nat a) s).

(** [s.split(sep, 1)] for a non-empty separator: at most one cut. *)
Definition split_once (s sep : str) : list str :=
  let i := find s sep in
  if i <? 0 then [s]
  else [firstn (Z.to_nat i) s; skipn (Z.to_nat i + List.length sep) s].

(** [s.split(sep)] for a one-character separator. *)
Fixpoint split_char (sep : char) (s : str) : list str :=
  match s with
  | [] => [[]]
  | c :: s' =>
      if N.eqb c sep then [] :: split_char sep s'
      else match split_char sep s' with
           | [] => [[c]]
           | w :: ws => (c :: w) :: ws
           end
  end.

(** [l[i]] for a literal index [i >= 0]. *)
Definition index {A} (l : list A) (i : nat) : exn A :=
  match nth_error l i with
  | Some a => Ok a
  | None => Raise IndexError
  end.

(** [sep.join(l)] *)
Fixpoint join (sep : str) (l : list str) : str :=
  match l with
  | [] => []
  | [s] => s
  | s :: l' => s ++ sep ++ join sep l'
  end.

(** ** Integers as text *)

Definition digit_char (upper : bool) (d : Z) : char :=
  if d <? 10 then N.of_nat (Z.to_nat (48 + d))
  else N.of_nat (Z.to_nat ((if upper then 55 else 87) + d)).

Fixpoint digits_fuel (fuel : nat) (upper : bool) (base n : Z) (acc : str) : str :=
  match fuel with
  | O => acc
  | S fuel' =>
      let acc := digit_char upper (n mod base) :: acc in
      if n / base =? 0 then acc else digits_fuel fuel' upper base (n / base) acc
  end.

(** The digits of [n >= 0] in [base]; [n] has at most [log2 n + 1] of them. *)
Definition digits (upper : bool) (base n : Z) : str :=
  digits_fuel (S (Z.to_nat (Z.log2 n))) upper base n [].

Definition zeros (k : Z) : str := repeat (ch "0") (Z.to_nat k).

(** [format(n, "0<width>d")] and [format(n, "0<width>X")]: the sign comes
    first and counts towards the width, zeros fill the rest. *)
Definition format_int (upper : bool) (base width n : Z) : str :=
  let sign := if n <? 0 then [ch "-"] else [] in
  let ds := digits upper base (Z.abs n) in
  sign ++ zeros (width - len sign - len ds) ++ ds.

(** [str(n)], also [f"{n}"] *)
Definition str_of_int (n : Z) : str := format_int false 10 0 n.
(** [f"{n:02d}"], [f"{n:03d}"] *)
Definition fmt_02d (n : Z) : str := format_int false 10 2 n.
Definition fmt_03d (n : Z) : str := format_int false 10 3 n.
(** [f"{n:02X}"] *)
Definition fmt_02X (n : Z) : str := format_int true 16 2 n.

(** ** Floats

    A Python [float] is an IEEE-754 binary64 number: the standard library's
    [spec_float] at precision 53 and maximal exponent 1024, with the
    arithmetic of [SpecFloat] (round to nearest, ties to even). *)

Definition float := spec_float.
Definition prec : Z := 53.
Definition emax : Z := 1024.

Definition fadd : float -> float -> float := SFadd prec emax.
Definition fsub : float -> float -> float := SFsub prec emax.
Definition fmul : float -> float -> float := SFmul prec emax.
Definition fdiv : float -> float -> float := SFdiv prec emax.
Definition flt : float -> float -> bool := SFltb.
Definition feq : float -> float -> bool := SFeqb.

(** The float nearest to the integer [z] (infinite when out of range). *)
Definition float_of_Z (z : Z) : float := binary_normalize prec emax z 0 false.

(** The float nearest to [p / q], for [q > 0]. *)
Definition float_of_ratio (p q : Z) : float :=
  match p, q with
  | Zpos p', Zpos q' => fdiv (S754_finite false p' 0) (S754_finite false q' 0)
  | Zneg p', Zpos q' => fdiv (S754_finite true p' 0) (S754_finite false q' 0)
  | _, _ => S754_zero false
  end.

Definition f0 : float := S754_zero false.
Definition f1 : float := float_of_Z 1.
Definition fhalf : float := float_of_ratio 1 2.

(** [float(n)] for an integer [n]. *)
Definition float_of_int (z : Z) : exn float :=
  match float_of_Z z with
  | S754_infinity _ => Raise OverflowError
  | f => Ok f
  end.

(** C truth value of a double: anything but a zero. *)
Definition fnonzero (x : float) : bool :=
  match x with
  | S754_zero _ => false
  | _ => true
  end.

Definition sign_bit (x : float) : bool :=
  match x with
  | S754_zero s | S754_infinity s | S754_finite s _ _ => s
  | S754_nan => false
  end.

(** [copysign(0.0, x)] *)
Definition zero_like (x : float) : float := S754_zero (sign_bit x).

(** C [fmod]: the exact remainder [x - n*y], [n = trunc (x / y)]. *)
Definition c_fmod (x y : float) : float :=
  match x, y with
  | S754_nan, _ | _, S754_nan => S754_nan
  | S754_infinity _, _ => S754_nan
  | _, S754_zero _ => S754_nan
  | S754_zero _, _ => x
  | S754_finite _ _ _, S754_infinity _ => x
  | S754_finite sx mx ex, S754_finite _ my ey =>
      let e := Z.min ex ey in
      let X := Zpos mx * 2 ^ (ex - e) in
      let Y := Zpos my * 2 ^ (ey - e) in
      binary_normalize prec emax (cond_Zopp sx (X mod Y)) e sx
  end.

(** C [floor]. *)
Definition c_floor (x : float) : float :=
  match x with
  | S754_finite s m e =>
      if 0 <=? e then x
      else binary_normalize prec emax (Z.shiftl (cond_Zopp s (Zpos m)) e) 0 s
  | _ => x
  end.

(** [v % w] on floats ([float_rem] of CPython). *)
Definition float_mod (v w : float) : exn float :=
  if negb (fnonzero w) then Raise ZeroDivisionError
  else
    let m := c_fmod v w in
    Ok (if fnonzero m
        then if xorb (flt w f0) (flt m f0) then fadd m w else m
        else zero_like w).

(** [v // w] on floats ([float_floor_div] of CPython). *)
Definition float_floordiv (v w : float) : exn float :=
  if negb (fnonzero w) then Raise ZeroDivisionError
  else
    let m := c_fmod v w in
    let d := fdiv (fsub v m) w in
    let d := if fnonzero m && xorb (flt w f0) (flt m f0) then fsub d f1 else d in
    Ok (if fnonzero d
        then let fl := c_floor d in
             if flt fhalf (fsub d fl) then fadd fl f1 else fl
        else zero_like (fdiv v w)).

(** [int(x)]: truncation towards zero. *)
Definition int_of_float (x : float) : exn Z :=
  match x with
  | S754_nan => Raise ValueError
  | S754_infinity _ => Raise OverflowError
  | S754_zero _ => Ok 0
  | S754_finite s m e => Ok (cond_Zopp s (Z.shiftl (Zpos m) e))
  end.

(** [round(x)]: the nearest integer, ties to the even one. *)
Definition round_half_even (m : Z) (e : Z) : Z :=
  if 0 <=? e then Z.shiftl m e
  else
    let k := 2 ^ (- e) in
    let q := m / k in
    let r := m mod k in
    match 2 * r ?= k with
    | Lt => q
    | Gt => q + 1
    | Eq => if Z.even q then q else q + 1
    end.

Definition round (x : float) : exn Z :=
  match x with
  | S754_nan => Raise ValueError
  | S754_infinity _ => Raise OverflowError
  | S754_zero _ => Ok 0
  | S754_finite s m e => Ok (cond_Zopp s (round_half_even (Zpos m) e))
  end.

(** [min(a, b)] and [max(a, b)]: the first argument unless the second is
    strictly smaller (larger). *)
Definition fmin (a b : float) : float := if flt b a then b else a.
Definition fmax (a b : float) : float := if flt a b then b else a.

(** The float a decimal literal denotes: [dec 325 2] is [3.25]. *)
Definition dec (digits : Z) (scale : nat) : float :=
  float_of_ratio digits (10 ^ Z.of_nat scale).

(** ** Numbers from text

    [int(s)], [int(s, 16)] and [float(s)].  A text that is not pure ASCII
    is first rewritten ([_PyUnicode_TransformDecimalAndSpaceToASCII]):
    code points below 127 stay, a white-space code point becomes a space,
    a decimal digit of any script becomes the ASCII digit of its value,
    and the text is cut at the first other code point, which becomes "?".
    Then the white space of C around the number is skipped (tab, line
    feed, vertical tab, form feed, carriage return and space, but not
    the separators U+001C to U+001F that [str.strip] removes), an
    optional sign is taken, and single underscores are allowed between
    digits. *)

(** The zeros of the decimal digits of Unicode 14.0 (category Nd): the
    digits of a script are ten consecutive code points. *)
Definition decimal_zeros : list Z :=
  [48; 1632; 1776; 1984; 2406; 2534; 2662; 2790; 2918; 3046; 3174; 3302;
   3430; 3558; 3664; 3792; 3872; 4160; 4240; 6112; 6160; 6470; 6608; 6784;
   6800; 6992; 7088; 7232; 7248; 42528; 43216; 43264; 43472; 43504; 43600;
   44016; 65296; 66720; 68912; 69734; 69872; 69942; 70096; 70384; 70736;
   70864; 71248; 71360; 71472; 71904; 72016; 72784; 73040; 73120; 92768;
   92864; 93008; 120782; 120792; 120802; 120812; 120822; 123200; 123632;
   125264; 130032].

(** [Py_UNICODE_TODECIMAL] *)
Definition decimal_value (c : char) : option Z :=
  match List.find (fun z => (z <=? Z.of_N c) && (Z.of_N c <? z + 10))
                  decimal_zeros with
  | Some z => Some (Z.of_N c - z)
  | None => None
  end.

Fixpoint transform_decimal_and_space (s : str) : str :=
  match s with
  | [] => []
  | c :: s' =>
      if (c <? 127)%N then c :: transform_decimal_and_space s'
      else if isspace c then ch " " :: transform_decimal_and_space s'
      else match decimal_value c with
           | Some d => Z.to_N (48 + d) :: transform_decimal_and_space s'
           | None => [ch "?"]
           end
  end.

(** The text the number is read from. *)
Definition number_text (s : str) : str :=
  if forallb (fun c => (c <? 128)%N) s then s
  else transform_decimal_and_space s.

(** [Py_ISSPACE] *)
Definition is_c_space (c : char) : bool :=
  ((9 <=? c) && (c <=? 13))%N || (c =? 32)%N.

Definition strip_c_space (s : str) : str :=
  rstrip_by is_c_space (lstrip_by is_c_space s).

Definition digit_value (base : Z) (c : char) : option Z :=
  let c := Z.of_N c in
  let v := if (48 <=? c) && (c <=? 57) then c - 48
           else if (97 <=? c) && (c <=? 122) then c - 87
           else if (65 <=? c) && (c <=? 90) then c - 55
           else base in
  if v <? base then Some v else None.

Definition is_digit (base : Z) (c : char) : bool :=
  match digit_value base c with Some _ => true | None => false end.

(** Digits with single underscores between them; [None] when malformed. *)
Fixpoint digit_run (base : Z) (after_digit : bool) (s : str) : option (list Z) :=
  match s with
  | [] => if after_digit then Some [] else None
  | c :: s' =>
      if N.eqb c (ch "_") then
        if after_digit then digit_run base false s' else None
      else match digit_value base c with
           | Some v =>
               match digit_run base true s' with
               | Some vs => Some (v :: vs)
               | None => None
               end
           | None => None
           end
  end.

Definition number_of (base : Z) (vs : list Z) : Z :=
  fold_left (fun acc v => acc * base + v) vs 0.

Definition split_sign (s : str) : bool * str :=
  match s with
  | c :: s' => if N.eqb c (ch "-") then (true, s')
               else if N.eqb c (ch "+") then (false, s')
               else (false, s)
  | [] => (false, [])
  end.

(** [int(s, 16)] *)
Definition int_base16 (s : str) : exn Z :=
  let '(neg, body) := split_sign (strip_c_space (number_text s)) in
  let body :=
    match body with
    | z :: x :: rest =>
        if N.eqb z (ch "0") && (N.eqb x (ch "x") || N.eqb x (ch "X"))
        then match rest with
             | u :: rest' => if N.eqb u (ch "_") then rest' else rest
             | [] => rest
             end
        else body
    | _ => body
    end in
  match digit_run 16 false body with
  | Some (v :: vs) => Ok (cond_Zopp neg (number_of 16 (v :: vs)))
  | _ => Raise ValueError
  end.

(** The lower case of an ASCII letter, as C compares the letters of
    "inf", "nan" and "e". *)
Definition lower (c : char) : char :=
  if (65 <=? Z.of_N c) && (Z.of_N c <=? 90) then (c + 32)%N else c.

(** Splits [s] at the first code point satisfying [p]. *)
Fixpoint break_at (p : char -> bool) (s : str) : str * option str :=
  match s with
  | [] => ([], None)
  | c :: s' =>
      if p c then ([], Some s')
      else let '(a, b) := break_at p s' in (c :: a, b)
  end.

(** An optional run of digits: the empty text is the empty run. *)
Definition digit_run_opt (s : str) : option (list Z) :=
  match s with
  | [] => Some []
  | _ => digit_run 10 false s
  end.

(** [float(s)] *)
Definition float_of_str (s : str) : exn float :=
  let '(neg, body) := split_sign (strip_c_space (number_text s)) in
  let word := map lower body in
  if str_eqb word (lit "inf") || str_eqb word (lit "infinity")
  then Ok (S754_infinity neg)
  else if str_eqb word (lit "nan") then Ok S754_nan
  else
    let '(mant, expo) := break_at (fun c => N.eqb (lower c) (ch "e")) body in
    let '(ipart, fpart) := break_at (N.eqb (ch ".")) mant in
    let fpart := match fpart with Some f => f | None => [] end in
    match digit_run_opt ipart, digit_run_opt fpart with
    | Some ds, Some fs =>
        match ds ++ fs with
        | [] => Raise ValueError
        | all =>
            let n := number_of 10 all in
            let ex :=
              match expo with
              | None => Some 0
              | Some t =>
                  let '(eneg, et) := split_sign t in
                  match digit_run 10 false et with
                  | Some (v :: vs) => Some (cond_Zopp eneg (number_of 10 (v :: vs)))
                  | _ => None
                  end
              end in
            match ex with
            | None => Raise ValueError
            | Some ex =>
                let sc := ex - Z.of_nat (List.length fs) in
                let v := if n =? 0 then S754_zero false
                         else if 0 <=? sc then float_of_ratio (n * 10 ^ sc) 1
                         else float_of_ratio n (10 ^ (- sc)) in
                Ok (if neg then SFopp v else v)
            end
        end
    | _, _ => Raise ValueError
    end.

(** [int(s)] in base 10; a text of more than 4300 digits is refused
    ([sys.get_int_max_str_digits()], which does not apply to base 16). *)
Definition int_base10 (s : str) : exn Z :=
  let '(neg, body) := split_sign (strip_c_space (number_text s)) in
  match digit_run 10 false body with
  | Some (v :: vs) =>
      if 4300 <? Z.of_nat (List.length (v :: vs)) then Raise ValueError
      else Ok (cond_Zopp neg (number_of 10 (v :: vs)))
  | _ => Raise ValueError
  end.

(** ** Lower case

    [s.lower()] with the tables of Unicode 14.0.  [lower_runs] lists the
    code points that change, as runs [(first, last, step, delta)]: every
    [step]-th code point from [first] to [last] becomes itself plus
    [delta].  U+0130 becomes two code points, and the capital sigma
    becomes the final small sigma when a cased code point comes before it
    and none after it, the case-ignorable code points in between apart. *)

Definition lower_runs : list (Z * Z * Z * Z) :=
  [(65, 90, 1, 32); (192, 214, 1, 32); (216, 222, 1, 32); (256, 302, 2, 1);
   (306, 310, 2, 1); (313, 327, 2, 1); (330, 374, 2, 1);
   (376, 376, 1, (-121)); (377, 381, 2, 1); (385, 385, 1, 210);
   (386, 388, 2, 1); (390, 390, 1, 206); (391, 391, 1, 1);
   (393, 394, 1, 205); (395, 395, 1, 1); (398, 398, 1, 79);
   (399, 399, 1, 202); (400, 400, 1, 203); (401, 401, 1, 1);
   (403, 403, 1, 205); (404, 404, 1, 207); (406, 406, 1, 211);
   (407, 407, 1, 209); (408, 408, 1, 1); (412, 412, 1, 211);
   (413, 413, 1, 213); (415, 415, 1, 214); (416, 420, 2, 1);
   (422, 422, 1, 218); (423, 423, 1, 1); (425, 425, 1, 218);
   (428, 428, 1, 1); (430, 430, 1, 218); (431, 431, 1, 1);
   (433, 434, 1, 217); (435, 437, 2, 1); (439, 439, 1, 219);
   (440, 440, 1, 1); (444, 444, 1, 1); (452, 452, 1, 2); (453, 453, 1, 1);
   (455, 455, 1, 2); (456, 456, 1, 1); (458, 458, 1, 2); (459, 475, 2, 1);
   (478, 494, 2, 1); (497, 497, 1, 2); (498, 500, 2, 1);
   (502, 502, 1, (-97)); (503, 503, 1, (-56)); (504, 542, 2, 1);
   (544, 544, 1, (-130)); (546, 562, 2, 1); (570, 570, 1, 10795);
   (571, 571, 1, 1); (573, 573, 1, (-163)); (574, 574, 1, 10792);
   (577, 577, 1, 1); (579, 579, 1, (-195)); (580, 580, 1, 69);
   (581, 581, 1, 71); (582, 590, 2, 1); (880, 882, 2, 1); (886, 886, 1, 1);
   (895, 895, 1, 116); (902, 902, 1, 38); (904, 906, 1, 37);
   (908, 908, 1, 64); (910, 911, 1, 63); (913, 929, 1, 32);
   (932, 939, 1, 32); (975, 975, 1, 8); (984, 1006, 2, 1);
   (1012, 1012, 1, (-60)); (1015, 1015, 1, 1); (1017, 1017, 1, (-7));
   (1018, 1018, 1, 1); (1021, 1023, 1, (-130)); (1024, 1039, 1, 80);
   (1040, 1071, 1, 32); (1120, 1152, 2, 1); (1162, 1214, 2, 1);
   (1216, 1216, 1, 15); (1217, 1229, 2, 1); (1232, 1326, 2, 1);
   (1329, 1366, 1, 48); (4256, 4293, 1, 7264); (4295, 4295, 1, 7264);
   (4301, 4301, 1, 7264); (5024, 5103, 1, 38864); (5104, 5109, 1, 8);
   (7312, 7354, 1, (-3008)); (7357, 7359, 1, (-3008)); (7680, 7828, 2, 1);
   (7838, 7838, 1, (-7615)); (7840, 7934, 2, 1); (7944, 7951, 1, (-8));
   (7960, 7965, 1, (-8)); (7976, 7983, 1, (-8)); (7992, 7999, 1, (-8));
   (8008, 8013, 1, (-8)); (8025, 8031, 2, (-8)); (8040, 8047, 1, (-8));
   (8072, 8079, 1, (-8)); (8088, 8095, 1, (-8)); (8104, 8111, 1, (-8));
   (8120, 8121, 1, (-8)); (8122, 8123, 1, (-74)); (8124, 8124, 1, (-9));
   (8136, 8139, 1, (-86)); (8140, 8140, 1, (-9)); (8152, 8153, 1, (-8));
   (8154, 8155, 1, (-100)); (8168, 8169, 1, (-8)); (8170, 8171, 1, (-112));
   (8172, 8172, 1, (-7)); (8184, 8185, 1, (-128)); (8186, 8187, 1, (-126));
   (8188, 8188, 1, (-9)); (8486, 8486, 1, (-7517)); (8490, 8490, 1, (-8383));
   (8491, 8491, 1, (-8262)); (8498, 8498, 1, 28); (8544, 8559, 1, 16);
   (8579, 8579, 1, 1); (9398, 9423, 1, 26); (11264, 11311, 1, 48);
   (11360, 11360, 1, 1); (11362, 11362, 1, (-10743));
   (11363, 11363, 1, (-3814)); (11364, 11364, 1, (-10727));
   (11367, 11371, 2, 1); (11373, 11373, 1, (-10780));
   (11374, 11374, 1, (-10749)); (11375, 11375, 1, (-10783));
   (11376, 11376, 1, (-10782)); (11378, 11378, 1, 1); (11381, 11381, 1, 1);
   (11390, 11391, 1, (-10815)); (11392, 11490, 2, 1); (11499, 11501, 2, 1);
   (11506, 11506, 1, 1); (42560, 42604, 2, 1); (42624, 42650, 2, 1);
   (42786, 42798, 2, 1); (42802, 42862, 2, 1); (42873, 42875, 2, 1);
   (42877, 42877, 1, (-35332)); (42878, 42886, 2, 1); (42891, 42891, 1, 1);
   (42893, 42893, 1, (-42280)); (42896, 42898, 2, 1); (42902, 42920, 2, 1);
   (42922, 42922, 1, (-42308)); (42923, 42923, 1, (-42319));
   (42924, 42924, 1, (-42315)); (42925, 42925, 1, (-42305));
   (42926, 42926, 1, (-42308)); (42928, 42928, 1, (-42258));
   (42929, 42929, 1, (-42282)); (42930, 42930, 1, (-42261));
   (42931, 42931, 1, 928); (42932, 42946, 2, 1); (42948, 42948, 1, (-48));
   (42949, 42949, 1, (-42307)); (42950, 42950, 1, (-35384));
   (42951, 42953, 2, 1); (42960, 42960, 1, 1); (42966, 42968, 2, 1);
   (42997, 42997, 1, 1); (65313, 65338, 1, 32); (66560, 66599, 1, 40);
   (66736, 66771, 1, 40); (66928, 66938, 1, 39); (66940, 66954, 1, 39);
   (66956, 66962, 1, 39); (66964, 66965, 1, 39); (68736, 68786, 1, 64);
   (71840, 71871, 1, 32); (93760, 93791, 1, 32); (125184, 125217, 1, 34)].

(** The case-ignorable code points, as ranges. *)
Definition case_ignorable_ranges : list (Z * Z) :=
  [(39, 39); (46, 46); (58, 58); (94, 94); (96, 96); (168, 168); (173, 173);
   (175, 175); (180, 180); (183, 184); (688, 879); (884, 885); (890, 890);
   (900, 901); (903, 903); (1155, 1161); (1369, 1369); (1375, 1375);
   (1425, 1469); (1471, 1471); (1473, 1474); (1476, 1477); (1479, 1479);
   (1524, 1524); (1536, 1541); (1552, 1562); (1564, 1564); (1600, 1600);
   (1611, 1631); (1648, 1648); (1750, 1757); (1759, 1768); (1770, 1773);
   (1807, 1807); (1809, 1809); (1840, 1866); (1958, 1968); (2027, 2037);
   (2042, 2042); (2045, 2045); (2070, 2093); (2137, 2139); (2184, 2184);
   (2192, 2193); (2200, 2207); (2249, 2306); (2362, 2362); (2364, 2364);
   (2369, 2376); (2381, 2381); (2385, 2391); (2402, 2403); (2417, 2417);
   (2433, 2433); (2492, 2492); (2497, 2500); (2509, 2509); (2530, 2531);
   (2558, 2558); (2561, 2562); (2620, 2620); (2625, 2626); (2631, 2632);
   (2635, 2637); (2641, 2641); (2672, 2673); (2677, 2677); (2689, 2690);
   (2748, 2748); (2753, 2757); (2759, 2760); (2765, 2765); (2786, 2787);
   (2810, 2815); (2817, 2817); (2876, 2876); (2879, 2879); (2881, 2884);
   (2893, 2893); (2901, 2902); (2914, 2915); (2946, 2946); (3008, 3008);
   (3021, 3021); (3072, 3072); (3076, 3076); (3132, 3132); (3134, 3136);
   (3142, 3144); (3146, 3149); (3157, 3158); (3170, 3171); (3201, 3201);
   (3260, 3260); (3263, 3263); (3270, 3270); (3276, 3277); (3298, 3299);
   (3328, 3329); (3387, 3388); (3393, 3396); (3405, 3405); (3426, 3427);
   (3457, 3457); (3530, 3530); (3538, 3540); (3542, 3542); (3633, 3633);
   (3636, 3642); (3654, 3662); (3761, 3761); (3764, 3772); (3782, 3782);
   (3784, 3789); (3864, 3865); (3893, 3893); (3895, 3895); (3897, 3897);
   (3953, 3966); (3968, 3972); (3974, 3975); (3981, 3991); (3993, 4028);
   (4038, 4038); (4141, 4144); (4146, 4151); (4153, 4154); (4157, 4158);
   (4184, 4185); (4190, 4192); (4209, 4212); (4226, 4226); (4229, 4230);
   (4237, 4237); (4253, 4253); (4348, 4348); (4957, 4959); (5906, 5908);
   (5938, 5939); (5970, 5971); (6002, 6003); (6068, 6069); (6071, 6077);
   (6086, 6086); (6089, 6099); (6103, 6103); (6109, 6109); (6155, 6159);
   (6211, 6211); (6277, 6278); (6313, 6313); (6432, 6434); (6439, 6440);
   (6450, 6450); (6457, 6459); (6679, 6680); (6683, 6683); (6742, 6742);
   (6744, 6750); (6752, 6752); (6754, 6754); (6757, 6764); (6771, 6780);
   (6783, 6783); (6823, 6823); (6832, 6862); (6912, 6915); (6964, 6964);
   (6966, 6970); (6972, 6972); (6978, 6978); (7019, 7027); (7040, 7041);
   (7074, 7077); (7080, 7081); (7083, 7085); (7142, 7142); (7144, 7145);
   (7149, 7149); (7151, 7153); (7212, 7219); (7222, 7223); (7288, 7293);
   (7376, 7378); (7380, 7392); (7394, 7400); (7405, 7405); (7412, 7412);
   (7416, 7417); (7468, 7530); (7544, 7544); (7579, 7679); (8125, 8125);
   (8127, 8129); (8141, 8143); (8157, 8159); (8173, 8175); (8189, 8190);
   (8203, 8207); (8216, 8217); (8228, 8228); (8231, 8231); (8234, 8238);
   (8288, 8292); (8294, 8303); (8305, 8305); (8319, 8319); (8336, 8348);
   (8400, 8432); (11388, 11389); (11503, 11505); (11631, 11631);
   (11647, 11647); (11744, 11775); (11823, 11823); (12293, 12293);
   (12330, 12333); (12337, 12341); (12347, 12347); (12441, 12446);
   (12540, 12542); (40981, 40981); (42232, 42237); (42508, 42508);
   (42607, 42610); (42612, 42621); (42623, 42623); (42652, 42655);
   (42736, 42737); (42752, 42785); (42864, 42864); (42888, 42890);
   (42994, 42996); (43000, 43001); (43010, 43010); (43014, 43014);
   (43019, 43019); (43045, 43046); (43052, 43052); (43204, 43205);
   (43232, 43249); (43263, 43263); (43302, 43309); (43335, 43345);
   (43392, 43394); (43443, 43443); (43446, 43449); (43452, 43453);
   (43471, 43471); (43493, 43494); (43561, 43566); (43569, 43570);
   (43573, 43574); (43587, 43587); (43596, 43596); (43632, 43632);
   (43644, 43644); (43696, 43696); (43698, 43700); (43703, 43704);
   (43710, 43711); (43713, 43713); (43741, 43741); (43756, 43757);
   (43763, 43764); (43766, 43766); (43867, 43871); (43881, 43883);
   (44005, 44005); (44008, 44008); (44013, 44013); (64286, 64286);
   (64434, 64450); (65024, 65039); (65043, 65043); (65056, 65071);
   (65106, 65106); (65109, 65109); (65279, 65279); (65287, 65287);
   (65294, 65294); (65306, 65306); (65342, 65342); (65344, 65344);
   (65392, 65392); (65438, 65439); (65507, 65507); (65529, 65531);
   (66045, 66045); (66272, 66272); (66422, 66426); (67456, 67461);
   (67463, 67504); (67506, 67514); (68097, 68099); (68101, 68102);
   (68108, 68111); (68152, 68154); (68159, 68159); (68325, 68326);
   (68900, 68903); (69291, 69292); (69446, 69456); (69506, 69509);
   (69633, 69633); (69688, 69702); (69744, 69744); (69747, 69748);
   (69759, 69761); (69811, 69814); (69817, 69818); (69821, 69821);
   (69826, 69826); (69837, 69837); (69888, 69890); (69927, 69931);
   (69933, 69940); (70003, 70003); (70016, 70017); (70070, 70078);
   (70089, 70092); (70095, 70095); (70191, 70193); (70196, 70196);
   (70198, 70199); (70206, 70206); (70367, 70367); (70371, 70378);
   (70400, 70401); (70459, 70460); (70464, 70464); (70502, 70508);
   (70512, 70516); (70712, 70719); (70722, 70724); (70726, 70726);
   (70750, 70750); (70835, 70840); (70842, 70842); (70847, 70848);
   (70850, 70851); (71090, 71093); (71100, 71101); (71103, 71104);
   (71132, 71133); (71219, 71226); (71229, 71229); (71231, 71232);
   (71339, 71339); (71341, 71341); (71344, 71349); (71351, 71351);
   (71453, 71455); (71458, 71461); (71463, 71467); (71727, 71735);
   (71737, 71738); (71995, 71996); (71998, 71998); (72003, 72003);
   (72148, 72151); (72154, 72155); (72160, 72160); (72193, 72202);
   (72243, 72248); (72251, 72254); (72263, 72263); (72273, 72278);
   (72281, 72283); (72330, 72342); (72344, 72345); (72752, 72758);
   (72760, 72765); (72767, 72767); (72850, 72871); (72874, 72880);
   (72882, 72883); (72885, 72886); (73009, 73014); (73018, 73018);
   (73020, 73021); (73023, 73029); (73031, 73031); (73104, 73105);
   (73109, 73109); (73111, 73111); (73459, 73460); (78896, 78904);
   (92912, 92916); (92976, 92982); (92992, 92995); (94031, 94031);
   (94095, 94111); (94176, 94177); (94179, 94180); (110576, 110579);
   (110581, 110587); (110589, 110590); (113821, 113822); (113824, 113827);
   (118528, 118573); (118576, 118598); (119143, 119145); (119155, 119170);
   (119173, 119179); (119210, 119213); (119362, 119364); (121344, 121398);
   (121403, 121452); (121461, 121461); (121476, 121476); (121499, 121503);
   (121505, 121519); (122880, 122886); (122888, 122904); (122907, 122913);
   (122915, 122916); (122918, 122922); (123184, 123197); (123566, 123566);
   (123628, 123631); (125136, 125142); (125252, 125259); (127995, 127999);
   (917505, 917505); (917536, 917631); (917760, 917999)].

(** The cased code points among those that are not case-ignorable. *)
Definition cased_ranges : list (Z * Z) :=
  [(65, 90); (97, 122); (170, 170); (181, 181); (186, 186); (192, 214);
   (216, 246); (248, 442); (444, 447); (452, 659); (661, 687); (880, 883);
   (886, 887); (891, 893); (895, 895); (902, 902); (904, 906); (908, 908);
   (910, 929); (931, 1013); (1015, 1153); (1162, 1327); (1329, 1366);
   (1376, 1416); (4256, 4293); (4295, 4295); (4301, 4301); (4304, 4346);
   (4349, 4351); (5024, 5109); (5112, 5117); (7296, 7304); (7312, 7354);
   (7357, 7359); (7424, 7467); (7531, 7543); (7545, 7578); (7680, 7957);
   (7960, 7965); (7968, 8005); (8008, 8013); (8016, 8023); (8025, 8025);
   (8027, 8027); (8029, 8029); (8031, 8061); (8064, 8116); (8118, 8124);
   (8126, 8126); (8130, 8132); (8134, 8140); (8144, 8147); (8150, 8155);
   (8160, 8172); (8178, 8180); (8182, 8188); (8450, 8450); (8455, 8455);
   (8458, 8467); (8469, 8469); (8473, 8477); (8484, 8484); (8486, 8486);
   (8488, 8488); (8490, 8493); (8495, 8500); (8505, 8505); (8508, 8511);
   (8517, 8521); (8526, 8526); (8544, 8575); (8579, 8580); (9398, 9449);
   (11264, 11387); (11390, 11492); (11499, 11502); (11506, 11507);
   (11520, 11557); (11559, 11559); (11565, 11565); (42560, 42605);
   (42624, 42651); (42786, 42863); (42865, 42887); (42891, 42894);
   (42896, 42954); (42960, 42961); (42963, 42963); (42965, 42969);
   (42997, 42998); (43002, 43002); (43824, 43866); (43872, 43880);
   (43888, 43967); (64256, 64262); (64275, 64279); (65313, 65338);
   (65345, 65370); (66560, 66639); (66736, 66771); (66776, 66811);
   (66928, 66938); (66940, 66954); (66956, 66962); (66964, 66965);
   (66967, 66977); (66979, 66993); (66995, 67001); (67003, 67004);
   (68736, 68786); (68800, 68850); (71840, 71903); (93760, 93823);
   (119808, 119892); (119894, 119964); (119966, 119967); (119970, 119970);
   (119973, 119974); (119977, 119980); (119982, 119993); (119995, 119995);
   (119997, 120003); (120005, 120069); (120071, 120074); (120077, 120084);
   (120086, 120092); (120094, 120121); (120123, 120126); (120128, 120132);
   (120134, 120134); (120138, 120144); (120146, 120485); (120488, 120512);
   (120514, 120538); (120540, 120570); (120572, 120596); (120598, 120628);
   (120630, 120654); (120656, 120686); (120688, 120712); (120714, 120744);
   (120746, 120770); (120772, 120779); (122624, 122633); (122635, 122654);
   (125184, 125251); (127280, 127305); (127312, 127337); (127344, 127369)].

Definition in_ranges (ranges : list (Z * Z)) (c : char) : bool :=
  existsb (fun r => (fst r <=? Z.of_N c) && (Z.of_N c <=? snd r)) ranges.

Definition case_ignorable (c : char) : bool := in_ranges case_ignorable_ranges c.

Definition cased (c : char) : bool := in_ranges cased_ranges c.

(** [_PyUnicode_ToLowerFull] *)
Definition to_lower_full (c : char) : str :=
  if (c =? 304)%N then [105; 775]%N
  else
    match List.find (fun r => let '(first, last, step, _) := r in
                              (first <=? Z.of_N c) && (Z.of_N c <=? last)
                              && ((Z.of_N c - first) mod step =? 0))
                    lower_runs with
    | Some (_, _, _, delta) => [Z.to_N (Z.of_N c + delta)]
    | None => [c]
    end.

(** Whether a capital sigma is final; [before] is the text before it,
    the nearest code point first, [after] the text after it. *)
Definition final_sigma (before after : str) : bool :=
  match lstrip_by case_ignorable before with
  | c :: _ =>
      cased c
      && match lstrip_by case_ignorable after with
         | [] => true
         | d :: _ => negb (cased d)
         end
  | [] => false
  end.

Fixpoint lower_loop (before s : str) : str :=
  match s with
  | [] => []
  | c :: s' =>
      (if (c =? 931)%N
       then [if final_sigma before s' then 962%N else 963%N]
       else to_lower_full c)
      ++ lower_loop (c :: before) s'
  end.

(** [s.lower()] *)
Definition str_lower (s : str) : str := lower_loop [] s.

(** ** Floats as text

    [repr(x)], also [str(x)] and [f"{x}"]: the shortest run of decimal
    digits that reads back as [x], and among those the one nearest to [x];
    exponent notation when the decimal point would fall more than 16
    places right or more than 3 places left of the first digit. *)

(** Compares the positive rational [num / den] with [10 ^ p]. *)
Definition cmp_pow10 (num den p : Z) : comparison :=
  if 0 <=? p then num ?= 10 ^ p * den else num * 10 ^ (- p) ?= den.

(** The [p] with [10^p <= num/den < 10^(p+1)], searched downwards. *)
Fixpoint floor_log10 (fuel : nat) (num den p : Z) : Z :=
  match fuel with
  | O => p
  | S fuel' =>
      match cmp_pow10 num den p with
      | Lt => floor_log10 fuel' num den (p - 1)
      | _ => p
      end
  end.

(** The float nearest to [d * 10^k]. *)
Definition float_of_decimal (d k : Z) : float :=
  if 0 <=? k then float_of_ratio (d * 10 ^ k) 1 else float_of_ratio d (10 ^ (- k)).

(** The shortest digits [d] and exponent [k] with [d * 10^k] reading back
    as the positive float [x = num / den]; [n] is the number of digits
    tried, [p] the decimal order of magnitude of [x]. *)
Fixpoint shortest_digits (fuel : nat) (x : float) (num den p n : Z) : Z * Z :=
  let k := p - n + 1 in
  let lo := if 0 <=? k then num / (den * 10 ^ k) else (num * 10 ^ (- k)) / den in
  let hi := lo + 1 in
  match fuel with
  | O => (lo, k)
  | S fuel' =>
      let ok_lo := feq (float_of_decimal lo k) x in
      let ok_hi := feq (float_of_decimal hi k) x in
      (* twice the distance from [lo*10^k] to [x] against the gap [10^k] *)
      let below :=
        if 0 <=? k then 2 * (num - lo * 10 ^ k * den) ?= 10 ^ k * den
        else 2 * (num * 10 ^ (- k) - lo * den) ?= den in
      match ok_lo, ok_hi with
      | true, false => (lo, k)
      | false, true => (hi, k)
      | true, true =>
          match below with
          | Lt => (lo, k)
          | Gt => (hi, k)
          | Eq => if Z.even lo then (lo, k) else (hi, k)
          end
      | false, false => shortest_digits fuel' x num den p (n + 1)
      end
  end.

(** Drops the trailing zeros of [d], counting them into [k]. *)
Fixpoint trim_zeros (fuel : nat) (d k : Z) : Z * Z :=
  match fuel with
  | O => (d, k)
  | S fuel' =>
      if (d mod 10 =? 0) && negb (d =? 0) then trim_zeros fuel' (d / 10) (k + 1)
      else (d, k)
  end.

Definition repr_finite (m : positive) (e : Z) : str :=
  let num := if 0 <=? e then Zpos m * 2 ^ e else Zpos m in
  let den := if 0 <=? e then 1 else 2 ^ (- e) in
  let b := Z.log2 (Zpos m) + e in
  let p := floor_log10 4 num den ((b * 30103) / 100000 + 1) in
  let '(d, k) := shortest_digits 17 (S754_finite false m e) num den p 1 in
  let '(d, k) := trim_zeros 20 d k in
  let ds := digits false 10 d in
  let n := len ds in
  let decpt := n + k in
  if (decpt <? -3) || (16 <? decpt) then
    let ex := decpt - 1 in
    firstn 1 ds
    ++ (match skipn 1 ds with [] => [] | rest => lit "." ++ rest end)
    ++ lit "e" ++ (if ex <? 0 then lit "-" else lit "+")
    ++ format_int false 10 2 (Z.abs ex)
  else if decpt <=? 0 then lit "0." ++ zeros (- decpt) ++ ds
  else if n <=? decpt then ds ++ zeros (decpt - n) ++ lit ".0"
  else firstn (Z.to_nat decpt) ds ++ lit "." ++ skipn (Z.to_nat decpt) ds.

Definition float_repr (x : float) : str :=
  match x with
  | S754_nan => lit "nan"
  | S754_infinity s => if s then lit "-inf" else lit "inf"
  | S754_zero s => if s then lit "-0.0" else lit "0.0"
  | S754_finite s m e => (if s then lit "-" else []) ++ repr_finite m e
  end.

(** Whether the float [x] and the integer [z] are equal as numbers. *)
Definition float_eq_int (x : float) (z : Z) : bool :=
  match x with
  | S754_zero _ => z =? 0
  | S754_finite s m e =>
      if 0 <=? e then cond_Zopp s (Zpos m * 2 ^ e) =? z
      else (Zpos m mod 2 ^ (- e) =? 0) && (cond_Zopp s (Zpos m / 2 ^ (- e)) =? z)
  | _ => false
  end.

(** [os.path.join(a, b)] *)
Definition path_join (a b : str) : str :=
  if startswith b (lit "/") then b
  else match rev a with
       | [] => b
       | c :: _ => if N.eqb c (ch "/") then a ++ b else a ++ lit "/" ++ b
       end.

(** ** Values

    What [json.loads] and a JSONB column yield: [None], booleans, integers,
    floats, text, lists and dicts.  A dict is the list of its items in
    insertion order, with distinct keys.  JSONB numbers are finite, so the
    floats met here are never NaN. *)

#[local] Set Warnings "-register-all".
Inductive json : Type :=
| JNull
| JBool (b : bool)
| JInt (z : Z)
| JFloat (f : float)
| JStr (s : str)
| JList (l : list json)
| JDict (d : list (str * json)).

Definition truthy (v : json) : bool :=
  match v with
  | JNull => false
  | JBool b => b
  | JInt z => negb (z =? 0)
  | JFloat f => fnonzero f
  | JStr s => match s with [] => false | _ => true end
  | JList l => match l with [] => false | _ => true end
  | JDict d => match d with [] => false | _ => true end
  end.

(** [a or b], for an operand [b] that cannot raise. *)
Definition or_ (a b : json) : json := if truthy a then a else b.

Fixpoint lookup (d : list (str * json)) (k : str) : option json :=
  match d with
  | [] => None
  | (k', v) :: d' => if str_eqb k' k then Some v else lookup d' k
  end.

(** [v.get(k, default)]: only a dict has [get]. *)
Definition get_default (v : json) (k : str) (default : json) : exn json :=
  match v with
  | JDict d => Ok (match lookup d k with Some x => x | None => default end)
  | _ => Raise AttributeError
  end.

(** [v.get(k)] *)
Definition get (v : json) (k : str) : exn json := get_default v k JNull.

Definition is_dict (v : json) : bool :=
  match v with JDict _ => true | _ => false end.

(** [v == "..."] for a text literal. *)
Definition is_text (v : json) (s : str) : bool :=
  match v with JStr t => str_eqb t s | _ => false end.

(** [a == b] on hashable values: numbers compare by value across
    [bool], [int] and [float]. *)
Definition key_eq (a b : json) : bool :=
  let num v := match v with
               | JBool b => Some (if b then 1 else 0)
               | JInt z => Some z
               | _ => None
               end in
  match a, b with
  | JNull, JNull => true
  | JStr s, JStr t => str_eqb s t
  | JFloat x, JFloat y => feq x y
  | JFloat x, _ => match num b with Some z => float_eq_int x z | None => false end
  | _, JFloat y => match num a with Some z => float_eq_int y z | None => false end
  | _, _ => match num a, num b with
            | Some x, Some y => x =? y
            | _, _ => false
            end
  end.

(** [int(v)] *)
Definition py_int (v : json) : exn Z :=
  match v with
  | JBool b => Ok (if b then 1 else 0)
  | JInt z => Ok z
  | JFloat f => int_of_float f
  | JStr s => int_base10 s
  | _ => Raise TypeError
  end.

(** [float(v)] *)
Definition py_float (v : json) : exn float :=
  match v with
  | JBool b => Ok (if b then f1 else f0)
  | JInt z => float_of_int z
  | JFloat f => Ok f
  | JStr s => float_of_str s
  | _ => Raise TypeError
  end.

(** [v / 2] *)
Definition halve (v : json) : exn float :=
  match v with
  | JBool b => Ok (if b then fhalf else f0)
  | JInt z => match float_of_ratio z 2 with
              | S754_infinity _ => Raise OverflowError
              | q => Ok q
              end
  | JFloat f => Ok (fdiv f (float_of_Z 2))
  | _ => Raise TypeError
  end.

End Py.

(* ===================================================================== *)
(** * caption_service.py: the subtitle formatter                           *)
(* ===================================================================== *)

Module Caption.
Import Py.

(** One entry of a segment's ["words"] list, the dict
    [{"word": ..., "start": ..., "end": ...}]; [None] is an absent key
    (for ["word"] also a null value). *)
Record word : Type := Word {
  w_word : option str;
  w_start : option float;
  w_end : option float
}.

(** One entry of [caption.segments]. *)
Record segment : Type := Segment {
  start_time : float;
  end_time : float;
  text : str;
  text_english : option str;
  words : option (list word)
}.

Definition nl : str := [10%N].

(** *** Time stamps *)

(** [_format_time_srt]: [HH:MM:SS,mmm] *)
Definition _format_time_srt (seconds : float) : exn str :=
  h <- float_floordiv seconds (float_of_Z 3600) ;;
  hours <- int_of_float h ;;
  m <- float_mod seconds (float_of_Z 3600) ;;
  m <- float_floordiv m (float_of_Z 60) ;;
  minutes <- int_of_float m ;;
  s <- float_mod seconds (float_of_Z 60) ;;
  secs <- int_of_float s ;;
  f <- float_mod seconds (float_of_Z 1) ;;
  millis <- int_of_float (fmul f (float_of_Z 1000)) ;;
  Ok (fmt_02d hours ++ lit ":" ++ fmt_02d minutes ++ lit ":" ++ fmt_02d secs
      ++ lit "," ++ fmt_03d millis).

(** [_format_time_vtt]: [HH:MM:SS.mmm] *)
Definition _format_time_vtt (seconds : float) : exn str :=
  h <- float_floordiv seconds (float_of_Z 3600) ;;
  hours <- int_of_float h ;;
  m <- float_mod seconds (float_of_Z 3600) ;;
  m <- float_floordiv m (float_of_Z 60) ;;
  minutes <- int_of_float m ;;
  s <- float_mod seconds (float_of_Z 60) ;;
  secs <- int_of_float s ;;
  f <- float_mod seconds (float_of_Z 1) ;;
  millis <- int_of_float (fmul f (float_of_Z 1000)) ;;
  Ok (fmt_02d hours ++ lit ":" ++ fmt_02d minutes ++ lit ":" ++ fmt_02d secs
      ++ lit "." ++ fmt_03d millis).

(** [_format_time_ass]: [H:MM:SS.cc] *)
Definition _format_time_ass (seconds : float) : exn str :=
  h <- float_floordiv seconds (float_of_Z 3600) ;;
  hours <- int_of_float h ;;
  m <- float_mod seconds (float_of_Z 3600) ;;
  m <- float_floordiv m (float_of_Z 60) ;;
  minutes <- int_of_float m ;;
  s <- float_mod seconds (float_of_Z 60) ;;
  secs <- int_of_float s ;;
  f <- float_mod seconds (float_of_Z 1) ;;
  centis <- int_of_float (fmul f (float_of_Z 100)) ;;
  Ok (str_of_int hours ++ lit ":" ++ fmt_02d minutes ++ lit ":" ++ fmt_02d secs
      ++ lit "." ++ fmt_02d centis).

(** *** SRT and VTT *)

(** [text], followed by the translation when asked for and present. *)
Definition cue_text (seg : segment) (include_translation : bool) : str :=
  match text_english seg with
  | Some (c :: en) =>
      if include_translation then text seg ++ nl ++ (c :: en) else text seg
  | _ => text seg
  end.

(** The loop of [_generate_srt] / [_generate_vtt]; [i] counts from 1. *)
Fixpoint cue_lines (fmt : float -> exn str) (include_translation : bool)
    (i : Z) (segs : list segment) (lines : list str) : exn (list str) :=
  match segs with
  | [] => Ok lines
  | seg :: segs' =>
      start <- fmt (start_time seg) ;;
      end_ <- fmt (end_time seg) ;;
      cue_lines fmt include_translation (i + 1) segs'
        (lines ++ [str_of_int i; start ++ lit " --> " ++ end_;
                   cue_text seg include_translation; []])
  end.

Definition _generate_srt (segments : list segment) (include_translation : bool)
  : exn str :=
  lines <- cue_lines _format_time_srt include_translation 1 segments [] ;;
  Ok (join nl lines).

Definition _generate_vtt (segments : list segment) (include_translation : bool)
  : exn str :=
  lines <- cue_lines _format_time_vtt include_translation 1 segments
             [lit "WEBVTT"; []] ;;
  Ok (join nl lines).

(** *** Colours *)

(** [_hex_to_ass_color(hex_color, alpha)]: [#RRGGBB] to [&HAABBGGRR]. *)
Definition _hex_to_ass_color (hex_color : str) (alpha : Z) : exn str :=
  let c := lstrip_chars (lit "#")
             (match hex_color with [] => lit "#FFFFFF" | _ => hex_color end) in
  let c := if negb (len c =? 6) then lit "FFFFFF" else c in
  r <- int_base16 (slice c 0 2) ;;
  g <- int_base16 (slice c 2 4) ;;
  b <- int_base16 (slice c 4 6) ;;
  Ok (lit "&H" ++ fmt_02X alpha ++ fmt_02X b ++ fmt_02X g ++ fmt_02X r).

(** The alpha byte computed inside [_rgba_to_ass_back_color]:
    [int(max(0.0, min(1.0, 1.0 - a)) * 255)]. *)
Definition back_alpha (a : float) : exn Z :=
  int_of_float (fmul (fmax f0 (fmin f1 (fsub f1 a))) (float_of_Z 255)).

(** The body of the [try] block of [_rgba_to_ass_back_color]. *)
Definition rgba_body (s : str) : exn str :=
  let inner := slice s (find s (lit "(") + 1) (find s (lit ")")) in
  let parts := map strip (split_char (ch ",") inner) in
  p0 <- index parts 0 ;; fr <- float_of_str p0 ;; r <- int_of_float fr ;;
  p1 <- index parts 1 ;; fg <- float_of_str p1 ;; g <- int_of_float fg ;;
  p2 <- index parts 2 ;; fb <- float_of_str p2 ;; b <- int_of_float fb ;;
  p3 <- index parts 3 ;; a <- float_of_str p3 ;;
  alpha <- back_alpha a ;;
  Ok (lit "&H" ++ fmt_02X alpha ++ fmt_02X b ++ fmt_02X g ++ fmt_02X r).

(** [_rgba_to_ass_back_color(rgba)]; [None] and the empty text are falsy. *)
Definition _rgba_to_ass_back_color (rgba : option str) : exn str :=
  match rgba with
  | None | Some [] => _hex_to_ass_color (lit "#000000") 128
  | Some rgba =>
      let s := strip rgba in
      if startswith s (lit "#") then _hex_to_ass_color s 128
      else if startswith s (lit "rgba") then
        try_except (r <- rgba_body s ;; Ok (Ok r))
                   (fun _ => _hex_to_ass_color (lit "#000000") 128)
      else if startswith s (lit "rgb") then _hex_to_ass_color (lit "#000000") 128
      else _hex_to_ass_color (lit "#000000") 128
  end.

(** *** Karaoke *)

Definition word_text (w : word) : str :=
  strip (match w_word w with Some s => s | None => [] end).

Definition word_start (w : word) : float :=
  match w_start w with Some x => x | None => f0 end.

Definition word_end (w : word) : float :=
  match w_end w with Some x => x | None => word_start w end.

(** The body of the loop of [_karaoke_text] for the word at index [idx]:
    the part appended, if any. *)
Definition karaoke_part (idx : nat) (w : word) : exn (option str) :=
  let word := word_text w in
  match word with
  | [] => Ok None
  | _ =>
      let start := word_start w in
      let end_ := word_end w in
      r <- round (fmul (fsub end_ start) (float_of_Z 100)) ;;
      let dur_cs := Z.max 1 r in
      let prefix := match idx with O => [] | _ => lit " " end in
      Ok (Some (lit "{\k" ++ str_of_int dur_cs ++ lit "}" ++ prefix ++ word))
  end.

Fixpoint karaoke_loop (idx : nat) (ws : list word) (parts : list str)
  : exn (list str) :=
  match ws with
  | [] => Ok parts
  | w :: ws' =>
      p <- karaoke_part idx w ;;
      karaoke_loop (S idx) ws'
        (match p with Some s => parts ++ [s] | None => parts end)
  end.

(** [_karaoke_text(words)] *)
Definition _karaoke_text (ws : list word) : exn str :=
  parts <- karaoke_loop 0 ws [] ;;
  Ok (join [] parts).

(** *** ASS events *)

(** [s.replace("\n", "\\N")] *)
Fixpoint escape_newlines (s : str) : str :=
  match s with
  | [] => []
  | c :: s' => (if N.eqb c 10 then lit "\N" else [c]) ++ escape_newlines s'
  end.

(** The text field of one dialogue line of [_generate_ass_from_preset]. *)
Definition preset_dialogue_text (karaoke : bool) (seg : segment) : exn str :=
  match words seg with
  | Some (w :: ws) =>
      if karaoke then _karaoke_text (w :: ws)
      else Ok (strip (escape_newlines (text seg)))
  | _ => Ok (strip (escape_newlines (text seg)))
  end.

(** One dialogue line of [_generate_ass_from_preset]. *)
Definition preset_dialogue (karaoke : bool) (seg : segment) : exn str :=
  start <- _format_time_ass (start_time seg) ;;
  end_ <- _format_time_ass (end_time seg) ;;
  t <- preset_dialogue_text karaoke seg ;;
  Ok (lit "Dialogue: 0," ++ start ++ lit "," ++ end_
      ++ lit ",Default,,0,0,0,," ++ t).

(** One dialogue line of [_generate_ass]. *)
Definition plain_dialogue (seg : segment) : exn str :=
  start <- _format_time_ass (start_time seg) ;;
  end_ <- _format_time_ass (end_time seg) ;;
  Ok (lit "Dialogue: 0," ++ start ++ lit "," ++ end_
      ++ lit ",Default,,0,0,0,," ++ escape_newlines (text seg)).

(** The [[Events]] body: the dialogue lines joined by newlines. *)
Definition preset_events (karaoke : bool) (segs : list segment) : exn str :=
  ls <- mapM (preset_dialogue karaoke) segs ;; Ok (join nl ls).

Definition plain_events (segs : list segment) : exn str :=
  ls <- mapM plain_dialogue segs ;; Ok (join nl ls).

(** *** Vocabulary of the karaoke and colour properties *)

(** The float handed to [round] for one word: [(end - start) * 100]. *)
Definition span_cs (w : word) : float :=
  fmul (fsub (word_end w) (word_start w)) (float_of_Z 100).

Definition is_finite (x : float) : bool :=
  match x with
  | S754_zero _ | S754_finite _ _ _ => true
  | _ => false
  end.

(** [round] as a total function: its value on finite floats. *)
Definition round_Z (x : float) : Z :=
  match round x with Ok r => r | Raise _ => 0 end.

(** [max(1, round((end - start) * 100))] *)
Definition centiseconds (w : word) : Z := Z.max 1 (round_Z (span_cs w)).

(** A word survives when its trimmed text is not empty. *)
Definition kept (w : word) : bool :=
  match word_text w with [] => false | _ => true end.

(** [{\k<centiseconds>}], then the trimmed word, after a space unless
    [idx] is 0. *)
Definition tag (idx : nat) (w : word) : str :=
  lit "{\k" ++ str_of_int (centiseconds w) ++ lit "}"
  ++ (match idx with O => [] | _ => lit " " end) ++ word_text w.

(** The same with the space, whatever the index. *)
Definition spaced_tag (w : word) : str :=
  lit "{\k" ++ str_of_int (centiseconds w) ++ lit "} " ++ word_text w.

(** A surviving word has finite times. *)
Definition well_timed (w : word) : Prop :=
  kept w = true -> is_finite (span_cs w) = true.

(** [enumerate(l, i)] *)
Fixpoint enumerate_from {A} (i : nat) (l : list A) : list (nat * A) :=
  match l with
  | [] => []
  | a :: l' => (i, a) :: enumerate_from (S i) l'
  end.

(** One tag per surviving word, each with its index in the whole list. *)
Definition tags_from (i : nat) (ws : list word) : list str :=
  map (fun p => tag (fst p) (snd p))
      (filter (fun p => kept (snd p)) (enumerate_from i ws)).

(** The alpha byte in the words of the specification:
    [round((1 - a) * 255)]. *)
Definition spec_back_alpha (a : float) : exn Z :=
  round (fmul (fsub f1 a) (float_of_Z 255)).

(** *** Vocabulary of the export and colour properties *)

(** The time line of a cue, when both stamps can be formatted. *)
Definition stamp_line (fmt : float -> exn str) (seg : segment) : str :=
  match fmt (start_time seg), fmt (end_time seg) with
  | Ok a, Ok b => a ++ lit " --> " ++ b
  | _, _ => []
  end.

(** What one segment contributes to an SRT or VTT file: its number, its
    time line, its text and an empty line, each closed by a line feed. *)
Definition cue_block (fmt : float -> exn str) (include_translation : bool)
    (p : nat * segment) : str :=
  str_of_int (Z.of_nat (fst p)) ++ nl ++ stamp_line fmt (snd p) ++ nl
  ++ cue_text (snd p) include_translation ++ nl ++ nl.

(** ASCII upper-casing of one code point. *)
Definition upper (c : char) : char :=
  if (97 <=? Z.of_N c) && (Z.of_N c <=? 122) then (c - 32)%N else c.

Definition hex_digits : list char := lit "0123456789abcdefABCDEF".


End Caption.

(* ===================================================================== *)
(** * template_service.py: the timeline compositor                         *)
(* ===================================================================== *)

Module Template.
Import Py.

Definition bytes := list N.

(** The columns of [Template] the service and the endpoints read; ids are
    UUIDs in their text form. *)
Record template : Type := {
  t_id : str;
  is_premium : bool;
  usage_count : Z;
  t_duration_seconds : Z;
  t_fps : Z;
  t_width : Z;
  t_height : Z;
  template_data : json
}.

(** [UserTemplate.status]: "draft", "rendering", "completed", "failed". *)
Inductive job_status : Type := draft | rendering | completed | failed.

(** A row of [user_templates]: one render job. *)
Record user_template : Type := {
  ut_id : str;
  user_id : str;
  template_id : str;
  project_id : option str;
  title : str;
  customizations : json;
  output_url : option str;
  thumbnail_url : option str;
  status : job_status;
  render_progress : Z;
  error_message : option str;
  rendered_at : option Z
}.

(** An [httpx] response, as far as it is read. *)
Record response : Type := {
  status_code : Z;
  content_type : option str;
  content : bytes
}.

(** [response.raise_for_status()]: anything but a 2xx status raises. *)
Definition raise_for_status (r : response) : exn unit :=
  if (200 <=? status_code r) && (status_code r <? 300) then Ok tt
  else Raise (HTTPStatusError (status_code r)).

(** [s.lower()] *)
Definition lower_text (s : str) : str := str_lower s.

(** [s.rsplit(".", 1)[-1]]: what follows the last dot. *)
Definition after_last_dot (s : str) : str :=
  rev (fst (break_at (N.eqb (ch ".")) (rev s))).

(** The file extension [_prepare_assets] gives a downloaded asset. *)
Definition asset_ext (url : str) (r : response) : exn str :=
  url_path <- index (split_once url (lit "?")) 0 ;;
  let ext := lower_text (if contains url_path (lit ".")
                         then after_last_dot url_path else lit "bin") in
  let ctype := lower_text (match content_type r with
                           | Some (c :: t) => c :: t
                           | _ => []
                           end) in
  Ok (if str_eqb ext (lit "bin") then
        if contains ctype (lit "image/png") then lit "png"
        else if contains ctype (lit "image/jpeg") || contains ctype (lit "image/jpg")
        then lit "jpg"
        else if contains ctype (lit "video/mp4") then lit "mp4"
        else if contains ctype (lit "video/quicktime") then lit "mov"
        else ext
      else ext).

(** [d[k] = v] on a dict kept as its list of items. *)
Fixpoint assign {K V} (eqb : K -> K -> bool) (d : list (K * V)) (k : K) (v : V)
  : list (K * V) :=
  match d with
  | [] => [(k, v)]
  | (k', v') :: d' =>
      if eqb k' k then (k', v) :: d' else (k', v') :: assign eqb d' k v
  end.

Fixpoint assoc {K V} (eqb : K -> K -> bool) (d : list (K * V)) (k : K) : option V :=
  match d with
  | [] => None
  | (k', v) :: d' => if eqb k' k then Some v else assoc eqb d' k
  end.

Section World.

(** The interpreter and the outside world:
    - [repr_container]: [str(v)] for a list or a dict [v];
    - [FFMPEG_PATH]: [settings.FFMPEG_PATH];
    - [tmp_dir]: the name [tempfile.TemporaryDirectory()] yields;
    - [http_get]: [httpx.AsyncClient.get];
    - [can_write]: whether [open(path, "w")] succeeds;
    - [run]: [subprocess.run], giving the return code and the error text;
    - [read_file]: [open(path, "rb").read()] once the encoder has run;
    - [upload_file_content]: [StorageService.upload_file_content];
    - [utcnow]: [datetime.utcnow()];
    - [builtin_text]: [str(e)] for an exception the run time raised. *)
Variable repr_container : json -> str.
Variable FFMPEG_PATH : str.
Variable tmp_dir : str.
Variable http_get : str -> exn response.
Variable can_write : str -> bool.
Variable run : list str -> exn (Z * str).
Variable read_file : str -> exn bytes.
Variable upload_file_content : bytes -> str -> str -> str -> exn str.
Variable utcnow : Z.
Variable builtin_text : exc -> str.

(** [str(v)], also [f"{v}"] *)
Definition py_str (v : json) : str :=
  match v with
  | JNull => lit "None"
  | JBool b => if b then lit "True" else lit "False"
  | JInt z => str_of_int z
  | JFloat f => float_repr f
  | JStr s => s
  | _ => repr_container v
  end.

Definition open_write (path : str) : exn unit :=
  if can_write path then Ok tt else Raise FileNotFoundError.

(** [customizations.items()] *)
Definition items (v : json) : exn (list (str * json)) :=
  match v with
  | JDict d => Ok d
  | _ => Raise AttributeError
  end.

(** [_prepare_assets]: downloads every customization value that is a
    text starting with "http"; yields [asset_paths]. *)
Fixpoint prepare_loop (fields : list (str * json)) (asset_paths : list (str * str))
  : exn (list (str * str)) :=
  match fields with
  | [] => Ok asset_paths
  | (field_id, value) :: fields' =>
      match value with
      | JStr url =>
          if startswith url (lit "http") then
            r <- http_get url ;;
            _ <- raise_for_status r ;;
            ext <- asset_ext url r ;;
            let path := path_join tmp_dir (field_id ++ lit "." ++ ext) in
            _ <- open_write path ;;
            prepare_loop fields' (assign str_eqb asset_paths field_id path)
          else prepare_loop fields' asset_paths
      | _ => prepare_loop fields' asset_paths
      end
  end.

Definition _prepare_assets (user_template : user_template) : exn (list (str * str)) :=
  fields <- items (or_ (customizations user_template) (JDict [])) ;;
  prepare_loop fields [].

(** *** The closure of [_render_video]

    What the nested helpers [resolve_token], [resolve_obj] and
    [between_expr] capture. *)
Record scene : Type := {
  definition : json;
  custom : json;
  duration_seconds : json;
  theme : json
}.

(** [resolve_duration_seconds]: a [bool] is an [int] to [isinstance]. *)
Definition resolve_duration_seconds (t : template) (custom : json) : exn json :=
  dur <- get custom (lit "duration_seconds") ;;
  Ok (match dur with
      | JInt z => if 0 <? z then dur else JInt (t_duration_seconds t)
      | JBool true => dur
      | _ => JInt (t_duration_seconds t)
      end).

(** [resolve_theme_id] *)
Definition resolve_theme_id (definition custom : json) : exn json :=
  theme_id <- get custom (lit "theme_id") ;;
  match theme_id with
  | JStr (c :: s) => Ok theme_id
  | _ =>
      themes <- get definition (lit "themes") ;;
      Ok (match or_ themes (JDict []) with
          | JDict ((k, _) :: _) => JStr k
          | _ => JNull
          end)
  end.

(** [((definition.get("themes") or {}).get(theme_id) if theme_id else None) or {}] *)
Definition resolve_theme (definition theme_id : json) : exn json :=
  match theme_id with
  | JStr (c :: s) =>
      themes <- get definition (lit "themes") ;;
      th <- get (or_ themes (JDict [])) (c :: s) ;;
      Ok (or_ th (JDict []))
  | _ => Ok (JDict [])
  end.

(** [resolve_token] *)
Definition resolve_token (sc : scene) (value : json) : exn json :=
  match value with
  | JStr s =>
      if str_eqb s (lit "$duration") then Ok (duration_seconds sc)
      else if startswith s (lit "$theme.colors.") then
        key <- index (split_once s (lit "$theme.colors.")) 1 ;;
        colors <- get (theme sc) (lit "colors") ;;
        get_default (or_ colors (JDict [])) key (JStr (lit "#000000"))
      else if startswith s (lit "$placeholder.") then
        key <- index (split_once s (lit "$placeholder.")) 1 ;;
        v <- get (custom sc) key ;;
        if truthy v then Ok v
        else
          phs <- get (definition sc) (lit "placeholders") ;;
          ph <- get (or_ phs (JDict [])) key ;;
          get (or_ ph (JDict [])) (lit "default")
      else Ok value
  | _ => Ok value
  end.

(** [resolve_obj] *)
Fixpoint resolve_obj (sc : scene) (obj : json) : exn json :=
  match obj with
  | JDict d =>
      d' <- (fix items (d : list (str * json)) : exn (list (str * json)) :=
               match d with
               | [] => Ok []
               | (k, v) :: r =>
                   v' <- resolve_obj sc v ;; r' <- items r ;; Ok ((k, v') :: r')
               end) d ;;
      Ok (JDict d')
  | JList l =>
      l' <- (fix elems (l : list json) : exn (list json) :=
               match l with
               | [] => Ok []
               | v :: r =>
                   v' <- resolve_obj sc v ;; r' <- elems r ;; Ok (v' :: r')
               end) l ;;
      Ok (JList l')
  | _ => resolve_token sc obj
  end.

(** [between_expr(start, end)] *)
Definition between_expr (sc : scene) (start end_ : json) : exn str :=
  rs <- resolve_token sc start ;;
  s <- py_float (or_ rs (JInt 0)) ;;
  re <- resolve_token sc end_ ;;
  e <- py_float (or_ re (duration_seconds sc)) ;;
  e <- (if key_eq (JFloat e) (duration_seconds sc) && is_text end_ (lit "$duration")
        then py_float (duration_seconds sc) else Ok e) ;;
  Ok (lit "between(t\," ++ float_repr s ++ lit "\," ++ float_repr e ++ lit ")").

(** A scene on which token resolution cannot fail: customizations,
    definition and theme are dicts, and the colour table, the placeholder
    table and its entries are dicts where present. *)
Definition dict_or_falsy (v : json) : bool := is_dict v || negb (truthy v).

Definition well_formed (sc : scene) : Prop :=
  is_dict (custom sc) = true
  /\ is_dict (definition sc) = true
  /\ is_dict (theme sc) = true
  /\ (forall v, get (theme sc) (lit "colors") = Ok v -> dict_or_falsy v = true)
  /\ (forall phs, get (definition sc) (lit "placeholders") = Ok phs ->
        dict_or_falsy phs = true
        /\ forall key ph, get (or_ phs (JDict [])) key = Ok ph ->
                          dict_or_falsy ph = true).

(** *** Inputs *)

(** [quality_settings.get(quality, quality_settings["high"])] *)
Definition quality_opts (quality : str) : Z * str :=
  if str_eqb quality (lit "low") then (28, lit "fast")
  else if str_eqb quality (lit "medium") then (23, lit "medium")
  else if str_eqb quality (lit "high") then (18, lit "slow")
  else if str_eqb quality (lit "ultra") then (15, lit "slower")
  else (18, lit "slow").

(** The background colour: the first [solid] layer's, else black. *)
Fixpoint background (sc : scene) (layers : list json) : exn json :=
  match layers with
  | [] => Ok (JStr (lit "black"))
  | layer :: rest =>
      if is_dict layer then
        ty <- get layer (lit "type") ;;
        if is_text ty (lit "solid") then
          st <- get layer (lit "style") ;;
          style <- resolve_obj sc (or_ st (JDict [])) ;;
          c <- get style (lit "color") ;;
          Ok (or_ c (JStr (lit "black")))
        else background sc rest
      else background sc rest
  end.

(** A dict key must be hashable. *)
Definition hashable (k : json) : exn json :=
  match k with
  | JList _ | JDict _ => Raise TypeError
  | _ => Ok k
  end.

(** The local file of a video/image layer whose resolved source is the
    text [source]; the empty text when there is none. *)
Definition local_path (asset_paths : list (str * str)) (raw_source : json)
    (source : str) : exn str :=
  placeholder_key <-
    match raw_source with
    | JStr r => if startswith r (lit "$placeholder.")
                then index (split_once r (lit "$placeholder.")) 1
                else Ok []
    | _ => Ok []
    end ;;
  let found := match assoc str_eqb asset_paths placeholder_key with
               | Some p => p
               | None => []
               end in
  Ok (match found with
      | [] => if startswith source tmp_dir then source else []
      | _ => found
      end).

(** One turn of the loop that builds [ffmpeg_inputs] and
    [input_index_by_layer_id]. *)
Definition add_input (sc : scene) (asset_paths : list (str * str)) (layer : json)
    (acc : list str * list (json * Z)) : exn (list str * list (json * Z)) :=
  let '(ffmpeg_inputs, input_index) := acc in
  if negb (is_dict layer) then Ok acc
  else
    ltype <- get layer (lit "type") ;;
    if negb (is_text ltype (lit "video") || is_text ltype (lit "image")) then Ok acc
    else
      raw_source <- get layer (lit "source") ;;
      source <- resolve_token sc raw_source ;;
      match source with
      | JStr (c :: s) =>
          path <- local_path asset_paths raw_source (c :: s) ;;
          match path with
          | [] => Ok acc
          | _ =>
              let n := Z.of_nat (List.length input_index) in
              id <- get layer (lit "id") ;;
              key <- hashable (or_ id (JStr (lit "layer_" ++ str_of_int (n + 1)))) ;;
              Ok (ffmpeg_inputs
                  ++ (if is_text ltype (lit "video")
                      then [lit "-stream_loop"; lit "-1"; lit "-i"; path]
                      else [lit "-loop"; lit "1"; lit "-i"; path]),
                  assign key_eq input_index key (1 + n))
          end
      | _ => Ok acc
      end.

Fixpoint add_inputs (sc : scene) (asset_paths : list (str * str))
    (layers : list json) (acc : list str * list (json * Z))
  : exn (list str * list (json * Z)) :=
  match layers with
  | [] => Ok acc
  | layer :: rest =>
      acc' <- add_input sc asset_paths layer acc ;;
      add_inputs sc asset_paths rest acc'
  end.

(** The layers the input loop looks at. *)
Definition is_media (ltype : json) : bool :=
  is_text ltype (lit "video") || is_text ltype (lit "image").

(** A layer for which the input loop finds no local file: its source
    resolves to no text, or to a text that is neither the placeholder of
    a downloaded asset nor a path under [tmp_dir]. *)
Definition unmaterialized (sc : scene) (asset_paths : list (str * str))
    (layer : json) : Prop :=
  exists raw src,
    get layer (lit "source") = Ok raw
    /\ resolve_token sc raw = Ok src
    /\ match src with
       | JStr (c :: s) => local_path asset_paths raw (c :: s) = Ok []
       | _ => True
       end.

(** *** Z order *)

(** [int(l.get("z") or 0)] *)
Definition z_key (layer : json) : exn Z :=
  z <- get layer (lit "z") ;; py_int (or_ z (JInt 0)).

(** [sorted(..., key=...)] on items already paired with their keys: the
    stable sort, an item going before the first one whose key is not
    smaller than its own. *)
Fixpoint insert_sorted {A} (x : Z * A) (l : list (Z * A)) : list (Z * A) :=
  match l with
  | [] => [x]
  | y :: l' => if fst x <=? fst y then x :: y :: l' else y :: insert_sorted x l'
  end.

Fixpoint sorted_by_key {A} (l : list (Z * A)) : list (Z * A) :=
  match l with
  | [] => []
  | x :: l' => insert_sorted x (sorted_by_key l')
  end.

(** The integer a layer is sorted by; 0 when [z_key] raises. *)
Definition zk (layer : json) : Z :=
  match z_key layer with Ok k => k | Raise _ => 0 end.

Definition key_le {A} (a b : Z * A) : Prop := fst a <= fst b.

Definition keyed_layers (layers : list json) : exn (list (Z * json)) :=
  mapM (fun l => k <- z_key l ;; Ok (k, l)) (filter is_dict layers).

(** [sorted_layers] *)
Definition sorted_layers (layers : list json) : exn (list json) :=
  kl <- keyed_layers layers ;;
  Ok (map snd (sorted_by_key kl)).

(** *** The filter graph *)

(** The state of the compositing loop; [text_files] are the files
    [write_textfile] has written, the latest first. *)
Record graph : Type := {
  filter_lines : list str;
  current_label : str;
  draw_index : Z;
  overlay_index : Z;
  text_files : list (str * str)
}.

Definition int_field (v : json) (k : string) (default : Z) : exn Z :=
  x <- get v (lit k) ;; py_int (or_ x (JInt default)).

(** The turn of the loop for a [video] or [image] layer. *)
Definition overlay_layer (sc : scene) (width height : Z)
    (input_index : list (json * Z)) (ltype layer : json) (g : graph) : exn graph :=
  layer_id <- get layer (lit "id") ;;
  layer_id <- hashable layer_id ;;
  match assoc key_eq input_index layer_id with
  | None => Ok g
  | Some input_idx =>
      tr <- get layer (lit "transform") ;;
      transform <- resolve_obj sc (or_ tr (JDict [])) ;;
      fitv <- get transform (lit "fit") ;;
      let fit := or_ fitv (JStr (lit "cover")) in
      op <- get transform (lit "opacity") ;;
      opacity <- py_float (or_ op (JFloat f1)) ;;
      let inp := lit "[" ++ str_of_int input_idx ++ lit ":v]" in
      let ov := lit "[ov" ++ str_of_int (overlay_index g) ++ lit "]" in
      let wh := lit "w=" ++ str_of_int width ++ lit ":h=" ++ str_of_int height in
      scaled <-
        (if is_text ltype (lit "video") then
           if is_text fit (lit "contain") then
             Ok (inp ++ lit "scale=" ++ wh ++ lit ":force_original_aspect_ratio=decrease"
                 ++ lit "," ++ lit "pad=" ++ wh
                 ++ lit ":x=(ow-iw)/2:y=(oh-ih)/2:color=0x00000000"
                 ++ lit ",setsar=1,format=rgba" ++ ov)
           else
             Ok (inp ++ lit "scale=" ++ wh ++ lit ":force_original_aspect_ratio=increase"
                 ++ lit "," ++ lit "crop=" ++ wh
                 ++ lit ",setsar=1,format=rgba" ++ ov)
         else
           w <- int_field transform "w" 0 ;;
           h <- int_field transform "h" 0 ;;
           if (0 <? w) && (0 <? h) then
             Ok (inp ++ lit "scale=" ++ str_of_int w ++ lit ":" ++ str_of_int h
                 ++ lit ":force_original_aspect_ratio=decrease,format=rgba" ++ ov)
           else Ok (inp ++ lit "format=rgba" ++ ov)) ;;
      x <- int_field transform "x" 0 ;;
      y <- int_field transform "y" 0 ;;
      start <- get layer (lit "start") ;;
      end_ <- get layer (lit "end") ;;
      enable <- between_expr sc start end_ ;;
      let out_label := lit "[v" ++ str_of_int (overlay_index g) ++ lit "]" in
      let ova := lit "[ova" ++ str_of_int (overlay_index g) ++ lit "]" in
      let '(alpha_lines, ov_in) :=
        if flt opacity f1
        then ([ov ++ lit "colorchannelmixer=aa=" ++ float_repr opacity ++ ova], ova)
        else ([], ov) in
      Ok {| filter_lines :=
              filter_lines g ++ [scaled] ++ alpha_lines
              ++ [current_label g ++ ov_in ++ lit "overlay=x=" ++ str_of_int x
                  ++ lit ":y=" ++ str_of_int y ++ lit ":enable='" ++ enable
                  ++ lit "'" ++ out_label];
            current_label := out_label;
            draw_index := draw_index g;
            overlay_index := overlay_index g + 1;
            text_files := text_files g |}
  end.

(** The turn of the loop for a [text] layer. *)
Definition text_layer (sc : scene) (layer : json) (g : graph) : exn graph :=
  tv <- get layer (lit "text") ;;
  text_val <- resolve_token sc tv ;;
  match text_val with
  | JStr t =>
      match strip t with
      | [] => Ok g
      | _ =>
          st <- get layer (lit "style") ;;
          style <- resolve_obj sc (or_ st (JDict [])) ;;
          tr <- get layer (lit "transform") ;;
          transform <- resolve_obj sc (or_ tr (JDict [])) ;;
          font_size <- int_field style "fontSize" 48 ;;
          cv <- get style (lit "color") ;;
          let color := or_ cv (JStr (lit "white")) in
          ff <- get style (lit "fontFamily") ;;
          let font_family := or_ ff (JStr (lit "Inter")) in
          bgv <- get style (lit "background") ;;
          let bg := or_ bgv JNull in
          bc <- (if is_dict bg then get bg (lit "color") else Ok JNull) ;;
          let box := if is_dict bg && truthy bc then 1 else 0 in
          let boxcolor := or_ bc (JStr (lit "black@0.0")) in
          px <- (if is_dict bg then get bg (lit "paddingX") else Ok JNull) ;;
          half <- halve (or_ px (JInt 0)) ;;
          boxborderw <- int_of_float half ;;
          x <- int_field transform "x" 0 ;;
          y <- int_field transform "y" 0 ;;
          start <- get layer (lit "start") ;;
          end_ <- get layer (lit "end") ;;
          enable <- between_expr sc start end_ ;;
          let n := draw_index g + 1 in
          let textfile := path_join tmp_dir (lit "text_" ++ str_of_int n ++ lit ".txt") in
          _ <- open_write textfile ;;
          let draw :=
            lit "drawtext=textfile='" ++ textfile ++ lit "':font='"
            ++ py_str font_family ++ lit "':"
            ++ lit "fontsize=" ++ str_of_int font_size ++ lit ":fontcolor="
            ++ py_str color ++ lit ":x=" ++ str_of_int x ++ lit ":y="
            ++ str_of_int y ++ lit ":"
            ++ lit "box=" ++ str_of_int box ++ lit ":boxcolor=" ++ py_str boxcolor
            ++ lit ":boxborderw=" ++ str_of_int boxborderw ++ lit ":"
            ++ lit "enable='" ++ enable ++ lit "'" in
          let out_label := lit "[t" ++ str_of_int n ++ lit "]" in
          Ok {| filter_lines := filter_lines g ++ [current_label g ++ draw ++ out_label];
                current_label := out_label;
                draw_index := n;
                overlay_index := overlay_index g;
                text_files := (textfile, t) :: text_files g |}
      end
  | _ => Ok g
  end.

(** One turn of the compositing loop. *)
Definition compose_layer (sc : scene) (width height : Z)
    (input_index : list (json * Z)) (layer : json) (g : graph) : exn graph :=
  ltype <- get layer (lit "type") ;;
  if is_text ltype (lit "video") || is_text ltype (lit "image")
  then overlay_layer sc width height input_index ltype layer g
  else if is_text ltype (lit "text") then text_layer sc layer g
  else Ok g.

Fixpoint compose (sc : scene) (width height : Z) (input_index : list (json * Z))
    (layers : list json) (g : graph) : exn graph :=
  match layers with
  | [] => Ok g
  | layer :: rest =>
      g' <- compose_layer sc width height input_index layer g ;;
      compose sc width height input_index rest g'
  end.

Definition base_graph : graph :=
  {| filter_lines := [lit "[0:v]format=rgba[base]"];
     current_label := lit "[base]";
     draw_index := 0;
     overlay_index := 0;
     text_files := [] |}.

(** What the three loops over the layers yield: the background colour,
    [ffmpeg_inputs], [input_index_by_layer_id] and the filter graph. *)
Definition compile_layers (sc : scene) (width height : Z)
    (asset_paths : list (str * str)) (layers : list json)
  : exn (json * list str * list (json * Z) * graph) :=
  bg_color <- background sc layers ;;
  '(ffmpeg_inputs, input_index) <- add_inputs sc asset_paths layers ([], []) ;;
  sorted <- sorted_layers layers ;;
  g <- compose sc width height input_index sorted base_graph ;;
  Ok (bg_color, ffmpeg_inputs, input_index, g).

(** Everything [_render_video] computes before it calls the encoder. *)
Record compiled : Type := {
  c_duration : json;
  c_fps : Z;
  c_width : Z;
  c_height : Z;
  c_bg_color : json;
  c_inputs : list str;
  c_input_index : list (json * Z);
  c_graph : graph
}.

Definition compile (t : template) (ut : user_template)
    (asset_paths : list (str * str)) : exn compiled :=
  let definition := or_ (template_data t) (JDict []) in
  let custom := or_ (customizations ut) (JDict []) in
  duration_seconds <- resolve_duration_seconds t custom ;;
  fv <- get definition (lit "fps") ;;
  fps <- py_int (or_ (or_ fv (JInt (t_fps t))) (JInt 30)) ;;
  wv <- get definition (lit "width") ;;
  width <- py_int (or_ (or_ wv (JInt (t_width t))) (JInt 1080)) ;;
  hv <- get definition (lit "height") ;;
  height <- py_int (or_ (or_ hv (JInt (t_height t))) (JInt 1920)) ;;
  theme_id <- resolve_theme_id definition custom ;;
  theme <- resolve_theme definition theme_id ;;
  let sc := {| definition := definition; custom := custom;
               duration_seconds := duration_seconds; theme := theme |} in
  lv <- get definition (lit "layers") ;;
  let layers := match or_ lv (JList []) with JList l => l | _ => [] end in
  '(bg_color, ffmpeg_inputs, input_index, g) <-
    compile_layers sc width height asset_paths layers ;;
  Ok {| c_duration := duration_seconds; c_fps := fps; c_width := width;
        c_height := height; c_bg_color := bg_color; c_inputs := ffmpeg_inputs;
        c_input_index := input_index; c_graph := g |}.

(** The encoder's command line. *)
Definition command (c : compiled) (output_path quality : str) : list str :=
  [FFMPEG_PATH; lit "-y"; lit "-f"; lit "lavfi"; lit "-i";
   lit "color=c=" ++ py_str (c_bg_color c) ++ lit ":s=" ++ str_of_int (c_width c)
   ++ lit "x" ++ str_of_int (c_height c) ++ lit ":r=" ++ str_of_int (c_fps c)
   ++ lit ":d=" ++ py_str (c_duration c)]
  ++ c_inputs c
  ++ [lit "-filter_complex"; join (lit ";") (filter_lines (c_graph c));
      lit "-map"; current_label (c_graph c);
      lit "-t"; py_str (c_duration c);
      lit "-r"; str_of_int (c_fps c);
      lit "-c:v"; lit "libx264";
      lit "-crf"; str_of_int (fst (quality_opts quality));
      lit "-preset"; snd (quality_opts quality);
      lit "-pix_fmt"; lit "yuv420p";
      output_path].

(** [_render_video] *)
Definition _render_video (t : template) (ut : user_template)
    (output_path quality : str) (watermark : bool)
    (asset_paths : list (str * str)) : exn unit :=
  c <- compile t ut asset_paths ;;
  '(returncode, stderr) <- run (command c output_path quality) ;;
  if returncode =? 0 then Ok tt else Raise (FFmpegError stderr).

(** [_generate_thumbnail]: the outcome of the encoder is not looked at. *)
Definition _generate_thumbnail (video_path output_path : str) : exn unit :=
  _ <- run [FFMPEG_PATH; lit "-y"; lit "-i"; video_path; lit "-ss";
            lit "00:00:01"; lit "-vframes"; lit "1"; lit "-q:v"; lit "2";
            output_path] ;;
  Ok tt.

(** *** The render job *)

(** [str(e)] *)
Definition error_text (e : exc) : str :=
  match e with
  | FFmpegError stderr => lit "FFmpeg error: " ++ stderr
  | _ => builtin_text e
  end.

Definition with_progress (ut : user_template) (p : Z) : user_template :=
  {| ut_id := ut_id ut; user_id := user_id ut; template_id := template_id ut;
     project_id := project_id ut; title := title ut;
     customizations := customizations ut; output_url := output_url ut;
     thumbnail_url := thumbnail_url ut; status := status ut;
     render_progress := p; error_message := error_message ut;
     rendered_at := rendered_at ut |}.

Definition with_status (ut : user_template) (s : job_status) : user_template :=
  {| ut_id := ut_id ut; user_id := user_id ut; template_id := template_id ut;
     project_id := project_id ut; title := title ut;
     customizations := customizations ut; output_url := output_url ut;
     thumbnail_url := thumbnail_url ut; status := s;
     render_progress := render_progress ut; error_message := error_message ut;
     rendered_at := rendered_at ut |}.

(** [status = "failed"; error_message = msg] *)
Definition with_failure (ut : user_template) (msg : str) : user_template :=
  {| ut_id := ut_id ut; user_id := user_id ut; template_id := template_id ut;
     project_id := project_id ut; title := title ut;
     customizations := customizations ut; output_url := output_url ut;
     thumbnail_url := thumbnail_url ut; status := failed;
     render_progress := render_progress ut; error_message := Some msg;
     rendered_at := rendered_at ut |}.

(** The five assignments that close a successful render. *)
Definition with_output (ut : user_template) (video_url thumb_url : str)
  : user_template :=
  {| ut_id := ut_id ut; user_id := user_id ut; template_id := template_id ut;
     project_id := project_id ut; title := title ut;
     customizations := customizations ut; output_url := Some video_url;
     thumbnail_url := Some thumb_url; status := completed;
     render_progress := 100; error_message := error_message ut;
     rendered_at := Some utcnow |}.

(** The uploads that follow the encoder: the video, then its poster. *)
Definition publish (ut : user_template) (output_path output_format : str)
  : exn (str * str) :=
  video <- read_file output_path ;;
  video_url <- upload_file_content video
                 (title ut ++ lit "." ++ output_format)
                 (lit "renders/" ++ user_id ut)
                 (lit "video/" ++ output_format) ;;
  let thumbnail_path := path_join tmp_dir (lit "thumbnail.jpg") in
  _ <- _generate_thumbnail output_path thumbnail_path ;;
  thumb <- read_file thumbnail_path ;;
  thumbnail_url <- upload_file_content thumb
                     (title ut ++ lit "_thumb.jpg")
                     (lit "renders/" ++ user_id ut)
                     (lit "image/jpeg") ;;
  Ok (video_url, thumbnail_url).

(** [TemplateService.render_template] once both rows are loaded
    ([t] is [None] when the base template is missing): the states of the
    job row it commits, in order. *)
Definition render_job (t : option template) (ut : user_template)
    (output_format quality : str) (watermark : bool) : list user_template :=
  match t with
  | None => [with_failure ut (lit "Base template not found")]
  | Some t =>
      let ut10 := with_progress ut 10 in
      match _prepare_assets ut10 with
      | Raise e => [ut10; with_failure ut10 (error_text e)]
      | Ok asset_paths =>
          let ut40 := with_progress ut10 40 in
          let output_path := path_join tmp_dir (lit "output." ++ output_format) in
          match _render_video t ut40 output_path quality watermark asset_paths with
          | Raise e => [ut10; ut40; with_failure ut40 (error_text e)]
          | Ok _ =>
              let ut80 := with_progress ut40 80 in
              match publish ut80 output_path output_format with
              | Raise e => [ut10; ut40; ut80; with_failure ut80 (error_text e)]
              | Ok (video_url, thumbnail_url) =>
                  [ut10; ut40; ut80; with_output ut80 video_url thumbnail_url]
              end
          end
      end
  end.


(** The tables. *)
Record user : Type := {
  u_id : str;
  subscription_tier : str;
  credits_remaining : Z
}.

Record database : Type := {
  templates : list template;
  user_templates : list user_template;
  users : list user
}.

Definition find_template (db : database) (id : str) : option template :=
  List.find (fun t => str_eqb (t_id t) id) (templates db).

Definition find_job (db : database) (id : str) : option user_template :=
  List.find (fun j => str_eqb (ut_id j) id) (user_templates db).

Definition store_job (db : database) (j : user_template) : database :=
  {| templates := templates db;
     user_templates :=
       map (fun j' => if str_eqb (ut_id j') (ut_id j) then j else j')
           (user_templates db);
     users := users db |}.

(** [TemplateService.render_template]: the committed states of the job
    and the tables it leaves. *)
Definition render_template (db : database) (user_template_id : str)
    (output_format quality : str) (watermark : bool)
  : list user_template * database :=
  match find_job db user_template_id with
  | None => ([], db)
  | Some ut =>
      let trace := render_job (find_template db (template_id ut)) ut
                     output_format quality watermark in
      (trace, store_job db (last trace ut))
  end.

End World.
(** *** Vocabulary of the compositor's properties *)

(** A text [resolve_token] replaces. *)
Definition is_token (s : str) : bool :=
  str_eqb s (lit "$duration") || startswith s (lit "$theme.colors.")
  || startswith s (lit "$placeholder.").

(** A value in which no text is a token. *)
Fixpoint token_free (v : json) : bool :=
  match v with
  | JStr s => negb (is_token s)
  | JList l => forallb token_free l
  | JDict d => forallb (fun kv => token_free (snd kv)) d
  | _ => true
  end.

(** The scene of a job that customizes nothing. *)
Definition without_customizations (sc : scene) : scene :=
  {| definition := definition sc; custom := JDict [];
     duration_seconds := duration_seconds sc; theme := theme sc |}.

(** The file [write_textfile] writes at its [i]-th call. *)
Definition textfile_name (tmp_dir : str) (i : nat) : str :=
  path_join tmp_dir (lit "text_" ++ str_of_int (Z.of_nat i) ++ lit ".txt").


(** What the compositing loop keeps true of the graph: the last operation
    writes to [current_label]; the text files are numbered from 1 in the
    order they were written, and each could be opened. *)
Definition graph_inv (tmp_dir : str) (can_write : str -> bool) (g : graph) : Prop :=
  (exists pre body, filter_lines g = pre ++ [body ++ current_label g])
  /\ draw_index g = Z.of_nat (List.length (text_files g))
  /\ map fst (text_files g)
     = map (textfile_name tmp_dir) (rev (seq 1 (List.length (text_files g))))
  /\ Forall (fun f => can_write (fst f) = true) (text_files g).

(** The asset [p] of the field [k] was downloaded: the field is a text
    starting with "http", the download answered 2xx and the file
    [tmp_dir/k.ext] could be opened. *)
Definition downloaded (tmp_dir : str) (http_get : str -> exn response)
    (can_write : str -> bool) (fields : list (str * json)) (k p : str) : Prop :=
  exists url r ext,
    In (k, JStr url) fields /\ startswith url (lit "http") = true
    /\ http_get url = Ok r /\ 200 <= status_code r < 300
    /\ asset_ext url r = Ok ext
    /\ p = path_join tmp_dir (k ++ lit "." ++ ext) /\ can_write p = true.

(** The columns a render never writes. *)
Definition same_identity (j s : user_template) : Prop :=
  ut_id s = ut_id j /\ user_id s = user_id j /\ template_id s = template_id j
  /\ project_id s = project_id j /\ title s = title j
  /\ customizations s = customizations j.

(** The two ways a render ends. *)
Definition ended_failed (j s : user_template) : Prop :=
  status s = failed /\ error_message s <> None
  /\ output_url s = output_url j /\ thumbnail_url s = thumbnail_url j
  /\ rendered_at s = rendered_at j.

Definition ended_completed (utcnow : Z) (j s : user_template) : Prop :=
  status s = completed /\ render_progress s = 100
  /\ output_url s <> None /\ thumbnail_url s <> None
  /\ rendered_at s = Some utcnow /\ error_message s = error_message j.

End Template.

(* ===================================================================== *)
(** * api/v1/endpoints/templates.py                                        *)
(* ===================================================================== *)

Module Endpoints.
Import Py Template.

Inductive http_error : Type :=
| Not_found           (* 404 *)
| Payment_required    (* 402 *)
| Forbidden.          (* 403 *)

(** [UserTemplateCreateRequest] *)
Record create_request : Type := {
  rq_project_id : option str;
  rq_title : str;
  rq_customizations : json
}.

(** [RenderTemplateRequest] *)
Record render_request : Type := {
  rq_user_template_id : str;
  rq_output_format : str;
  rq_quality : str;
  rq_watermark : bool
}.

(** [RenderStatusResponse] as [render_template] fills it. *)
Record render_status : Type := {
  rs_user_template_id : str;
  rs_status : job_status;
  rs_progress : Z;
  rs_estimated_time_remaining : Z
}.

(** The call handed to [background_tasks.add_task]. *)
Record task : Type := {
  tk_user_template_id : str;
  tk_output_format : str;
  tk_quality : str;
  tk_watermark : bool
}.

Definition find_user (db : database) (id : str) : option user :=
  List.find (fun u => str_eqb (u_id u) id) (users db).

(** [use_template]: the new row, whose id [new_id] the column default
    [uuid.uuid4] draws; the other columns take their defaults. *)
Definition use_template (db : database) (new_id : str) (template_id : str)
    (request : create_request) (current_user : user)
  : (http_error + user_template) * database :=
  match find_template db template_id with
  | None => (inl Not_found, db)
  | Some t =>
      if is_premium t && str_eqb (subscription_tier current_user) (lit "free")
      then (inl Forbidden, db)
      else
        let row :=
          {| ut_id := new_id; user_id := u_id current_user;
             template_id := template_id; project_id := rq_project_id request;
             title := rq_title request;
             customizations := rq_customizations request;
             output_url := None; thumbnail_url := None; status := draft;
             render_progress := 0; error_message := None;
             rendered_at := None |} in
        (inr row,
         {| templates :=
              map (fun t' =>
                     if str_eqb (t_id t') template_id
                     then {| t_id := t_id t'; is_premium := is_premium t';
                             usage_count := usage_count t' + 1;
                             t_duration_seconds := t_duration_seconds t';
                             t_fps := t_fps t'; t_width := t_width t';
                             t_height := t_height t';
                             template_data := template_data t' |}
                     else t')
                  (templates db);
            user_templates := user_templates db ++ [row];
            users := users db |})
  end.

(** The [where] clause of [render_template]: the row asked for, owned by
    the caller. *)
Definition owned_job (request : render_request) (current_user : user)
    (j : user_template) : bool :=
  str_eqb (ut_id j) (rq_user_template_id request)
  && str_eqb (user_id j) (u_id current_user).

(** [render_template]: the answer, the tables after the last commit and
    the background task it schedules. *)
Definition render_template (db : database) (request : render_request)
    (current_user : user)
  : (http_error + render_status * task) * database :=
  match List.find (owned_job request current_user) (user_templates db) with
  | None => (inl Not_found, db)
  | Some user_template =>
      if credits_remaining current_user <=? 0 then (inl Payment_required, db)
      else
        let started := with_status user_template rendering in
        let db1 := store_job db started in
        (inr ({| rs_user_template_id := ut_id started; rs_status := rendering;
                 rs_progress := 0; rs_estimated_time_remaining := 60 |},
              {| tk_user_template_id := ut_id started;
                 tk_output_format := rq_output_format request;
                 tk_quality := rq_quality request;
                 tk_watermark := rq_watermark request |}),
         {| templates := templates db1;
            user_templates := user_templates db1;
            users :=
              map (fun u =>
                     if str_eqb (u_id u) (u_id current_user)
                     then {| u_id := u_id u;
                             subscription_tier := subscription_tier u;
                             credits_remaining := credits_remaining current_user - 1 |}
                     else u)
                  (users db1) |})
  end.

(** The fields of [RenderStatusResponse] that [get_render_status] sets. *)
Record status_report : Type := {
  sr_user_template_id : str;
  sr_status : job_status;
  sr_progress : Z;
  sr_output_url : option str;
  sr_thumbnail_url : option str;
  sr_error_message : option str
}.

(** [RenderStatusResponse(...)]: the model declares
    [progress: int = Field(ge=0, le=100)] and raises for another value. *)
Definition RenderStatusResponse (user_template_id : str) (status : job_status)
    (progress : Z) (output_url thumbnail_url error_message : option str)
  : exn status_report :=
  if (0 <=? progress) && (progress <=? 100)
  then Ok {| sr_user_template_id := user_template_id;
             sr_status := status;
             sr_progress := progress;
             sr_output_url := output_url;
             sr_thumbnail_url := thumbnail_url;
             sr_error_message := error_message |}
  else Raise ValidationError.

(** [get_render_status] *)
Definition get_render_status (db : database) (user_template_id : str)
    (current_user : user) : exn (http_error + status_report) :=
  match List.find (fun j => str_eqb (ut_id j) user_template_id
                            && str_eqb (user_id j) (u_id current_user))
                  (user_templates db) with
  | None => Ok (inl Not_found)
  | Some user_template =>
      report <- RenderStatusResponse (ut_id user_template) (status user_template)
                  (render_progress user_template) (output_url user_template)
                  (thumbnail_url user_template) (error_message user_template) ;;
      Ok (inr report)
  end.

(** [n] start requests in a row by the user [uid], whose row
    [get_current_user] loads again for each request. *)
Fixpoint start_repeatedly (n : nat) (db : database) (request : render_request)
    (uid : str) : list (http_error + render_status * task) * database :=
  match n with
  | O => ([], db)
  | S n' =>
      match find_user db uid with
      | None => ([], db)
      | Some current_user =>
          let '(answer, db1) := render_template db request current_user in
          let '(answers, db2) := start_repeatedly n' db1 request uid in
          (answer :: answers, db2)
      end
  end.

(** The error of an answer, if it is one. *)
Definition refused_with (answer : http_error + render_status * task)
  : option http_error :=
  match answer with
  | inl e => Some e
  | inr _ => None
  end.

End Endpoints.

(* ===================================================================== *)
(** * api/v1/endpoints/templates.py: the listing endpoints                 *)
(* ===================================================================== *)

Module Catalog.
Import Py Template.

(** A row of [templates] with the columns the listing endpoints read
    besides those of [template]; enum columns hold their text value and a
    time is a number of seconds. *)
Record listing : Type := {
  entry : template;
  is_active : bool;
  is_featured : bool;
  category : str;
  template_type : str;
  aspect_ratio : str;
  festival_name : option str;
  festival_date : option Z
}.

(** [a == b] on [Optional[str]] dict keys. *)
Definition name_eqb (a b : option str) : bool :=
  match a, b with
  | None, None => true
  | Some s, Some t => str_eqb s t
  | _, _ => false
  end.

(** One value of the [festivals] dict. *)
Record festival : Type := {
  f_name : option str;
  f_date : option Z;
  f_templates : list listing
}.

(** The body of the grouping loop of [get_festival_templates]. *)
Definition add_to_festival (festivals : list (option str * festival)) (t : listing)
  : list (option str * festival) :=
  let festivals :=
    match assoc name_eqb festivals (festival_name t) with
    | None => assign name_eqb festivals (festival_name t)
                {| f_name := festival_name t; f_date := festival_date t;
                   f_templates := [] |}
    | Some _ => festivals
    end in
  match assoc name_eqb festivals (festival_name t) with
  | Some f => assign name_eqb festivals (festival_name t)
                {| f_name := f_name f; f_date := f_date f;
                   f_templates := f_templates f ++ [t] |}
  | None => festivals
  end.

(** [list(festivals.values())] after the loop. *)
Definition group_by_festival (templates : list listing) : list festival :=
  map snd (fold_left add_to_festival templates []).

Section Queries.

(** What the database decides: the order among rows the [ORDER BY]
    columns do not separate, and the [ILIKE] and array matches. *)
Variable order_by_featured_usage : list listing -> list listing.
Variable order_by_usage : list listing -> list listing.
Variable order_by_festival_date : list listing -> list listing.
Variable festival_name_ilike : str -> listing -> bool.
Variable search_matches : str -> listing -> bool.

(** The query parameters of [list_templates]. *)
Record list_query : Type := {
  q_page : Z;
  q_page_size : Z;
  q_category : option str;
  q_template_type : option str;
  q_aspect_ratio : option str;
  q_is_premium : option bool;
  q_is_featured : option bool;
  q_festival_name : option str;
  q_search : option str
}.

(** [TemplateListResponse] *)
Record template_list : Type := {
  items : list listing;
  total : Z;
  page : Z;
  page_size : Z;
  has_more : bool
}.

(** The [where] clauses of [list_templates]. *)
Definition selected (q : list_query) (t : listing) : bool :=
  is_active t
  && match q_category q with Some c => str_eqb (category t) c | None => true end
  && match q_template_type q with Some c => str_eqb (template_type t) c | None => true end
  && match q_aspect_ratio q with Some c => str_eqb (aspect_ratio t) c | None => true end
  && match q_is_premium q with Some b => Bool.eqb (is_premium (entry t)) b | None => true end
  && match q_is_featured q with Some b => Bool.eqb (is_featured t) b | None => true end
  && match q_festival_name q with
     | Some (c :: s) => festival_name_ilike (c :: s) t
     | _ => true
     end
  && match q_search q with
     | Some (c :: s) => search_matches (c :: s) t
     | _ => true
     end.

(** [query.offset(offset).limit(limit)] *)
Definition offset_limit {A} (offset limit : Z) (rows : list A) : list A :=
  firstn (Z.to_nat limit) (skipn (Z.to_nat offset) rows).

(** [list_templates] *)
Definition list_templates (table : list listing) (q : list_query) : template_list :=
  let matching := filter (selected q) table in
  let total := Z.of_nat (List.length matching) in
  {| items := offset_limit ((q_page q - 1) * q_page_size q) (q_page_size q)
                (order_by_featured_usage matching);
     total := total;
     page := q_page q;
     page_size := q_page_size q;
     has_more := q_page q * q_page_size q <? total |}.

(** [get_featured_templates] *)
Definition get_featured_templates (table : list listing) (limit : Z) : template_list :=
  let templates :=
    firstn (Z.to_nat limit)
      (order_by_usage (filter (fun t => is_active t && is_featured t) table)) in
  {| items := templates;
     total := Z.of_nat (List.length templates);
     page := 1;
     page_size := limit;
     has_more := false |}.

(** [get_festival_templates]: the festivals of the next 60 days. *)
Definition get_festival_templates (table : list listing) (now : Z) : list festival :=
  let upcoming := now + 60 * 86400 in
  group_by_festival
    (order_by_festival_date
       (filter (fun t => is_active t && str_eqb (category t) (lit "festival")
                         && match festival_date t with
                            | Some d => (now <=? d) && (d <=? upcoming)
                            | None => false
                            end)
               table)).

End Queries.

(** *** Vocabulary of the listing properties *)

(** The templates of the festival [k]. *)
Definition named (k : option str) (t : listing) : bool := name_eqb (festival_name t) k.

(** The group of [k]: its templates in the order of the query, dated by
    the first of them. *)
Definition festival_of (templates : list listing) (k : option str) : festival :=
  {| f_name := k;
     f_date := match filter (named k) templates with
               | t :: _ => festival_date t
               | [] => None
               end;
     f_templates := filter (named k) templates |}.

(** What the grouping loop keeps true of the [festivals] dict once it has
    seen [templates]. *)
Definition festivals_inv (templates : list listing)
    (festivals : list (option str * festival)) : Prop :=
  NoDup (map fst festivals)
  /\ forall k, assoc name_eqb festivals k
               = match filter (named k) templates with
                 | [] => None
                 | _ => Some (festival_of templates k)
                 end.

(** The same query for the page [p]. *)
Definition on_page (q : list_query) (p : Z) : list_query :=
  {| q_page := p; q_page_size := q_page_size q; q_category := q_category q;
     q_template_type := q_template_type q; q_aspect_ratio := q_aspect_ratio q;
     q_is_premium := q_is_premium q; q_is_featured := q_is_featured q;
     q_festival_name := q_festival_name q; q_search := q_search q |}.

End Catalog.

(* ===================================================================== *)
(** * api/v1/endpoints/captions.py and the creation of caption jobs        *)
(* ===================================================================== *)

Module CaptionJobs.
Import Py.

(** [TranscriptionStatus] *)
Inductive transcription_status : Type := PENDING | PROCESSING | COMPLETED | FAILED.

(** The columns of [Caption] that creating a job sets; the others take
    their defaults. *)
Record caption : Type := {
  c_id : str;
  c_user_id : str;
  c_project_id : option str;
  c_title : str;
  c_source_file_url : str;
  c_source_file_name : str;
  c_caption_style : str;
  c_status : transcription_status;
  c_style_settings : json
}.

(** The columns of [User] the caption endpoints read and write. *)
Record account : Type := {
  a_id : str;
  a_credits_remaining : Z;
  a_total_captions_generated : Z
}.

(** [CaptionGenerateRequest] *)
Record generate_request : Type := {
  g_title : str;
  g_source_file_url : str;
  g_language_hint : option str;
  g_caption_style : str;
  g_translate_to_english : bool;
  g_word_timestamps : bool;
  g_project_id : option str
}.

(** An [UploadFile]. *)
Record upload : Type := {
  filename : str;
  file_content_type : option str;
  file_bytes : list N
}.

(** The call of [process_transcription] handed to [add_task]. *)
Record transcription_task : Type := {
  tt_caption_id : str;
  tt_word_timestamps : bool;
  tt_translate : bool;
  tt_language_hint : option str
}.

(** The [HTTPException]s of the two endpoints. *)
Inductive refusal : Type :=
| Insufficient_credits     (* 402 *)
| Unsupported_file_type    (* 400 *)
| File_too_large.          (* 400 *)

(** [url.split("/")[-1].split("?")[0]] *)
Definition source_file_name (url : str) : str :=
  hd [] (split_char (ch "?") (last (split_char (ch "/") url) [])).

(** ["." + filename.split(".")[-1].lower()] *)
Definition upload_extension (name : str) : str :=
  lit "." ++ Template.lower_text (last (split_char (ch ".") name) []).

Section World.

(** - [http_head]: [httpx.AsyncClient.head], giving the [content-length]
      header of the answer;
    - [upload_file_content]: [StorageService.upload_file_content], which
      [StorageService.upload_file] calls with the bytes, the name and the
      content type of the file. *)
Variable http_head : str -> exn (option str).
Variable upload_file_content : list N -> str -> str -> option str -> exn str.

(** [CaptionService.create_caption_job]; [new_id] is the id the column
    default draws. *)
Definition create_caption_job (new_id user_id : str) (request : generate_request)
  : exn caption :=
  header <- http_head (g_source_file_url request) ;;
  _ <- match header with
       | Some text => int_base10 text
       | None => Ok 0
       end ;;
  Ok {| c_id := new_id; c_user_id := user_id;
        c_project_id := g_project_id request; c_title := g_title request;
        c_source_file_url := g_source_file_url request;
        c_source_file_name := source_file_name (g_source_file_url request);
        c_caption_style := g_caption_style request;
        c_status := PENDING; c_style_settings := JDict [] |}.

(** [CaptionService.upload_and_create_job] *)
Definition upload_and_create_job (new_id user_id : str) (file : upload)
    (title language_hint : str) (style_preset_id : option str) : exn caption :=
  file_url <- upload_file_content (file_bytes file) (filename file)
                (lit "captions/" ++ user_id) (file_content_type file) ;;
  Ok {| c_id := new_id; c_user_id := user_id; c_project_id := None;
        c_title := title; c_source_file_url := file_url;
        c_source_file_name := filename file;
        c_caption_style := lit "default";
        c_status := PENDING;
        c_style_settings :=
          match style_preset_id with
          | Some (c :: s) => JDict [(lit "preset_id", JStr (c :: s))]
          | _ => JDict []
          end |}.

(** What a request changes: the caller's row after the commit. *)
Definition charged (current_user : account) : account :=
  {| a_id := a_id current_user;
     a_credits_remaining := a_credits_remaining current_user - 2;
     a_total_captions_generated := a_total_captions_generated current_user + 1 |}.

(** [generate_captions]: the answer, the task it schedules and the
    caller's row; an exception of the service leaves the row as it was. *)
Definition generate_captions (new_id : str) (request : generate_request)
    (current_user : account)
  : exn ((refusal + caption * transcription_task) * account) :=
  if a_credits_remaining current_user <=? 0
  then Ok (inl Insufficient_credits, current_user)
  else
    caption <- create_caption_job new_id (a_id current_user) request ;;
    Ok (inr (caption,
             {| tt_caption_id := c_id caption;
                tt_word_timestamps := g_word_timestamps request;
                tt_translate := g_translate_to_english request;
                tt_language_hint := g_language_hint request |}),
        charged current_user).

(** [upload_and_generate_captions] *)
Definition upload_and_generate_captions (new_id : str) (current_user : account)
    (file : upload) (title language_hint : str) (word_timestamps : bool)
    (style_preset_id : option str)
  : exn ((refusal + caption * transcription_task) * account) :=
  let ext := upload_extension (filename file) in
  if negb (str_eqb ext (lit ".mp4") || str_eqb ext (lit ".mov"))
  then Ok (inl Unsupported_file_type, current_user)
  else if 100 * 1024 * 1024 <? len (file_bytes file)
  then Ok (inl File_too_large, current_user)
  else
    caption <- upload_and_create_job new_id (a_id current_user) file title
                 language_hint style_preset_id ;;
    Ok (inr (caption,
             {| tt_caption_id := c_id caption;
                tt_word_timestamps := word_timestamps;
                tt_translate := false;
                tt_language_hint := Some language_hint |}),
        charged current_user).

End World.
End CaptionJobs.

(* ===================================================================== *)
(** * caption_service.py: the segments of a transcription                  *)
(* ===================================================================== *)

Module Transcription.
Import Py.

(** [for w in v]: the items of a list, the keys of a dict, the characters
    of a text; nothing else can be iterated. *)
Definition iterate (v : json) : exn (list json) :=
  match v with
  | JList l => Ok l
  | JDict d => Ok (map (fun kv => JStr (fst kv)) d)
  | JStr s => Ok (map (fun c => JStr [c]) s)
  | _ => Raise TypeError
  end.

Section World.

(** [nfc]: [unicodedata.normalize("NFC", text)]. *)
Variable nfc : str -> str.

(** [unicodedata.normalize("NFC", v)]: only a text can be normalized. *)
Definition normalize (v : json) : exn json :=
  match v with
  | JStr s => Ok (JStr (nfc s))
  | _ => Raise TypeError
  end.

(** One entry of [segment["words"]]. *)
Definition word_entry (w : json) : exn json :=
  word <- get_default w (lit "word") (JStr []) ;;
  word <- normalize word ;;
  start <- get_default w (lit "start") (JInt 0) ;;
  end_ <- get_default w (lit "end") (JInt 0) ;;
  Ok (JDict [(lit "word", word); (lit "start", start); (lit "end", end_)]).

(** The body of the loop of [process_transcription] over
    [transcription.segments], for the segment at index [i]. *)
Definition stored_segment (word_timestamps : bool) (i : Z) (seg : json) : exn json :=
  start <- get_default seg (lit "start") (JInt 0) ;;
  end_ <- get_default seg (lit "end") (JInt 0) ;;
  text <- get_default seg (lit "text") (JStr []) ;;
  text <- normalize text ;;
  confidence <- get seg (lit "confidence") ;;
  let segment := [(lit "segment_index", JInt i); (lit "start_time", start);
                  (lit "end_time", end_); (lit "text", text);
                  (lit "confidence", confidence)] in
  match (if word_timestamps then
           match seg with JDict d => lookup d (lit "words") | _ => None end
         else None) with
  | Some ws =>
      ws <- iterate ws ;;
      words <- mapM word_entry ws ;;
      Ok (JDict (segment ++ [(lit "words", JList words)]))
  | None => Ok (JDict segment)
  end.

(** The loop: [enumerate] counts from [i]. *)
Fixpoint stored_segments (word_timestamps : bool) (i : Z) (segs : list json)
  : exn (list json) :=
  match segs with
  | [] => Ok []
  | seg :: segs' =>
      segment <- stored_segment word_timestamps i seg ;;
      rest <- stored_segments word_timestamps (i + 1) segs' ;;
      Ok (segment :: rest)
  end.

(** [segments[-1]["end_time"]], the value [source_duration_seconds] takes
    when [segments] is not empty. *)
Definition last_end_time (segments : list json) : exn json :=
  segment <- index (rev segments) 0 ;;
  match segment with
  | JDict d => match lookup d (lit "end_time") with
               | Some v => Ok v
               | None => Raise KeyError
               end
  | _ => Raise TypeError
  end.

End World.
End Transcription.

(* ===================================================================== *)
(** * caption_service.py: the header of an ASS file                        *)
(* ===================================================================== *)

Module Ass.
Import Py Caption.

(** [config/caption_styles.py]: every value of a preset is a text. *)
Definition preset : Type := list (str * str).

Definition make_preset (fields : list (string * string)) : preset :=
  map (fun p => (lit (fst p), lit (snd p))) fields.

Definition CAPTION_STYLES : list (str * preset) :=
  [(lit "bollywood_drama",
    make_preset
      [("id", "bollywood_drama"); ("name", "Bollywood Drama");
       ("description", "Bold, cinematic style with gold gradients");
       ("font_family", "Montserrat, sans-serif"); ("font_weight", "900");
       ("text_transform", "uppercase"); ("color", "#FFD700");
       ("text_shadow", "2px 2px 0px #8B0000");
       ("background_color", "transparent"); ("highlight_color", "#FF0000");
       ("animation", "pop_in"); ("position", "bottom")]);
   (lit "minimal_chic",
    make_preset
      [("id", "minimal_chic"); ("name", "Minimal Chic");
       ("description", "Clean white text with subtle black shadow");
       ("font_family", "Inter, sans-serif"); ("font_weight", "600");
       ("text_transform", "none"); ("color", "#FFFFFF");
       ("text_shadow", "0px 1px 2px rgba(0,0,0,0.5)");
       ("background_color", "transparent"); ("highlight_color", "#FFD700");
       ("animation", "fade"); ("position", "bottom")]);
   (lit "desi_vlog",
    make_preset
      [("id", "desi_vlog"); ("name", "Desi Vlog");
       ("description", "Yellow text with black background strip");
       ("font_family", "Oswald, sans-serif"); ("font_weight", "700");
       ("text_transform", "uppercase"); ("color", "#FFFF00");
       ("text_shadow", "none");
       ("background_color", "#000000"); ("highlight_color", "#FFFFFF");
       ("animation", "slide_up"); ("position", "bottom_third")]);
   (lit "neon_nights",
    make_preset
      [("id", "neon_nights"); ("name", "Neon Nights");
       ("description", "Cyberpunk/Club aesthetic with neon glow");
       ("font_family", "Rajdhani, sans-serif"); ("font_weight", "700");
       ("text_transform", "uppercase"); ("color", "#00FF00");
       ("text_shadow", "0 0 5px #00FF00, 0 0 10px #00FF00");
       ("background_color", "rgba(0,0,0,0.3)"); ("highlight_color", "#FF00FF");
       ("animation", "flicker"); ("position", "center")]);
   (lit "classic_hindi",
    make_preset
      [("id", "classic_hindi"); ("name", "Classic Hindi");
       ("description", "Traditional Devanagari friendly layout");
       ("font_family", "Baloo 2, cursive"); ("font_weight", "600");
       ("text_transform", "none"); ("color", "#FFFFFF");
       ("text_shadow", "1px 1px 2px #000000");
       ("background_color", "rgba(0,0,0,0.6)"); ("highlight_color", "#FF9933");
       ("animation", "typewriter"); ("position", "bottom")])]%string.

(** [d.get(k)] and [d.get(k, default)] on a dict of texts. *)
Definition field (d : preset) (k : string) : option str :=
  Template.assoc str_eqb d (lit k).

Definition field_or (d : preset) (k : string) (default : string) : str :=
  match field d k with Some v => v | None => lit default end.

(** [CaptionStyleSettings], as far as [_generate_ass] reads it. *)
Record style_settings : Type := {
  font_family : str;
  font_size : Z;
  font_color : str;
  background_color : option str;
  position : str
}.

(** [CaptionStyleSettings()] *)
Definition default_style_settings : style_settings :=
  {| font_family := lit "Noto Sans Devanagari"; font_size := 24;
     font_color := lit "#FFFFFF";
     background_color := Some (lit "rgba(0,0,0,0.7)");
     position := lit "bottom" |}.

(** [_alignment_from_position] *)
Definition _alignment_from_position (position : str) : Z :=
  let pos := Template.lower_text
               (match position with [] => lit "bottom" | _ => position end) in
  if str_eqb pos (lit "top") then 8
  else if str_eqb pos (lit "center") then 5
  else 2.

Definition format_line : str :=
  lit "Format: Name, Fontname, Fontsize, PrimaryColour, SecondaryColour, "
  ++ lit "OutlineColour, BackColour, Bold, Italic, Underline, StrikeOut, "
  ++ lit "ScaleX, ScaleY, Spacing, Angle, BorderStyle, Outline, Shadow, "
  ++ lit "Alignment, MarginL, MarginR, MarginV, Encoding".

(** The header, around the line that starts with [Style:]. *)
Definition header (title style_line : str) : str :=
  join nl
    [lit "[Script Info]";
     lit "Title: " ++ title;
     lit "ScriptType: v4.00+";
     lit "WrapStyle: 0";
     lit "ScaledBorderAndShadow: yes";
     lit "YCbCr Matrix: TV.601";
     lit "PlayResX: " ++ str_of_int 1080;
     lit "PlayResY: " ++ str_of_int 1920;
     [];
     lit "[V4+ Styles]";
     format_line;
     style_line;
     [];
     lit "[Events]";
     lit "Format: Layer, Start, End, Style, Name, MarginL, MarginR, MarginV, Effect, Text";
     []].

(** [CAPTION_STYLES.get(preset_id) or CAPTION_STYLES["minimal_chic"]] *)
Definition preset_of (preset_id : str) : exn preset :=
  match Template.assoc str_eqb CAPTION_STYLES preset_id with
  | Some (f :: p) => Ok (f :: p)
  | _ => match Template.assoc str_eqb CAPTION_STYLES (lit "minimal_chic") with
         | Some p => Ok p
         | None => Raise KeyError
         end
  end.

(** The [Style:] line of [_generate_ass_from_preset]. *)
Definition preset_style_line (p : preset) : exn str :=
  let alignment := _alignment_from_position (field_or p "position" "bottom") in
  let margin_v :=
    match field p "position" with
    | Some pos => if str_eqb pos (lit "bottom_third") then 260 else 110
    | None => 110
    end in
  primary <- _hex_to_ass_color (field_or p "color" "#FFFFFF") 0 ;;
  secondary <- _hex_to_ass_color (field_or p "highlight_color" "#FFD700") 0 ;;
  outline <- _hex_to_ass_color (lit "#000000") 0 ;;
  back <- _rgba_to_ass_back_color (field p "background_color") ;;
  font_name <- index (split_char (ch ",") (field_or p "font_family" "Inter")) 0 ;;
  let font_name := strip font_name in
  let font_size :=
    match field p "name" with
    | Some n => if str_eqb n (lit "Bollywood Drama") || str_eqb n (lit "Desi Vlog")
                then 68 else 58
    | None => 58
    end in
  let weight := field_or p "font_weight" "600" in
  let bold := if str_eqb weight (lit "700") || str_eqb weight (lit "800")
                 || str_eqb weight (lit "900") then -1 else 0 in
  Ok (lit "Style: Default," ++ font_name ++ lit "," ++ str_of_int font_size
      ++ lit "," ++ primary ++ lit "," ++ secondary ++ lit "," ++ outline
      ++ lit "," ++ back ++ lit "," ++ str_of_int bold
      ++ lit ",0,0,0,100,100,0,0,1,4,1,2," ++ str_of_int alignment
      ++ lit ",40,40," ++ str_of_int margin_v ++ lit ",1").

(** [_generate_ass_from_preset] *)
Definition _generate_ass_from_preset (title : str) (segments : list segment)
    (preset_id : str) (karaoke : bool) : exn str :=
  p <- preset_of preset_id ;;
  style_line <- preset_style_line p ;;
  events <- preset_events karaoke segments ;;
  Ok (header title style_line ++ events).

(** The [Style:] line of [_generate_ass]. *)
Definition plain_style_line (style : style_settings) : exn str :=
  let alignment := _alignment_from_position (position style) in
  primary <- _hex_to_ass_color (font_color style) 0 ;;
  secondary <- _hex_to_ass_color (lit "#FFD700") 0 ;;
  outline <- _hex_to_ass_color (lit "#000000") 0 ;;
  back <- _rgba_to_ass_back_color (background_color style) ;;
  Ok (lit "Style: Default," ++ font_family style ++ lit "," ++ str_of_int (font_size style)
      ++ lit "," ++ primary ++ lit "," ++ secondary ++ lit "," ++ outline
      ++ lit "," ++ back
      ++ lit ",-1,0,0,0,100,100,0,0,1,3,1,2," ++ str_of_int alignment
      ++ lit ",30,30,80,1").

(** [preset_id and preset_id in CAPTION_STYLES], for the value of
    ["preset_id"] in [caption.style_settings]. *)
Definition known_preset (preset_id : json) : exn (option str) :=
  if truthy preset_id then
    match preset_id with
    | JStr s => Ok (match Template.assoc str_eqb CAPTION_STYLES s with
                    | Some _ => Some s
                    | None => None
                    end)
    | JList _ | JDict _ => Raise TypeError
    | _ => Ok None
    end
  else Ok None.

(** [_generate_ass]; [caption_style_settings] is [caption.style_settings]. *)
Definition _generate_ass (title : str) (segments : list segment)
    (caption_style_settings : json) (settings : option style_settings) : exn str :=
  preset_id <-
    match settings, caption_style_settings with
    | None, JDict d => p <- get caption_style_settings (lit "preset_id") ;; known_preset p
    | _, _ => Ok None
    end ;;
  match preset_id with
  | Some id =>
      _generate_ass_from_preset title segments id
        (existsb (fun s => match words s with Some (_ :: _) => true | _ => false end)
                 segments)
  | None =>
      let style := match settings with Some s => s | None => default_style_settings end in
      style_line <- plain_style_line style ;;
      events <- plain_events segments ;;
      Ok (header title style_line ++ events)
  end.

(** The fields of a line of a [[V4+ Styles]] section: what follows the
    first colon, cut at the commas. *)
Definition fields_of (line : str) : list str :=
  split_char (ch ",") (match snd (break_at (N.eqb (ch ":")) line) with
                       | Some rest => rest
                       | None => []
                       end).

End Ass.

(* ===================================================================== *)
(** * Sample data                                                          *)
(* ===================================================================== *)

Module Demo.
Import Py Caption Template Endpoints.

(** Three words: "Ek" over [0, 0.4], "Do" over [0.4, 0.9], and a word of
    spaces only. *)
Definition ek : word := Word (Some (lit "Ek")) (Some (dec 0 0)) (Some (dec 4 1)).
Definition do_ : word := Word (Some (lit "Do")) (Some (dec 4 1)) (Some (dec 9 1)).
Definition blank : word := Word (Some (lit "  ")) (Some (dec 0 0)) (Some (dec 4 1)).

Definition obj (items : list (string * json)) : json :=
  JDict (map (fun p => (lit (fst p), snd p)) items).

Definition txt (s : string) : json := JStr (lit s).

Definition image_layer (id : string) (z : Z) (source : string) : json :=
  obj [("id", txt id); ("type", txt "image"); ("z", JInt z);
       ("source", txt source)]%string.

(** Declared in this order: z = 2 first, then z = 1 (twice). *)
Definition top_layer : json := image_layer "top" 2 "$placeholder.img_top".
Definition bottom_layer : json := image_layer "bottom" 1 "$placeholder.img_bottom".
Definition side_layer : json := image_layer "side" 1 "$placeholder.img_side".

Definition two_images : json :=
  obj [("layers", JList [top_layer; bottom_layer])]%string.

(** Both images given as URLs. *)
Definition both_urls : json :=
  obj [("img_top", txt "https://cdn.example/top.png");
       ("img_bottom", txt "https://cdn.example/bottom.png")]%string.

(** The second image given by a reference that is never downloaded. *)
Definition one_url : json :=
  obj [("img_top", txt "https://cdn.example/top.png");
       ("img_bottom", txt "ftp://files.example/bottom.png")]%string.

Definition scene_of (customizations : json) : scene :=
  {| definition := two_images; custom := customizations;
     duration_seconds := JInt 15; theme := JDict [] |}.

Definition demo_tmp : str := lit "/tmp/render".

Definition both_assets : list (str * str) :=
  [(lit "img_top", lit "/tmp/render/img_top.png");
   (lit "img_bottom", lit "/tmp/render/img_bottom.png")].

Definition top_asset : list (str * str) :=
  [(lit "img_top", lit "/tmp/render/img_top.png")].

(** A text declared first with z = 3, a video declared second with z = 2
    (the image [bottom_layer], z = 1, comes third), and their assets. *)
Definition title_layer : json :=
  obj [("id", txt "title"); ("type", txt "text"); ("z", JInt 3);
       ("text", txt "Namaste")]%string.

Definition clip_layer : json :=
  obj [("id", txt "clip"); ("type", txt "video"); ("z", JInt 2);
       ("source", txt "$placeholder.clip")]%string.

Definition clip_urls : json :=
  obj [("clip", txt "https://cdn.example/clip.mp4");
       ("img_bottom", txt "https://cdn.example/bottom.png")]%string.

Definition clip_assets : list (str * str) :=
  [(lit "clip", lit "/tmp/render/clip.mp4");
   (lit "img_bottom", lit "/tmp/render/img_bottom.png")].

(** A required placeholder without default, and no customization. *)
Definition required_scene : scene :=
  {| definition :=
       obj [("placeholders",
             obj [("title", obj [("type", txt "text"); ("label", txt "Title");
                                 ("required", JBool true)])])]%string;
     custom := JDict [];
     duration_seconds := JInt 15;
     theme := JDict [] |}.

(** A world where [bottom.png] answers 404 and everything else works. *)
Definition demo_http (url : str) : exn response :=
  if str_eqb url (lit "https://cdn.example/bottom.png")
  then Ok {| status_code := 404; content_type := None; content := [] |}
  else Ok {| status_code := 200; content_type := Some (lit "image/png");
             content := [] |}.

Definition demo_repr (v : json) : str := lit "[...]".
Definition demo_can_write (path : str) : bool := true.
Definition demo_run (cmd : list str) : exn (Z * str) := Ok (0, []).
Definition demo_read (path : str) : exn bytes := Ok [].
Definition demo_upload (data : bytes) (filename folder ctype : str) : exn str :=
  Ok (lit "https://storage.example/" ++ folder ++ lit "/" ++ filename).
Definition demo_text (e : exc) : str := lit "error".

Definition demo_template : template :=
  {| t_id := lit "T1"; is_premium := false; usage_count := 0;
     t_duration_seconds := 15; t_fps := 30; t_width := 1080; t_height := 1920;
     template_data := two_images |}.

Definition job_with (customizations : json) (s : job_status) (url : option str)
  : user_template :=
  {| ut_id := lit "J1"; user_id := lit "U1"; template_id := lit "T1";
     project_id := None; title := lit "reel"; customizations := customizations;
     output_url := url; thumbnail_url := url; status := s;
     render_progress := 0; error_message := None; rendered_at := None |}.

Definition demo_render (j : user_template) : list user_template :=
  render_job demo_repr (lit "/usr/bin/ffmpeg") demo_tmp demo_http demo_can_write
    demo_run demo_read demo_upload 0 demo_text (Some demo_template) j
    (lit "mp4") (lit "high") false.

Definition demo_user : user :=
  {| u_id := lit "U1"; subscription_tier := lit "free"; credits_remaining := 5 |}.

Definition db_with (j : user_template) : database :=
  {| templates := [demo_template]; user_templates := [j]; users := [demo_user] |}.

Definition start_J1 : render_request :=
  {| rq_user_template_id := lit "J1"; rq_output_format := lit "mp4";
     rq_quality := lit "high"; rq_watermark := false |}.

Definition finished_job : user_template :=
  job_with one_url completed (Some (lit "https://storage.example/renders/U1/reel.mp4")).

(** One job through its life: created, started, rendered in the
    background, and started once more. *)
Definition empty_db : database :=
  {| templates := [demo_template]; user_templates := []; users := [demo_user] |}.

Definition create_reel : create_request :=
  {| rq_project_id := None; rq_title := lit "reel"; rq_customizations := one_url |}.

Definition caller (db : database) : user :=
  match find_user db (lit "U1") with Some u => u | None => demo_user end.

Definition after_create : database :=
  snd (use_template empty_db (lit "J1") (lit "T1") create_reel (caller empty_db)).

Definition after_start : database :=
  snd (Endpoints.render_template after_create start_J1 (caller after_create)).

Definition after_render : database :=
  snd (Template.render_template demo_repr (lit "/usr/bin/ffmpeg") demo_tmp
         demo_http demo_can_write demo_run demo_read demo_upload 0 demo_text
         after_start (lit "J1") (lit "mp4") (lit "high") false).



End Demo.

(* ===================================================================== *)
(** * More sample data                                                     *)
(* ===================================================================== *)

Module Samples.
Import Py Caption Template Endpoints Demo.

(** Segments: one whose text has two lines, one with a translation, and
    one whose end time is not a number. *)
Definition two_line_segment : segment :=
  Segment (dec 15 1) (dec 325 2) (lit "Ek" ++ nl ++ lit "Do") None None.

Definition sample_segments : list segment :=
  [Segment (dec 15 1) (dec 325 2) (lit "Namaste") (Some (lit "Hello")) None;
   Segment (dec 325 2) (dec 5 0) (lit "Chalo") None None].

Definition timeless_segment : segment :=
  Segment (dec 15 1) S754_nan (lit "Namaste") None None.

(** A scene with an empty title, a name, and a default for the title. *)
Definition titled_scene : scene :=
  {| definition :=
       obj [("placeholders",
             obj [("title", obj [("default", txt "Untitled")])])]%string;
     custom := obj [("title", txt ""); ("name", txt "Asha")]%string;
     duration_seconds := JInt 15;
     theme := JDict [] |}.

Definition literal_transform : json :=
  obj [("x", JInt 40); ("y", JInt 120); ("fit", txt "contain");
       ("anchor", JList [JFloat fhalf; JNull])]%string.

(** What the two images of [Demo] compile to, with a text layer on top. *)
Definition two_inputs : list str :=
  [lit "-loop"; lit "1"; lit "-i"; lit "/tmp/render/img_top.png";
   lit "-loop"; lit "1"; lit "-i"; lit "/tmp/render/img_bottom.png"].

Definition two_indexes : list (json * Z) := [(txt "top", 1); (txt "bottom", 2)].

Definition caption_layer : json :=
  obj [("id", txt "cap"); ("type", txt "text"); ("z", JInt 3);
       ("text", txt "Namaste")]%string.

Definition captioned_layers : list json := [caption_layer; top_layer; bottom_layer].

Definition captioned_graph : graph :=
  match compile_layers demo_repr demo_tmp demo_can_write (scene_of both_urls)
          1080 1920 both_assets captioned_layers with
  | Ok (_, _, _, g) => g
  | Raise _ => base_graph
  end.

Definition png_response : response :=
  {| status_code := 200; content_type := Some (lit "image/png"); content := [] |}.

(** An encoder that always fails. *)
Definition failing_run (cmd : list str) : exn (Z * str) :=
  Ok (1, lit "Invalid data found when processing input").

Definition other_user : user :=
  {| u_id := lit "U2"; subscription_tier := lit "pro"; credits_remaining := 9 |}.

(** Five templates, three of them for two festivals. *)
Definition listed (id : string) (featured : bool) (uses : Z)
    (festival : option string) (date : option Z) : Catalog.listing :=
  {| Catalog.entry :=
       {| t_id := lit id; is_premium := false; usage_count := uses;
          t_duration_seconds := 15; t_fps := 30; t_width := 1080;
          t_height := 1920; template_data := JDict [] |};
     Catalog.is_active := true; Catalog.is_featured := featured;
     Catalog.category :=
       lit (match festival with Some _ => "festival" | None => "food" end);
     Catalog.template_type := lit "reel"; Catalog.aspect_ratio := lit "9:16";
     Catalog.festival_name := option_map lit festival;
     Catalog.festival_date := date |}.

Definition sample_table : list Catalog.listing :=
  [listed "T1" true 40 (Some "Diwali") (Some 100);
   listed "T2" false 7 (Some "Holi") (Some 200);
   listed "T3" true 12 (Some "Diwali") (Some 100);
   listed "T4" false 90 None None;
   listed "T5" true 3 (Some "Holi") (Some 200)]%string.

(** An order the database may choose: by decreasing usage, rows of equal
    usage as they were. *)
Definition by_usage (rows : list Catalog.listing) : list Catalog.listing :=
  map snd (sorted_by_key (map (fun t => (- usage_count (Catalog.entry t), t)) rows)).

Definition no_match (pattern : str) (t : Catalog.listing) : bool := false.

Definition second_page_of_two : Catalog.list_query :=
  {| Catalog.q_page := 2; Catalog.q_page_size := 2; Catalog.q_category := None;
     Catalog.q_template_type := None; Catalog.q_aspect_ratio := None;
     Catalog.q_is_premium := None; Catalog.q_is_featured := None;
     Catalog.q_festival_name := None; Catalog.q_search := None |}.

(** Caption requests: an upload, a caller in debt and one with a single
    credit, and a world where the downloads and the storage answer. *)
Definition clip : CaptionJobs.upload :=
  {| CaptionJobs.filename := lit "holi.MP4";
     CaptionJobs.file_content_type := Some (lit "video/mp4");
     CaptionJobs.file_bytes := [0; 0; 0; 24]%N |}.

Definition overdrawn : CaptionJobs.account :=
  {| CaptionJobs.a_id := lit "U1"; CaptionJobs.a_credits_remaining := -3;
     CaptionJobs.a_total_captions_generated := 4 |}.

Definition last_credit : CaptionJobs.account :=
  {| CaptionJobs.a_id := lit "U1"; CaptionJobs.a_credits_remaining := 1;
     CaptionJobs.a_total_captions_generated := 4 |}.

Definition reel_request : CaptionJobs.generate_request :=
  {| CaptionJobs.g_title := lit "Holi reel";
     CaptionJobs.g_source_file_url := lit "https://cdn.example/media/holi.mp4?token=a/b";
     CaptionJobs.g_language_hint := Some (lit "hi");
     CaptionJobs.g_caption_style := lit "default";
     CaptionJobs.g_translate_to_english := false;
     CaptionJobs.g_word_timestamps := true;
     CaptionJobs.g_project_id := None |}.

Definition head_ok (url : str) : exn (option str) := Ok (Some (lit "1048576")).

Definition store_ok (data : list N) (name folder : str) (ctype : option str) : exn str :=
  Ok (lit "https://storage.example/" ++ folder ++ lit "/" ++ name).

(** Two segments as the transcription gives them, the first with words. *)
Definition whisper_segments : list json :=
  [obj [("start", JFloat (dec 0 0)); ("end", JFloat (dec 15 1));
        ("text", txt " Namaste");
        ("words", JList [obj [("word", txt "Namaste");
                              ("start", JFloat (dec 0 0));
                              ("end", JFloat (dec 15 1))]])];
   obj [("start", JFloat (dec 15 1)); ("end", JFloat (dec 325 2));
        ("text", txt " dosto")]]%string.

Definition keep_text (s : str) : str := s.

(** Explicit style settings that ask for the top of the frame. *)
Definition airy_style : Ass.style_settings :=
  {| Ass.font_family := lit "Hind"; Ass.font_size := 30;
     Ass.font_color := lit "#FFEEDD"; Ass.background_color := None;
     Ass.position := lit "top" |}.

End Samples.

(* ===================================================================== *)
(** * Properties of the run-time model                                     *)
(* ===================================================================== *)

Module PyFacts.
Import Py.

Lemma str_eqb_eq s t : str_eqb s t = true <-> s = t.
Proof.
  unfold str_eqb. destruct (list_eq_dec N.eq_dec s t); split; congruence.
Qed.

Lemma str_eqb_refl s : str_eqb s s = true.
Proof. now apply str_eqb_eq. Qed.

Lemma bind_ok {A B} (c : exn A) (k : A -> exn B) (r : B) :
  bind c k = Ok r -> exists a, c = Ok a /\ k a = Ok r.
Proof. destruct c as [a|e]; simpl; intros H; [eauto | discriminate]. Qed.

Lemma mapM_app {A B} (f : A -> exn B) (l1 l2 : list A) :
  mapM f (l1 ++ l2)
  = (r1 <- mapM f l1 ;; r2 <- mapM f l2 ;; Ok (r1 ++ r2)).
Proof.
  induction l1 as [|a l1 IH]; simpl.
  - destruct (mapM f l2); reflexivity.
  - destruct (f a); simpl; [|reflexivity]. rewrite IH.
    destruct (mapM f l1); simpl; [|reflexivity].
    destruct (mapM f l2); reflexivity.
Qed.

Lemma join_empty_concat (parts : list str) : join [] parts = List.concat parts.
Proof.
  induction parts as [|p [|q parts] IH]; simpl in *.
  - reflexivity.
  - now rewrite app_nil_r.
  - now rewrite <- IH.
Qed.

Lemma startswith_app (p s : str) : startswith (p ++ s) p = true.
Proof.
  induction p as [|a p IH]; simpl; [now destruct s|].
  now rewrite N.eqb_refl.
Qed.

Lemma split_once_prefix (s p : str) :
  startswith s p = true ->
  split_once s p = [[]; skipn (List.length p) s].
Proof.
  intros H. unfold split_once, find.
  assert (E : find_from 0 s p
              = if startswith s p then 0
                else match s with [] => -1 | _ :: s' => find_from 1 s' p end)
    by (destruct s; reflexivity).
  rewrite E, H. reflexivity.
Qed.

(** [int(x)] truncates towards zero. *)
Lemma int_of_float_truncates s m e :
  e < 0 ->
  int_of_float (S754_finite s m e)
  = Ok (Z.quot (cond_Zopp s (Zpos m)) (2 ^ (- e))).
Proof.
  intros He. unfold int_of_float. f_equal.
  rewrite Z.shiftl_div_pow2 by lia.
  assert (Hk : 0 < 2 ^ (- e)) by (apply Z.pow_pos_nonneg; lia).
  destruct s; unfold cond_Zopp.
  - rewrite Z.quot_opp_l by lia. f_equal.
    symmetry. apply Z.quot_div_nonneg; lia.
  - symmetry. apply Z.quot_div_nonneg; lia.
Qed.

Lemma Ok_inj {A} (a b : A) : Ok a = Ok b -> a = b.
Proof. congruence. Qed.

Lemma mapM_raises {A B} (f : A -> exn B) a l :
  In a l -> (exists e, f a = Raise e) -> exists e, mapM f l = Raise e.
Proof.
  induction l as [|b l IH]; intros Hin [e He]; [contradiction|].
  simpl. destruct Hin as [->|Hin].
  - rewrite He. cbn [bind]. eauto.
  - destruct (f b); cbn [bind]; [|eauto].
    destruct (IH Hin (ex_intro _ e He)) as [e' He']. rewrite He'. cbn [bind]. eauto.
Qed.

(** *** Digits *)

Lemma digit_char_ge upper d : 0 <= d -> (48 <= digit_char upper d)%N.
Proof.
  intros Hd. unfold digit_char.
  destruct (d <? 10); destruct upper; lia.
Qed.

Lemma digits_fuel_ge fuel upper base : forall n acc,
  0 < base ->
  Forall (fun c => (48 <= c)%N) acc ->
  Forall (fun c => (48 <= c)%N) (digits_fuel fuel upper base n acc).
Proof.
  induction fuel as [|fuel IH]; intros n acc Hb Hacc; simpl; [exact Hacc|].
  assert (Hd : (48 <= digit_char upper (n mod base))%N)
    by (apply digit_char_ge; apply Z.mod_pos_bound; exact Hb).
  destruct (n / base =? 0).
  - now apply Forall_cons.
  - apply IH; [exact Hb | now apply Forall_cons].
Qed.

(** A formatted integer holds digits, letters and the sign only: no code
    point below that of "-". *)
Lemma format_int_ge upper base width n :
  0 < base -> Forall (fun c => (45 <= c)%N) (format_int upper base width n).
Proof.
  intros Hb. unfold format_int. apply Forall_app. split; [|apply Forall_app; split].
  - destruct (n <? 0); [apply Forall_cons; [vm_compute; discriminate|]|]; apply Forall_nil.
  - unfold zeros. apply Forall_forall. intros c Hc. apply repeat_spec in Hc. subst c.
    vm_compute. discriminate.
  - unfold digits.
    eapply Forall_impl; [|apply digits_fuel_ge; [exact Hb | apply Forall_nil]].
    intros c Hc. simpl in Hc. lia.
Qed.

Lemma format_int_width upper base width n :
  width <= len (format_int upper base width n).
Proof.
  unfold format_int, len, zeros. rewrite !length_app, repeat_length.
  unfold len. lia.
Qed.

Lemma format_int_no_lf upper base width n :
  0 < base -> ~ In 10%N (format_int upper base width n).
Proof.
  intros Hb H. pose proof (format_int_ge upper base width n Hb) as F.
  rewrite Forall_forall in F. apply F in H. now apply H.
Qed.

Lemma format_int_no_comma upper base width n :
  0 < base -> ~ In (ch ",") (format_int upper base width n).
Proof.
  intros Hb H. pose proof (format_int_ge upper base width n Hb) as F.
  rewrite Forall_forall in F. apply F in H. now apply H.
Qed.

(** *** Stripping, joining and splitting *)

Lemma lstrip_by_incl p (s : str) c : In c (lstrip_by p s) -> In c s.
Proof.
  induction s as [|a s IH]; simpl; [tauto|].
  destruct (p a); [right; auto | auto].
Qed.

Lemma strip_incl (s : str) c : In c (strip s) -> In c s.
Proof.
  unfold strip, rstrip_by. intros H. apply in_rev in H.
  apply lstrip_by_incl in H. apply in_rev in H. now apply lstrip_by_incl in H.
Qed.

Lemma join_then_sep (sep : str) (l : list str) :
  l <> [] -> join sep l ++ sep = List.concat (map (fun s => s ++ sep) l).
Proof.
  induction l as [|s l IH]; [congruence|]. intros _.
  destruct l as [|s' l].
  - simpl. now rewrite app_nil_r.
  - change (join sep (s :: s' :: l)) with (s ++ sep ++ join sep (s' :: l)).
    rewrite <- !app_assoc, IH by discriminate.
    cbn [map List.concat]. now rewrite <- !app_assoc.
Qed.

(** The text before the last piece is empty or ends with the separator;
    the text after the first piece is empty or starts with it. *)
Lemma join_cut_before_last (sep : str) (l : list str) :
  l <> [] ->
  exists p, join sep l = p ++ last l [] /\ (p = [] \/ exists b, p = b ++ sep).
Proof.
  induction l as [|a l IH]; [congruence|]. intros _.
  destruct l as [|b l].
  - exists []. split; [reflexivity | now left].
  - destruct IH as (p & E & Hp); [discriminate|].
    exists (a ++ sep ++ p).
    change (join sep (a :: b :: l)) with (a ++ sep ++ join sep (b :: l)).
    change (last (a :: b :: l) []) with (last (b :: l) []).
    rewrite E. split; [now rewrite <- !app_assoc|]. right.
    destruct Hp as [-> | [b0 ->]].
    + exists a. now rewrite app_nil_r.
    + exists (a ++ sep ++ b0). now rewrite <- !app_assoc.
Qed.

Lemma join_cut_after_head (sep : str) (l : list str) :
  exists q, join sep l = hd [] l ++ q /\ (q = [] \/ exists a, q = sep ++ a).
Proof.
  destruct l as [|a [|b l]].
  - exists []. split; [reflexivity | now left].
  - exists []. split; [simpl; now rewrite app_nil_r | now left].
  - exists (sep ++ join sep (b :: l)). split; [reflexivity | right; eauto].
Qed.

Lemma startswith_nil (s : str) : startswith s [] = true.
Proof. now destruct s. Qed.

Lemma find_from_absent (c : char) (s : str) : forall i,
  ~ In c s -> find_from i s [c] = -1.
Proof.
  induction s as [|b s IH]; intros i H; [reflexivity|].
  cbn [find_from startswith].
  destruct (N.eqb c b) eqn:E.
  - apply N.eqb_eq in E. subst b. exfalso. apply H. now left.
  - cbn [andb]. apply IH. intros Hin. apply H. now right.
Qed.

Lemma find_from_first (c : char) (s rest : str) : forall i,
  ~ In c s -> find_from i (s ++ c :: rest) [c] = i + len s.
Proof.
  induction s as [|b s IH]; intros i H.
  - cbn [app find_from startswith]. rewrite N.eqb_refl, startswith_nil. cbn. lia.
  - cbn [app find_from startswith].
    destruct (N.eqb c b) eqn:E.
    + apply N.eqb_eq in E. subst b. exfalso. apply H. now left.
    + cbn [andb]. rewrite IH by (intros Hin; apply H; now right).
      unfold len. cbn [List.length]. lia.
Qed.

(** No piece of [s.split(sep)] holds the separator. *)
Lemma split_char_pieces (sep : char) (s : str) :
  Forall (fun w => ~ In sep w) (split_char sep s).
Proof.
  induction s as [|c s IH]; simpl.
  - constructor; [tauto | constructor].
  - destruct (N.eqb c sep) eqn:E.
    + constructor; [tauto | exact IH].
    + destruct (split_char sep s) as [|w ws]; [constructor; [|constructor]|].
      * intros [H|[]]. subst c. now rewrite N.eqb_refl in E.
      * inversion IH as [|? ? Hw Hws]; subst. constructor; [|exact Hws].
        intros [H|H]; [subst c; now rewrite N.eqb_refl in E | exact (Hw H)].
Qed.

(** [sep.join(s.split(sep)) == s] *)
Lemma split_char_join (sep : char) (s : str) : join [sep] (split_char sep s) = s.
Proof.
  induction s as [|c s IH]; [reflexivity|]. simpl.
  destruct (N.eqb c sep) eqn:E.
  - apply N.eqb_eq in E. subst c.
    destruct (split_char sep s) as [|w ws] eqn:Es; [simpl in IH; now subst s|].
    change (join [sep] ([] :: w :: ws)) with ([] ++ [sep] ++ join [sep] (w :: ws)).
    now rewrite IH.
  - destruct (split_char sep s) as [|w ws] eqn:Es; [simpl in IH; now subst s|].
    destruct ws as [|w' ws].
    + simpl in *. now subst s.
    + change (join [sep] ((c :: w) :: w' :: ws))
        with ((c :: w) ++ [sep] ++ join [sep] (w' :: ws)).
      change (join [sep] (w :: w' :: ws))
        with (w ++ [sep] ++ join [sep] (w' :: ws)) in IH.
      now rewrite <- IH.
Qed.

Lemma split_char_not_nil (sep : char) (s : str) : split_char sep s <> [].
Proof.
  induction s as [|c s IH]; simpl; [discriminate|].
  destruct (N.eqb c sep); [discriminate|]. now destruct (split_char sep s).
Qed.

Lemma split_char_single (sep : char) (w : str) :
  ~ In sep w -> split_char sep w = [w].
Proof.
  induction w as [|c w IH]; intros H; [reflexivity|]. simpl.
  destruct (N.eqb c sep) eqn:E.
  - apply N.eqb_eq in E. subst c. exfalso. apply H. now left.
  - rewrite IH by (intros Hin; apply H; now right). reflexivity.
Qed.

Lemma split_char_app (sep : char) (w rest : str) :
  ~ In sep w -> split_char sep (w ++ sep :: rest) = w :: split_char sep rest.
Proof.
  induction w as [|c w IH]; intros H.
  - simpl. now rewrite N.eqb_refl.
  - simpl. destruct (N.eqb c sep) eqn:E.
    + apply N.eqb_eq in E. subst c. exfalso. apply H. now left.
    + rewrite IH by (intros Hin; apply H; now right). reflexivity.
Qed.

(** [sep.join(pieces).split(sep) == pieces] when no piece holds [sep]. *)
Lemma split_char_of_join (sep : char) (pieces : list str) :
  pieces <> [] -> Forall (fun w => ~ In sep w) pieces ->
  split_char sep (join [sep] pieces) = pieces.
Proof.
  induction pieces as [|w pieces IH]; [congruence|]. intros _ F.
  inversion F as [|? ? Hw Hr]; subst. destruct pieces as [|w' pieces].
  - simpl. now apply split_char_single.
  - change (join [sep] (w :: w' :: pieces)) with (w ++ sep :: join [sep] (w' :: pieces)).
    rewrite split_char_app by exact Hw. f_equal. apply IH; [discriminate | exact Hr].
Qed.

(** *** Lists *)

Lemma firstn_plus {A} (a b : nat) (l : list A) :
  firstn (a + b) l = firstn a l ++ firstn b (skipn a l).
Proof.
  revert l. induction a as [|a IH]; intros l; [reflexivity|].
  destruct l as [|x l]; [now rewrite !firstn_nil|]. cbn. now rewrite IH.
Qed.

Lemma firstn_in {A} (n : nat) (rows : list A) (x : A) : In x (firstn n rows) -> In x rows.
Proof.
  intros H. rewrite <- (firstn_skipn n rows). apply in_or_app. now left.
Qed.

(** *** Values *)

(** Induction on a value, with the hypothesis for every item of a list
    and every value of a dict. *)
Lemma json_nested_ind (P : json -> Prop) :
  P JNull -> (forall b, P (JBool b)) -> (forall z, P (JInt z)) ->
  (forall f, P (JFloat f)) -> (forall s, P (JStr s)) ->
  (forall l, Forall P l -> P (JList l)) ->
  (forall d, Forall (fun kv => P (snd kv)) d -> P (JDict d)) ->
  forall v, P v.
Proof.
  intros Hn Hb Hi Hf Hs Hl Hd. fix IH 1. intros [|b|z|f|s|l|d].
  - exact Hn.
  - apply Hb.
  - apply Hi.
  - apply Hf.
  - apply Hs.
  - apply Hl. induction l as [|x l IHl]; constructor; [apply IH | exact IHl].
  - apply Hd. induction d as [|[k x] d IHd]; constructor; [apply IH | exact IHd].
Qed.

End PyFacts.

Tactic Notation "bind_inv" hyp(H) "as" ident(a) ident(Ha) :=
  apply PyFacts.bind_ok in H; destruct H as (a & Ha & H).

(* ===================================================================== *)
(** * Properties of the subtitle formatter                                 *)
(* ===================================================================== *)

Module CaptionFacts.
Import Py PyFacts Caption Demo.

(** *** Karaoke tags *)

Lemma round_finite x : is_finite x = true -> round x = Ok (round_Z x).
Proof. unfold round_Z; destruct x; simpl; intros; congruence. Qed.

Lemma karaoke_part_kept idx w :
  kept w = true -> is_finite (span_cs w) = true ->
  karaoke_part idx w = Ok (Some (tag idx w)).
Proof.
  unfold kept, karaoke_part, tag, centiseconds. intros Hk Hf.
  destruct (word_text w) as [|c s] eqn:E; [discriminate|].
  fold (span_cs w). rewrite (round_finite _ Hf). reflexivity.
Qed.

Lemma karaoke_part_skipped idx w :
  kept w = false -> karaoke_part idx w = Ok None.
Proof.
  unfold kept, karaoke_part.
  destruct (word_text w); [reflexivity|discriminate].
Qed.

Lemma karaoke_loop_tags ws : forall idx parts,
  Forall well_timed ws ->
  karaoke_loop idx ws parts = Ok (parts ++ tags_from idx ws).
Proof.
  induction ws as [|w ws IH]; intros idx parts Hall; simpl.
  - unfold tags_from; simpl. now rewrite app_nil_r.
  - inversion Hall as [|? ? Hw Hws]; subst.
    unfold tags_from; simpl. destruct (kept w) eqn:Hk.
    + rewrite (karaoke_part_kept idx w Hk (Hw Hk)). simpl.
      rewrite IH by assumption. now rewrite <- app_assoc.
    + rewrite (karaoke_part_skipped idx w Hk). simpl.
      now rewrite IH.
Qed.

Lemma karaoke_text_tags ws :
  Forall well_timed ws ->
  _karaoke_text ws = Ok (List.concat (tags_from 0 ws)).
Proof.
  intros Hall. unfold _karaoke_text.
  rewrite (karaoke_loop_tags ws 0%nat [] Hall). simpl.
  now rewrite join_empty_concat.
Qed.

Lemma tags_after_first ws : forall i,
  tags_from (S i) ws = map spaced_tag (filter kept ws).
Proof.
  induction ws as [|w ws IH]; intros i; [reflexivity|].
  unfold tags_from in *; simpl. destruct (kept w); simpl.
  - rewrite IH. reflexivity.
  - apply IH.
Qed.

(** C3. In karaoke mode the dialogue text is the concatenation of one tag
    [{\k<cs>}word] per word whose trimmed text is not empty, the word
    preceded by a space unless it is the first of the list, with
    [cs = max(1, round((end - start) * 100))] computed from that word
    alone; "Ek" over [0, 0.4] and "Do" over [0.4, 0.9] give
    [{\k40}Ek{\k50} Do]. *)
Theorem karaoke_text_tag_per_word :
  (forall ws, Forall well_timed ws ->
     _karaoke_text ws = Ok (List.concat (tags_from 0 ws)))
  /\ (forall seg w ws,
        words seg = Some (w :: ws) -> Forall well_timed (w :: ws) ->
        preset_dialogue_text true seg = Ok (List.concat (tags_from 0 (w :: ws))))
  /\ _karaoke_text [ek; do_] = Ok (lit "{\k40}Ek{\k50} Do").
Proof.
  split; [|split].
  - exact karaoke_text_tags.
  - intros seg w ws Hw Hall. unfold preset_dialogue_text. rewrite Hw.
    now apply karaoke_text_tags.
  - vm_compute. reflexivity.
Qed.

Lemma karaoke_text_tag_per_word_witness :
  Forall well_timed [ek; blank; do_]
  /\ _karaoke_text [ek; blank; do_] = Ok (List.concat (tags_from 0 [ek; blank; do_]))
  /\ List.concat (tags_from 0 [ek; blank; do_]) = lit "{\k40}Ek{\k50} Do".
Proof.
  assert (H : Forall well_timed [ek; blank; do_])
    by (repeat constructor; intros _; vm_compute; reflexivity).
  split; [exact H|]. split.
  - exact (proj1 karaoke_text_tag_per_word _ H).
  - vm_compute. reflexivity.
Defined.

(** C10. The space before a word depends on the word's index in the
    original list: when the first word trims to nothing, every tag that
    is emitted, the first one included, reads [{\k<cs>} word]. *)
Theorem karaoke_space_follows_original_index (w0 : word) (ws : list word) :
  kept w0 = false -> Forall well_timed ws ->
  _karaoke_text (w0 :: ws) = Ok (List.concat (map spaced_tag (filter kept ws))).
Proof.
  intros H0 Hall. rewrite karaoke_text_tags.
  - unfold tags_from; simpl. rewrite H0. fold (tags_from 1 ws).
    now rewrite tags_after_first.
  - constructor; [|assumption]. intros Hk; congruence.
Qed.

Lemma karaoke_space_follows_original_index_witness :
  kept blank = false /\ Forall well_timed [do_]
  /\ _karaoke_text [blank; do_] = Ok (List.concat (map spaced_tag (filter kept [do_])))
  /\ List.concat (map spaced_tag (filter kept [do_])) = lit "{\k50} Do".
Proof.
  assert (H : Forall well_timed [do_])
    by (repeat constructor; intros _; vm_compute; reflexivity).
  split; [reflexivity|]. split; [exact H|]. split.
  - exact (karaoke_space_follows_original_index blank [do_] eq_refl H).
  - vm_compute. reflexivity.
Defined.

(** *** Time stamps *)

Lemma srt_1_5 : _format_time_srt (dec 15 1) = Ok (lit "00:00:01,500").
Proof. vm_compute. reflexivity. Qed.

Lemma srt_3_25 : _format_time_srt (dec 325 2) = Ok (lit "00:00:03,250").
Proof. vm_compute. reflexivity. Qed.

Lemma vtt_1_5 : _format_time_vtt (dec 15 1) = Ok (lit "00:00:01.500").
Proof. vm_compute. reflexivity. Qed.

Lemma vtt_3_25 : _format_time_vtt (dec 325 2) = Ok (lit "00:00:03.250").
Proof. vm_compute. reflexivity. Qed.

Lemma ass_1_5 : _format_time_ass (dec 15 1) = Ok (lit "0:00:01.50").
Proof. vm_compute. reflexivity. Qed.

Lemma ass_3_25 : _format_time_ass (dec 325 2) = Ok (lit "0:00:03.25").
Proof. vm_compute. reflexivity. Qed.

(** C4. For a segment from 1.5 s to 3.25 s the SRT cue has the line
    [00:00:01,500 --> 00:00:03,250], the VTT cue the line
    [00:00:01.500 --> 00:00:03.250], and the ASS dialogue line the start
    [0:00:01.50] and the end [0:00:03.25]. *)
Theorem timestamps_of_1_5_to_3_25 (t : str) (include_translation : bool) :
  let seg := Segment (dec 15 1) (dec 325 2) t None None in
  _generate_srt [seg] include_translation
    = Ok (lit "1" ++ nl ++ lit "00:00:01,500 --> 00:00:03,250" ++ nl ++ t ++ nl)
  /\ _generate_vtt [seg] include_translation
    = Ok (lit "WEBVTT" ++ nl ++ nl ++ lit "1" ++ nl
          ++ lit "00:00:01.500 --> 00:00:03.250" ++ nl ++ t ++ nl)
  /\ _format_time_ass (start_time seg) = Ok (lit "0:00:01.50")
  /\ _format_time_ass (end_time seg) = Ok (lit "0:00:03.25")
  /\ plain_dialogue seg
    = Ok (lit "Dialogue: 0,0:00:01.50,0:00:03.25,Default,,0,0,0,,"
          ++ escape_newlines t)
  /\ preset_dialogue false seg
    = Ok (lit "Dialogue: 0,0:00:01.50,0:00:03.25,Default,,0,0,0,,"
          ++ strip (escape_newlines t)).
Proof.
  intros seg.
  unfold seg, _generate_srt, _generate_vtt, plain_dialogue, preset_dialogue,
    preset_dialogue_text, cue_lines.
  cbn [start_time end_time words].
  rewrite srt_1_5, srt_3_25, vtt_1_5, vtt_3_25, ass_1_5, ass_3_25.
  repeat split.
Qed.

(** *** Colours *)

Lemma hex_other_lengths (hex_color : str) (alpha : Z) :
  len (lstrip_chars (lit "#")
         (match hex_color with [] => lit "#FFFFFF" | _ => hex_color end)) <> 6 ->
  _hex_to_ass_color hex_color alpha
  = Ok (lit "&H" ++ fmt_02X alpha ++ lit "FFFFFF").
Proof.
  intros Hlen. unfold _hex_to_ass_color.
  apply Z.eqb_neq in Hlen. rewrite Hlen. reflexivity.
Qed.

(** C7, as stated, fails: [#abc] is not expanded to [#AABBCC]; with
    alpha 0 it yields [&H00FFFFFF], not [&H00CCBBAA]. *)
Lemma hex_abc_is_not_expanded :
  _hex_to_ass_color (lit "#abc") 0 = Ok (lit "&H00FFFFFF")
  /\ _hex_to_ass_color (lit "#abc") 0 <> Ok (lit "&H00CCBBAA").
Proof. split; [vm_compute; reflexivity | vm_compute; discriminate]. Qed.

(** C7, amended. A colour whose text after the leading [#] is not exactly
    six characters long is replaced by [FFFFFF]: [#abc] with alpha 0
    yields [&H00FFFFFF]; [&H00CCBBAA] is what the six-digit [#AABBCC]
    yields. *)
Theorem hex_color_needs_six_digits :
  (forall hex_color alpha,
     len (lstrip_chars (lit "#")
            (match hex_color with [] => lit "#FFFFFF" | _ => hex_color end)) <> 6 ->
     _hex_to_ass_color hex_color alpha
     = Ok (lit "&H" ++ fmt_02X alpha ++ lit "FFFFFF"))
  /\ _hex_to_ass_color (lit "#abc") 0 = Ok (lit "&H00FFFFFF")
  /\ _hex_to_ass_color (lit "#AABBCC") 0 = Ok (lit "&H00CCBBAA").
Proof.
  split; [exact hex_other_lengths|].
  split; vm_compute; reflexivity.
Qed.

Lemma hex_color_needs_six_digits_witness :
  len (lstrip_chars (lit "#") (lit "#12345")) <> 6
  /\ _hex_to_ass_color (lit "#12345") 128
     = Ok (lit "&H" ++ fmt_02X 128 ++ lit "FFFFFF").
Proof.
  assert (H : len (lstrip_chars (lit "#") (lit "#12345")) <> 6)
    by (vm_compute; discriminate).
  split; [exact H|].
  exact (proj1 hex_color_needs_six_digits (lit "#12345") 128 H).
Defined.

Lemma rgba_parts (rgba : str) (p0 p1 p2 p3 : str) (rest : list str)
    (fr fg fb a : float) (r g b alpha : Z) :
  rgba <> [] ->
  startswith (strip rgba) (lit "#") = false ->
  startswith (strip rgba) (lit "rgba") = true ->
  map strip (split_char (ch ",")
               (slice (strip rgba) (find (strip rgba) (lit "(") + 1)
                      (find (strip rgba) (lit ")"))))
    = p0 :: p1 :: p2 :: p3 :: rest ->
  float_of_str p0 = Ok fr -> int_of_float fr = Ok r ->
  float_of_str p1 = Ok fg -> int_of_float fg = Ok g ->
  float_of_str p2 = Ok fb -> int_of_float fb = Ok b ->
  float_of_str p3 = Ok a ->
  int_of_float (fmul (fmax f0 (fmin f1 (fsub f1 a))) (float_of_Z 255)) = Ok alpha ->
  _rgba_to_ass_back_color (Some rgba)
  = Ok (lit "&H" ++ fmt_02X alpha ++ fmt_02X b ++ fmt_02X g ++ fmt_02X r).
Proof.
  intros Hne Hhash Hrgba Hparts H0 Hr H1 Hg H2 Hb H3 Ha.
  unfold _rgba_to_ass_back_color.
  destruct rgba as [|c rgba']; [congruence|].
  rewrite Hhash, Hrgba. unfold rgba_body.
  rewrite Hparts. cbn [index nth_error bind].
  rewrite H0; cbn [bind]. rewrite Hr; cbn [bind].
  rewrite H1; cbn [bind]. rewrite Hg; cbn [bind].
  rewrite H2; cbn [bind]. rewrite Hb; cbn [bind].
  rewrite H3; cbn [bind].
  unfold back_alpha. rewrite Ha. reflexivity.
Qed.

(** C8, as stated, fails: for the default background [rgba(0,0,0,0.7)]
    the code yields the alpha byte 76 ([4C]) where
    [round((1 - 0.7) * 255)] is 77 ([4D]). *)
Lemma back_alpha_is_not_rounded :
  float_of_str (lit "0.7") = Ok (dec 7 1)
  /\ _rgba_to_ass_back_color (Some (lit "rgba(0,0,0,0.7)")) = Ok (lit "&H4C000000")
  /\ back_alpha (dec 7 1) = Ok 76
  /\ spec_back_alpha (dec 7 1) = Ok 77
  /\ back_alpha (dec 7 1) <> spec_back_alpha (dec 7 1).
Proof.
  repeat split; try (vm_compute; reflexivity). vm_compute. discriminate.
Qed.

(** The inverted alpha is clamped: an alpha of 2 gives the byte 0, an
    alpha of -1 the byte 255. *)
Example back_alpha_clamps :
  back_alpha (dec 2 0) = Ok 0 /\ back_alpha (SFopp (dec 1 0)) = Ok 255.
Proof. split; vm_compute; reflexivity. Qed.

(** C8, amended. For a background [rgba(r,g,b,a)] whose four components
    read as numbers, the alpha byte is
    [int(max(0.0, min(1.0, 1.0 - a)) * 255)]: the inverted alpha is
    clamped to [0, 1], scaled by 255 and truncated towards zero, not
    rounded. *)
Theorem back_alpha_is_truncated :
  (forall rgba p0 p1 p2 p3 rest fr fg fb a r g b alpha,
     rgba <> [] ->
     startswith (strip rgba) (lit "#") = false ->
     startswith (strip rgba) (lit "rgba") = true ->
     map strip (split_char (ch ",")
                  (slice (strip rgba) (find (strip rgba) (lit "(") + 1)
                         (find (strip rgba) (lit ")"))))
       = p0 :: p1 :: p2 :: p3 :: rest ->
     float_of_str p0 = Ok fr -> int_of_float fr = Ok r ->
     float_of_str p1 = Ok fg -> int_of_float fg = Ok g ->
     float_of_str p2 = Ok fb -> int_of_float fb = Ok b ->
     float_of_str p3 = Ok a ->
     int_of_float (fmul (fmax f0 (fmin f1 (fsub f1 a))) (float_of_Z 255))
       = Ok alpha ->
     _rgba_to_ass_back_color (Some rgba)
     = Ok (lit "&H" ++ fmt_02X alpha ++ fmt_02X b ++ fmt_02X g ++ fmt_02X r))
  /\ (forall s m e,
        e < 0 ->
        int_of_float (S754_finite s m e)
        = Ok (Z.quot (cond_Zopp s (Zpos m)) (2 ^ (- e)))).
Proof.
  split.
  - intros. eapply rgba_parts; eassumption.
  - exact int_of_float_truncates.
Qed.

Lemma back_alpha_is_truncated_witness :
  _rgba_to_ass_back_color (Some (lit "rgba(255, 128, 0, 0.302)"))
  = Ok (lit "&H" ++ fmt_02X 177 ++ fmt_02X 0 ++ fmt_02X 128 ++ fmt_02X 255).
Proof.
  apply (proj1 back_alpha_is_truncated (lit "rgba(255, 128, 0, 0.302)")
           (lit "255") (lit "128") (lit "0") (lit "0.302") []
           (float_of_Z 255) (float_of_Z 128) f0 (dec 302 3) 255 128 0 177);
    solve [vm_compute; reflexivity | discriminate].
Defined.

(** *** Time stamps of any float *)

Import Samples.

(** X1. For every float the SRT and the VTT stamp are the same text up to
    the separator of the milliseconds, "," in SRT and "." in VTT, and the
    milliseconds take at least three characters; when one of the two
    formatters raises, the other raises the same exception. *)
Theorem srt_and_vtt_stamps_differ_in_separator (x : float) :
  match _format_time_srt x, _format_time_vtt x with
  | Ok s, Ok v =>
      exists hms ms, s = hms ++ lit "," ++ ms /\ v = hms ++ lit "." ++ ms
                     /\ 3 <= len ms
  | Raise e, Raise e' => e = e'
  | _, _ => False
  end.
Proof.
  unfold _format_time_srt, _format_time_vtt.
  destruct (float_floordiv x (float_of_Z 3600)) as [h|e]; cbn [bind]; [|reflexivity].
  destruct (int_of_float h) as [hours|e]; cbn [bind]; [|reflexivity].
  destruct (float_mod x (float_of_Z 3600)) as [m|e]; cbn [bind]; [|reflexivity].
  destruct (float_floordiv m (float_of_Z 60)) as [m'|e]; cbn [bind]; [|reflexivity].
  destruct (int_of_float m') as [minutes|e]; cbn [bind]; [|reflexivity].
  destruct (float_mod x (float_of_Z 60)) as [s|e]; cbn [bind]; [|reflexivity].
  destruct (int_of_float s) as [secs|e]; cbn [bind]; [|reflexivity].
  destruct (float_mod x (float_of_Z 1)) as [f|e]; cbn [bind]; [|reflexivity].
  destruct (int_of_float _) as [millis|e]; cbn [bind]; [|reflexivity].
  exists (fmt_02d hours ++ lit ":" ++ fmt_02d minutes ++ lit ":" ++ fmt_02d secs),
         (fmt_03d millis).
  rewrite <- !app_assoc. repeat split. apply format_int_width.
Qed.

(** A time that is not a number or is infinite cannot be formatted:
    [int] raises [ValueError] on the NaN that [//] yields. *)
Lemma stamps_of_non_finite (x : float) :
  is_finite x = false ->
  _format_time_srt x = Raise ValueError
  /\ _format_time_vtt x = Raise ValueError
  /\ _format_time_ass x = Raise ValueError.
Proof.
  destruct x as [s|s| |s m e]; try discriminate; intros _;
    try destruct s; repeat split; vm_compute; reflexivity.
Qed.

Lemma cue_lines_raises fmt incl seg segs : forall i lines,
  In seg segs ->
  (exists e, fmt (start_time seg) = Raise e) \/ (exists e, fmt (end_time seg) = Raise e) ->
  exists e, cue_lines fmt incl i segs lines = Raise e.
Proof.
  induction segs as [|s segs IH]; intros i lines Hin Hbad; [contradiction|].
  simpl. destruct Hin as [->|Hin].
  - destruct Hbad as [[e He]|[e He]].
    + rewrite He. cbn [bind]. eauto.
    + destruct (fmt (start_time seg)); cbn [bind]; [|eauto].
      rewrite He. cbn [bind]. eauto.
  - destruct (fmt (start_time s)); cbn [bind]; [|eauto].
    destruct (fmt (end_time s)); cbn [bind]; [|eauto].
    now apply IH.
Qed.

(** X2. A segment whose start or end time is NaN or infinite makes every
    export raise, whatever the other segments: SRT and VTT with or
    without translation, and the events of both ASS writers; there is no
    partial file. *)
Theorem export_with_non_finite_time_raises segs seg :
  In seg segs ->
  is_finite (start_time seg) = false \/ is_finite (end_time seg) = false ->
  (forall incl, exists e, _generate_srt segs incl = Raise e)
  /\ (forall incl, exists e, _generate_vtt segs incl = Raise e)
  /\ (exists e, plain_events segs = Raise e)
  /\ (forall karaoke, exists e, preset_events karaoke segs = Raise e).
Proof.
  intros Hin Hbad.
  assert (Hs : forall fmt : float -> exn str,
               (forall x, is_finite x = false -> fmt x = Raise ValueError) ->
               (exists e, fmt (start_time seg) = Raise e)
               \/ (exists e, fmt (end_time seg) = Raise e)).
  { intros fmt Hf. destruct Hbad as [H|H]; [left|right]; rewrite (Hf _ H); eauto. }
  repeat split.
  - intros incl. unfold _generate_srt.
    destruct (cue_lines_raises _format_time_srt incl seg segs 1 [] Hin) as [e He].
    { apply Hs. intros x Hx. apply stamps_of_non_finite, Hx. }
    rewrite He. cbn [bind]. eauto.
  - intros incl. unfold _generate_vtt.
    destruct (cue_lines_raises _format_time_vtt incl seg segs 1 [lit "WEBVTT"; []] Hin)
      as [e He].
    { apply Hs. intros x Hx. apply stamps_of_non_finite, Hx. }
    rewrite He. cbn [bind]. eauto.
  - unfold plain_events.
    destruct (mapM_raises plain_dialogue seg segs Hin) as [e He].
    { unfold plain_dialogue.
      destruct (Hs _format_time_ass) as [[e He]|[e He]].
      - intros x Hx. apply stamps_of_non_finite, Hx.
      - rewrite He. cbn [bind]. eauto.
      - destruct (_format_time_ass (start_time seg)); cbn [bind]; [|eauto].
        rewrite He. cbn [bind]. eauto. }
    rewrite He. cbn [bind]. eauto.
  - intros karaoke. unfold preset_events.
    destruct (mapM_raises (preset_dialogue karaoke) seg segs Hin) as [e He].
    { unfold preset_dialogue.
      destruct (Hs _format_time_ass) as [[e He]|[e He]].
      - intros x Hx. apply stamps_of_non_finite, Hx.
      - rewrite He. cbn [bind]. eauto.
      - destruct (_format_time_ass (start_time seg)); cbn [bind]; [|eauto].
        rewrite He. cbn [bind]. eauto. }
    rewrite He. cbn [bind]. eauto.
Qed.

Lemma export_with_non_finite_time_raises_witness :
  exists e, _generate_srt [two_line_segment; timeless_segment] false = Raise e.
Proof.
  apply (proj1 (export_with_non_finite_time_raises
                  [two_line_segment; timeless_segment] timeless_segment
                  (or_intror (or_introl eq_refl)) (or_intror eq_refl))).
Defined.

(** *** The cues of an SRT or VTT file *)

Lemma cue_lines_blocks fmt incl segs : forall k lines ls,
  cue_lines fmt incl (Z.of_nat k) segs lines = Ok ls ->
  ls = lines
       ++ flat_map (fun p => [str_of_int (Z.of_nat (fst p)); stamp_line fmt (snd p);
                              cue_text (snd p) incl; []])
            (enumerate_from k segs).
Proof.
  induction segs as [|seg segs IH]; intros k lines ls H; simpl in H.
  - inversion H. simpl. now rewrite app_nil_r.
  - destruct (fmt (start_time seg)) as [a|e] eqn:Ea; cbn [bind] in H; [|discriminate].
    destruct (fmt (end_time seg)) as [b|e] eqn:Eb; cbn [bind] in H; [|discriminate].
    replace (Z.of_nat k + 1) with (Z.of_nat (S k)) in H by lia.
    apply IH in H. rewrite H. cbn [enumerate_from flat_map fst snd].
    unfold stamp_line at 2. rewrite Ea, Eb. rewrite <- !app_assoc. reflexivity.
Qed.

Lemma cue_blocks_concat fmt incl (ps : list (nat * segment)) :
  List.concat
    (map (fun s => s ++ nl)
       (flat_map (fun p => [str_of_int (Z.of_nat (fst p)); stamp_line fmt (snd p);
                            cue_text (snd p) incl; []]) ps))
  = List.concat (map (cue_block fmt incl) ps).
Proof.
  induction ps as [|p ps IH]; [reflexivity|].
  cbn [flat_map map List.concat app]. rewrite IH. unfold cue_block.
  rewrite <- !app_assoc. reflexivity.
Qed.

(** X3. An SRT file followed by a line feed is the blocks of its segments
    one after the other, in order and numbered from 1: the number, the
    time line, the text (with the translation when asked for and
    present) and an empty line; with no segment the file is empty.  A VTT
    file followed by a line feed is "WEBVTT", an empty line and the same
    blocks with VTT stamps. *)
Theorem subtitle_export_is_one_block_per_segment segs incl :
  (forall out, _generate_srt segs incl = Ok out -> segs <> [] ->
     out ++ nl = List.concat (map (cue_block _format_time_srt incl)
                                (enumerate_from 1 segs)))
  /\ (forall out, _generate_vtt segs incl = Ok out ->
        out ++ nl = lit "WEBVTT" ++ nl ++ nl
                    ++ List.concat (map (cue_block _format_time_vtt incl)
                                      (enumerate_from 1 segs)))
  /\ _generate_srt [] incl = Ok [].
Proof.
  split; [|split; [|reflexivity]].
  - intros out H Hne. unfold _generate_srt in H. bind_inv H as ls Hls.
    inversion H; subst out; clear H.
    apply (cue_lines_blocks _ _ _ 1%nat) in Hls. subst ls. cbn [app].
    rewrite join_then_sep, cue_blocks_concat; [reflexivity|].
    destruct segs; [congruence | discriminate].
  - intros out H. unfold _generate_vtt in H. bind_inv H as ls Hls.
    inversion H; subst out; clear H.
    apply (cue_lines_blocks _ _ _ 1%nat) in Hls. subst ls.
    rewrite join_then_sep by discriminate.
    cbn [app map List.concat]. rewrite cue_blocks_concat. reflexivity.
Qed.

Lemma subtitle_export_is_one_block_per_segment_witness :
  (exists out, _generate_srt sample_segments true = Ok out
     /\ out ++ nl = List.concat (map (cue_block _format_time_srt true)
                                   (enumerate_from 1 sample_segments)))
  /\ (exists out, _generate_vtt sample_segments true = Ok out
        /\ out ++ nl = lit "WEBVTT" ++ nl ++ nl
                       ++ List.concat (map (cue_block _format_time_vtt true)
                                         (enumerate_from 1 sample_segments))).
Proof.
  split.
  - destruct (_generate_srt sample_segments true) as [out|e] eqn:E;
      [|vm_compute in E; discriminate E].
    exists out. split; [reflexivity|].
    apply (proj1 (subtitle_export_is_one_block_per_segment sample_segments true) out E).
    discriminate.
  - destruct (_generate_vtt sample_segments true) as [out|e] eqn:E;
      [|vm_compute in E; discriminate E].
    exists out. split; [reflexivity|].
    apply (proj1 (proj2 (subtitle_export_is_one_block_per_segment sample_segments true))
             out E).
Defined.

(** *** The lines of the events *)

Lemma escape_newlines_no_lf (s : str) : ~ In 10%N (escape_newlines s).
Proof.
  induction s as [|c s IH]; simpl; [tauto|].
  destruct (N.eqb c 10) eqn:E.
  - simpl. intros [H|[H|H]]; [discriminate H | discriminate H | auto].
  - simpl. intros [H|H]; [|auto]. subst c. discriminate E.
Qed.

Lemma ass_stamp_no_lf x s : _format_time_ass x = Ok s -> ~ In 10%N s.
Proof.
  unfold _format_time_ass. intros H.
  bind_inv H as h Hh. bind_inv H as hours Hhours. bind_inv H as m Hm.
  bind_inv H as m' Hm'. bind_inv H as minutes Hmin. bind_inv H as s' Hs.
  bind_inv H as secs Hsecs. bind_inv H as f Hf. bind_inv H as centis Hc.
  apply Ok_inj in H. subst s.
  unfold str_of_int, fmt_02d. intros H0.
  repeat (rewrite ?in_app_iff in H0; progress cbn [In lit map list_ascii_of_string] in H0).
  repeat match goal with
         | H : _ \/ _ |- _ => destruct H
         | H : In _ (format_int _ _ _ _) |- _ =>
             apply format_int_no_lf in H; [contradiction | lia]
         | H : _ = 10%N |- _ => discriminate H
         | H : False |- _ => contradiction
         end.
Qed.

(** Replacing the line feeds: the pieces between them, joined by \N. *)
Lemma escape_newlines_join (s : str) :
  escape_newlines s = join (lit "\N") (split_char 10%N s).
Proof.
  induction s as [|c s IH]; [reflexivity|]. cbn [escape_newlines split_char].
  rewrite IH. pose proof (split_char_not_nil 10%N s) as Hne.
  destruct (split_char 10%N s) as [|w ws]; [congruence|].
  destruct (N.eqb c 10); [reflexivity|].
  destruct ws; reflexivity.
Qed.

(** X4. A dialogue line of the [[Events]] section ends with the text of
    its segment in which every line feed is written as \N (the pieces of
    the text between line feeds, joined by \N), after the two time
    stamps; the line holds no line feed, whatever the text.  This holds
    for the lines of [_generate_ass], and for those
    [_generate_ass_from_preset] writes from the text of a segment
    (karaoke off), where the text is trimmed after the replacement. *)
Theorem dialogue_line_has_no_line_feed (seg : segment) (line : str) :
  plain_dialogue seg = Ok line \/ preset_dialogue false seg = Ok line ->
  ~ In 10%N line
  /\ exists start end_,
       _format_time_ass (start_time seg) = Ok start
       /\ _format_time_ass (end_time seg) = Ok end_
       /\ (plain_dialogue seg = Ok line ->
           line = lit "Dialogue: 0," ++ start ++ lit "," ++ end_
                  ++ lit ",Default,,0,0,0,,"
                  ++ join (lit "\N") (split_char 10%N (text seg)))
       /\ (preset_dialogue false seg = Ok line ->
           line = lit "Dialogue: 0," ++ start ++ lit "," ++ end_
                  ++ lit ",Default,,0,0,0,,"
                  ++ strip (join (lit "\N") (split_char 10%N (text seg)))).
Proof.
  assert (Hpre : forall a b t, _format_time_ass (start_time seg) = Ok a ->
            _format_time_ass (end_time seg) = Ok b -> ~ In 10%N t ->
            ~ In 10%N (lit "Dialogue: 0," ++ a ++ lit "," ++ b
                       ++ lit ",Default,,0,0,0,," ++ t)).
  { intros a b t Ha Hb Ht H0.
    pose proof (ass_stamp_no_lf _ _ Ha) as Na. pose proof (ass_stamp_no_lf _ _ Hb) as Nb.
    repeat (rewrite ?in_app_iff in H0; progress cbn [In lit map list_ascii_of_string] in H0).
    repeat match goal with
           | H : _ \/ _ |- _ => destruct H
           | H : _ = 10%N |- _ => discriminate H
           | H : False |- _ => contradiction
           end; auto. }
  assert (Hplain : forall a b l,
            _format_time_ass (start_time seg) = Ok a ->
            _format_time_ass (end_time seg) = Ok b ->
            plain_dialogue seg = Ok l ->
            l = lit "Dialogue: 0," ++ a ++ lit "," ++ b ++ lit ",Default,,0,0,0,,"
                ++ join (lit "\N") (split_char 10%N (text seg))).
  { intros a b l Ha Hb H. unfold plain_dialogue in H. rewrite Ha, Hb in H.
    cbn [bind] in H. apply Ok_inj in H. subst l.
    now rewrite escape_newlines_join. }
  assert (Hpreset : forall a b l,
            _format_time_ass (start_time seg) = Ok a ->
            _format_time_ass (end_time seg) = Ok b ->
            preset_dialogue false seg = Ok l ->
            l = lit "Dialogue: 0," ++ a ++ lit "," ++ b ++ lit ",Default,,0,0,0,,"
                ++ strip (join (lit "\N") (split_char 10%N (text seg)))).
  { intros a b l Ha Hb H. unfold preset_dialogue in H. rewrite Ha, Hb in H.
    cbn [bind] in H. bind_inv H as t Ht. apply Ok_inj in H. subst l.
    assert (Et : t = strip (escape_newlines (text seg))).
    { unfold preset_dialogue_text in Ht. destruct (words seg) as [[|w ws]|];
        apply Ok_inj in Ht; now subst t. }
    subst t. now rewrite escape_newlines_join. }
  intros H.
  assert (Hst : exists a b, _format_time_ass (start_time seg) = Ok a
                            /\ _format_time_ass (end_time seg) = Ok b).
  { destruct H as [H|H]; [unfold plain_dialogue in H | unfold preset_dialogue in H];
      bind_inv H as a Ha; bind_inv H as b Hb; eauto. }
  destruct Hst as (a & b & Ha & Hb). split.
  - destruct H as [H|H].
    + rewrite (Hplain a b line Ha Hb H). apply Hpre; auto.
      rewrite <- escape_newlines_join. apply escape_newlines_no_lf.
    + rewrite (Hpreset a b line Ha Hb H). apply Hpre; auto.
      rewrite <- escape_newlines_join. intros Hin. apply strip_incl in Hin.
      now apply escape_newlines_no_lf in Hin.
  - exists a, b. split; [exact Ha|]. split; [exact Hb|]. split.
    + apply Hplain; assumption.
    + apply Hpreset; assumption.
Qed.

Lemma dialogue_line_has_no_line_feed_witness :
  plain_dialogue two_line_segment
  = Ok (lit "Dialogue: 0,0:00:01.50,0:00:03.25,Default,,0,0,0,,Ek\NDo")
  /\ ~ In 10%N (lit "Dialogue: 0,0:00:01.50,0:00:03.25,Default,,0,0,0,,Ek\NDo").
Proof.
  assert (E : plain_dialogue two_line_segment
              = Ok (lit "Dialogue: 0,0:00:01.50,0:00:03.25,Default,,0,0,0,,Ek\NDo"))
    by (vm_compute; reflexivity).
  split; [exact E|].
  exact (proj1 (dialogue_line_has_no_line_feed two_line_segment _ (or_introl E))).
Defined.

(** *** Six hexadecimal digits *)

Lemma is_digit_16_hex (c : char) : is_digit 16 c = true -> In c hex_digits.
Proof.
  unfold is_digit, digit_value. cbv zeta.
  destruct ((48 <=? Z.of_N c) && (Z.of_N c <=? 57)) eqn:E1.
  - intros _. apply andb_prop in E1. destruct E1 as [A B].
    apply Z.leb_le in A, B.
    assert (H : (c = 48 \/ c = 49 \/ c = 50 \/ c = 51 \/ c = 52 \/ c = 53 \/ c = 54
                 \/ c = 55 \/ c = 56 \/ c = 57)%N) by lia.
    repeat (destruct H as [->|H]; [vm_compute; tauto|]). subst c. vm_compute. tauto.
  - destruct ((97 <=? Z.of_N c) && (Z.of_N c <=? 122)) eqn:E2.
    + apply andb_prop in E2. destruct E2 as [A B]. apply Z.leb_le in A, B.
      destruct (Z.of_N c - 87 <? 16) eqn:E3; [|discriminate]. intros _.
      apply Z.ltb_lt in E3.
      assert (H : (c = 97 \/ c = 98 \/ c = 99 \/ c = 100 \/ c = 101 \/ c = 102)%N) by lia.
      repeat (destruct H as [->|H]; [vm_compute; tauto|]). subst c. vm_compute. tauto.
    + destruct ((65 <=? Z.of_N c) && (Z.of_N c <=? 90)) eqn:E4.
      * apply andb_prop in E4. destruct E4 as [A B]. apply Z.leb_le in A, B.
        destruct (Z.of_N c - 55 <? 16) eqn:E3; [|discriminate]. intros _.
        apply Z.ltb_lt in E3.
        assert (H : (c = 65 \/ c = 66 \/ c = 67 \/ c = 68 \/ c = 69 \/ c = 70)%N) by lia.
        repeat (destruct H as [->|H]; [vm_compute; tauto|]). subst c. vm_compute. tauto.
      * rewrite Z.ltb_irrefl. discriminate.
Qed.

(** Two hexadecimal digits read as a byte, and the byte written back is
    the two digits in upper case: checked on the 22 x 22 pairs. *)
Lemma hex_pair_table :
  forallb (fun a => forallb (fun b =>
     match int_base16 [a; b] with
     | Ok n => str_eqb (fmt_02X n) [upper a; upper b]
     | Raise _ => false
     end) hex_digits) hex_digits = true.
Proof. vm_compute. reflexivity. Qed.

Lemma hex_pair (a b : char) :
  is_digit 16 a = true -> is_digit 16 b = true ->
  exists n, int_base16 [a; b] = Ok n /\ fmt_02X n = [upper a; upper b].
Proof.
  intros Ha Hb. apply is_digit_16_hex in Ha, Hb.
  pose proof hex_pair_table as T. rewrite forallb_forall in T.
  specialize (T a Ha). rewrite forallb_forall in T. specialize (T b Hb).
  destruct (int_base16 [a; b]) as [n|e]; [|discriminate].
  exists n. split; [reflexivity|]. now apply str_eqb_eq.
Qed.

Lemma hex_digit_not_hash (c : char) :
  is_digit 16 c = true -> N.eqb c (N_of_ascii "#") = false.
Proof.
  intros H. apply is_digit_16_hex in H.
  repeat (destruct H as [<-|H]; [reflexivity|]). contradiction.
Qed.

Lemma lstrip_hash (c : char) (rest : str) :
  N.eqb c (N_of_ascii "#") = false ->
  lstrip_chars (lit "#") (ch "#" :: c :: rest) = c :: rest
  /\ lstrip_chars (lit "#") (c :: rest) = c :: rest.
Proof.
  intros H. unfold lstrip_chars.
  cbn [lstrip_by existsb lit map list_ascii_of_string ch].
  rewrite H, N.eqb_refl. split; reflexivity.
Qed.

Lemma hex_of_six (hex : str) (c1 c2 c3 c4 c5 c6 : char) (alpha : Z) :
  lstrip_chars (lit "#") hex = [c1; c2; c3; c4; c5; c6] ->
  hex <> [] ->
  _hex_to_ass_color hex alpha
  = (r <- int_base16 [c1; c2] ;; g <- int_base16 [c3; c4] ;;
     b <- int_base16 [c5; c6] ;;
     Ok (lit "&H" ++ fmt_02X alpha ++ fmt_02X b ++ fmt_02X g ++ fmt_02X r)).
Proof.
  intros H Hne. unfold _hex_to_ass_color.
  destruct hex as [|h hex]; [congruence|]. rewrite H. reflexivity.
Qed.

(** X5. A colour of six hexadecimal digits, in either case and with or
    without the leading "#", converts to "&H", the alpha byte, and the
    three pairs of digits in reverse order (blue, green, red) in upper
    case. *)
Theorem hex_color_bytes_are_reversed (c1 c2 c3 c4 c5 c6 : char) (alpha : Z) :
  forallb (is_digit 16) [c1; c2; c3; c4; c5; c6] = true ->
  _hex_to_ass_color (ch "#" :: [c1; c2; c3; c4; c5; c6]) alpha
  = Ok (lit "&H" ++ fmt_02X alpha ++ map upper [c5; c6; c3; c4; c1; c2])
  /\ _hex_to_ass_color [c1; c2; c3; c4; c5; c6] alpha
     = _hex_to_ass_color (ch "#" :: [c1; c2; c3; c4; c5; c6]) alpha.
Proof.
  cbn [forallb]. rewrite !andb_true_iff.
  intros (H1 & H2 & H3 & H4 & H5 & H6 & _).
  destruct (hex_pair c1 c2 H1 H2) as (r & Hr & Fr).
  destruct (hex_pair c3 c4 H3 H4) as (g & Hg & Fg).
  destruct (hex_pair c5 c6 H5 H6) as (b & Hb & Fb).
  destruct (lstrip_hash c1 [c2; c3; c4; c5; c6] (hex_digit_not_hash c1 H1)) as [L1 L2].
  rewrite (hex_of_six _ c1 c2 c3 c4 c5 c6 alpha L1) by discriminate.
  rewrite (hex_of_six _ c1 c2 c3 c4 c5 c6 alpha L2) by discriminate.
  rewrite Hr, Hg, Hb. cbn [bind]. rewrite Fr, Fg, Fb. split; reflexivity.
Qed.

Lemma hex_color_bytes_are_reversed_witness :
  _hex_to_ass_color (ch "#" :: lit "ffd700") 0 = Ok (lit "&H" ++ fmt_02X 0 ++ lit "00D7FF").
Proof.
  apply (proj1 (hex_color_bytes_are_reversed (ch "f") (ch "f") (ch "d") (ch "7")
                  (ch "0") (ch "0") 0 eq_refl)).
Defined.









(** *** The back colour *)

Lemma default_back_color : _hex_to_ass_color (lit "#000000") 128 = Ok (lit "&H80000000").
Proof. vm_compute. reflexivity. Qed.

(** X7. The back colour conversion raises for no input but a "#"
    colour: a value whose trimmed text does not start with "#" always
    converts.  It converts to the half-transparent black &H80000000 when
    the text does not start with "rgba" (so an rgb(...) colour is not
    parsed), and when it does but cannot be parsed. *)
Theorem back_color_falls_back_to_default :
  (forall rgba,
     (forall t, rgba = Some t -> startswith (strip t) (lit "#") = false) ->
     exists s, _rgba_to_ass_back_color rgba = Ok s)
  /\ (forall t,
        startswith (strip t) (lit "#") = false ->
        startswith (strip t) (lit "rgba") = false ->
        _rgba_to_ass_back_color (Some t) = Ok (lit "&H80000000"))
  /\ (forall t e,
        startswith (strip t) (lit "rgba") = true ->
        rgba_body (strip t) = Raise e ->
        _rgba_to_ass_back_color (Some t) = Ok (lit "&H80000000")).
Proof.
  split; [|split].
  - intros [t|] H; unfold _rgba_to_ass_back_color; [|rewrite default_back_color; eauto].
    destruct t as [|c t]; [rewrite default_back_color; eauto|].
    rewrite (H _ eq_refl).
    destruct (startswith _ (lit "rgba")).
    + destruct (rgba_body _) as [r|e]; cbn [bind try_except];
        [|rewrite default_back_color]; eauto.
    + destruct (startswith _ (lit "rgb")); rewrite default_back_color; eauto.
  - intros t H1 H2. unfold _rgba_to_ass_back_color.
    destruct t as [|c t]; [apply default_back_color|].
    rewrite H1, H2. destruct (startswith _ (lit "rgb")); apply default_back_color.
  - intros t e H1 H2. unfold _rgba_to_ass_back_color.
    destruct t as [|c t]; [apply default_back_color|].
    assert (H0 : startswith (strip (c :: t)) (lit "#") = false).
    { destruct (strip (c :: t)) as [|a s]; [reflexivity|].
      change (lit "rgba") with (114%N :: lit "gba") in H1. cbn [startswith] in H1.
      apply andb_prop in H1. destruct H1 as [E _]. apply N.eqb_eq in E. subst a.
      reflexivity. }
    rewrite H0, H1, H2. cbn [bind try_except]. apply default_back_color.
Qed.

Lemma back_color_falls_back_to_default_witness :
  (exists s, _rgba_to_ass_back_color (Some (lit "rgba(0,0,0,0.7)")) = Ok s)
  /\ _rgba_to_ass_back_color (Some (lit "rgb(255,0,0)")) = Ok (lit "&H80000000")
  /\ _rgba_to_ass_back_color (Some (lit "rgba(255,0,0)")) = Ok (lit "&H80000000")
  /\ _rgba_to_ass_back_color
       (Some (lit "rgba(" ++ [1633; 44; 1634; 44; 1635]%N ++ lit ",0.5)"))
     = Ok (lit "&H7F030201").
Proof.
  split; [|split; [|split]].
  - apply (proj1 back_color_falls_back_to_default (Some (lit "rgba(0,0,0,0.7)"))).
    intros t H. injection H as <-. reflexivity.
  - apply (proj1 (proj2 back_color_falls_back_to_default) (lit "rgb(255,0,0)"));
      reflexivity.
  - apply (proj2 (proj2 back_color_falls_back_to_default) (lit "rgba(255,0,0)") IndexError);
      vm_compute; reflexivity.
  - vm_compute. reflexivity.
Defined.

(** *** Colours hold no comma *)

Lemma ass_colour_no_comma (a b c d : Z) :
  ~ In (ch ",") (lit "&H" ++ fmt_02X a ++ fmt_02X b ++ fmt_02X c ++ fmt_02X d).
Proof.
  intros H. rewrite !in_app_iff in H.
  destruct H as [H|[H|[H|[H|H]]]];
    try (apply format_int_no_comma in H; [exact H | lia]).
  vm_compute in H. intuition discriminate.
Qed.

Lemma hex_color_no_comma (hex : str) (alpha : Z) (s : str) :
  _hex_to_ass_color hex alpha = Ok s -> ~ In (ch ",") s.
Proof.
  unfold _hex_to_ass_color. intros H.
  bind_inv H as r Hr. bind_inv H as g Hg. bind_inv H as b Hb.
  apply Ok_inj in H. subst s. apply ass_colour_no_comma.
Qed.

Lemma back_color_no_comma (rgba : option str) (s : str) :
  _rgba_to_ass_back_color rgba = Ok s -> ~ In (ch ",") s.
Proof.
  unfold _rgba_to_ass_back_color.
  destruct rgba as [[|c t]|]; try apply hex_color_no_comma.
  destruct (startswith _ (lit "#")); [apply hex_color_no_comma|].
  destruct (startswith _ (lit "rgba")).
  - destruct (rgba_body _) as [r|e] eqn:E; cbn [bind try_except];
      [|apply hex_color_no_comma].
    intros H. apply Ok_inj in H. subst s. unfold rgba_body in E.
    repeat match type of E with
           | bind ?c ?k = Ok _ =>
               let a := fresh "a" in
               let Ha := fresh "Ha" in
               apply bind_ok in E; destruct E as (a & Ha & E)
           end.
    apply Ok_inj in E. subst r. apply ass_colour_no_comma.
  - destruct (startswith _ (lit "rgb")); apply hex_color_no_comma.
Qed.

End CaptionFacts.

(* ===================================================================== *)
(** * Properties of the compositor                                         *)
(* ===================================================================== *)

Module TemplateFacts.
Import Py PyFacts Template Demo.

(** *** The stable sort *)

Lemma insert_sorted_perm {A} (x : Z * A) l :
  Permutation (x :: l) (insert_sorted x l).
Proof.
  induction l as [|y l IH]; simpl; [reflexivity|].
  destruct (fst x <=? fst y); [reflexivity|].
  rewrite perm_swap. now constructor.
Qed.

Lemma sorted_by_key_perm {A} (l : list (Z * A)) :
  Permutation l (sorted_by_key l).
Proof.
  induction l as [|x l IH]; simpl; [constructor|].
  rewrite <- insert_sorted_perm. now constructor.
Qed.

Lemma insert_sorted_ascending {A} (x : Z * A) l :
  StronglySorted key_le l -> StronglySorted key_le (insert_sorted x l).
Proof.
  induction 1 as [|y l Hs IH Hy]; simpl.
  - repeat constructor.
  - destruct (fst x <=? fst y) eqn:E.
    + apply Z.leb_le in E. constructor; [now constructor|].
      constructor; [exact E|].
      eapply Forall_impl; [|exact Hy]. unfold key_le; intros; lia.
    + apply Z.leb_gt in E. constructor; [exact IH|].
      rewrite <- insert_sorted_perm. constructor; [unfold key_le; lia | exact Hy].
Qed.

Lemma sorted_by_key_ascending {A} (l : list (Z * A)) :
  StronglySorted key_le (sorted_by_key l).
Proof.
  induction l; simpl; [constructor | now apply insert_sorted_ascending].
Qed.

(** Stability: an item passes only items of a smaller key. *)
Lemma insert_sorted_same_key {A} (x : Z * A) l k :
  filter (fun p => fst p =? k) (insert_sorted x l)
  = filter (fun p => fst p =? k) (x :: l).
Proof.
  induction l as [|y l IH]; [reflexivity|].
  simpl insert_sorted. destruct (fst x <=? fst y) eqn:E; [reflexivity|].
  apply Z.leb_gt in E. simpl in *. rewrite IH.
  destruct (fst x =? k) eqn:Ex, (fst y =? k) eqn:Ey; try reflexivity.
  apply Z.eqb_eq in Ex, Ey. lia.
Qed.

Lemma sorted_by_key_stable {A} (l : list (Z * A)) k :
  filter (fun p => fst p =? k) (sorted_by_key l)
  = filter (fun p => fst p =? k) l.
Proof.
  induction l as [|x l IH]; [reflexivity|].
  simpl sorted_by_key. rewrite insert_sorted_same_key. simpl. now rewrite IH.
Qed.

(** *** Keys of layers *)

Lemma keyed_ok (ls : list json) : forall kl,
  mapM (fun l => k <- z_key l ;; Ok (k, l)) ls = Ok kl ->
  map snd kl = ls /\ Forall (fun p => fst p = zk (snd p)) kl.
Proof.
  induction ls as [|l ls IH]; simpl; intros kl H.
  - inversion H; subst. split; constructor.
  - bind_inv H as p Hp. bind_inv H as kl' Hkl. inversion H; subst; clear H.
    bind_inv Hp as k Hk. inversion Hp; subst; clear Hp.
    destruct (IH _ Hkl) as [Hm Hf]. split; simpl.
    + now rewrite Hm.
    + constructor; [|exact Hf]. simpl. unfold zk. now rewrite Hk.
Qed.

Lemma keyed_total (ls : list json) :
  Forall (fun l => exists k, z_key l = Ok k) ls ->
  exists kl, mapM (fun l => k <- z_key l ;; Ok (k, l)) ls = Ok kl.
Proof.
  induction 1 as [|l ls [k Hk] _ [kl IH]]; simpl.
  - eauto.
  - rewrite Hk; simpl. rewrite IH; simpl. eauto.
Qed.

Lemma Forall_key_filter (kl : list (Z * json)) k :
  Forall (fun p => fst p = zk (snd p)) kl ->
  map snd (filter (fun p => fst p =? k) kl)
  = filter (fun l => zk l =? k) (map snd kl).
Proof.
  induction 1 as [|p kl Hp _ IH]; simpl; [reflexivity|].
  rewrite <- Hp. destruct (fst p =? k); simpl; now rewrite IH.
Qed.

Lemma StronglySorted_map_snd (kl : list (Z * json)) :
  Forall (fun p => fst p = zk (snd p)) kl ->
  StronglySorted key_le kl ->
  StronglySorted (fun a b => zk a <= zk b) (map snd kl).
Proof.
  intros Hf Hs. induction Hs as [|p kl Hs IH Hp]; simpl; [constructor|].
  inversion Hf as [|? ? Hk Hf']; subst. constructor; [now apply IH|].
  apply Forall_map. rewrite Forall_forall in *. intros q Hq.
  specialize (Hp q Hq). specialize (Hf' q Hq). unfold key_le in Hp. lia.
Qed.

Lemma sorted_layers_spec layers sorted :
  sorted_layers layers = Ok sorted ->
  StronglySorted (fun a b => zk a <= zk b) sorted
  /\ Permutation (filter is_dict layers) sorted
  /\ forall k, filter (fun l => zk l =? k) sorted
               = filter (fun l => zk l =? k) (filter is_dict layers).
Proof.
  unfold sorted_layers, keyed_layers. intros H. bind_inv H as kl Hkl.
  inversion H; subst; clear H.
  destruct (keyed_ok _ _ Hkl) as [Hm Hf].
  assert (Hf' : Forall (fun p => fst p = zk (snd p)) (sorted_by_key kl)).
  { rewrite Forall_forall in *. intros p Hp. apply Hf.
    eapply Permutation_in; [symmetry; apply sorted_by_key_perm | exact Hp]. }
  repeat split.
  - apply StronglySorted_map_snd; [exact Hf' | apply sorted_by_key_ascending].
  - rewrite <- Hm. apply Permutation_map, sorted_by_key_perm.
  - intros k. rewrite <- Hm.
    rewrite <- (Forall_key_filter _ k Hf'), <- (Forall_key_filter _ k Hf).
    now rewrite sorted_by_key_stable.
Qed.

Lemma sorted_layers_total layers :
  Forall (fun l => exists k, z_key l = Ok k) (filter is_dict layers) ->
  exists sorted, sorted_layers layers = Ok sorted.
Proof.
  intros H. unfold sorted_layers, keyed_layers.
  destruct (keyed_total _ H) as [kl Hkl]. rewrite Hkl; simpl. eauto.
Qed.

Lemma compile_layers_composes repr_container tmp_dir can_write
    sc width height asset_paths layers bg inputs idx g :
  compile_layers repr_container tmp_dir can_write sc width height asset_paths layers
    = Ok (bg, inputs, idx, g) ->
  exists sorted,
    sorted_layers layers = Ok sorted
    /\ compose repr_container tmp_dir can_write sc width height idx sorted base_graph
       = Ok g.
Proof.
  unfold compile_layers. intros H.
  bind_inv H as bg' Hbg. bind_inv H as acc Hacc. destruct acc as [inputs' idx'].
  bind_inv H as sorted Hs. bind_inv H as g' Hg. inversion H; subst; clear H.
  exists sorted. auto.
Qed.

(** *** The order of composition *)

Section Composition.
Variable repr_container : json -> str.
Variable tmp_dir : str.
Variable can_write : str -> bool.
Variable sc : scene.
Variables width height : Z.

Lemma compose_app idx l1 l2 g :
  compose repr_container tmp_dir can_write sc width height idx (l1 ++ l2) g
  = (g' <- compose repr_container tmp_dir can_write sc width height idx l1 g ;;
     compose repr_container tmp_dir can_write sc width height idx l2 g').
Proof.
  revert g. induction l1 as [|l l1 IH]; intros g; simpl; [reflexivity|].
  destruct (compose_layer repr_container tmp_dir can_write sc width height idx l g);
    simpl; [apply IH | reflexivity].
Qed.

Ltac binds H :=
  repeat match type of H with
         | bind ?c ?k = Ok _ =>
             let a := fresh "a" in
             let Ha := fresh "Ha" in
             apply bind_ok in H; destruct H as (a & Ha & H)
         | (if ?b then _ else _) = Ok _ => destruct b
         | match ?x with _ => _ end = Ok _ => destruct x
         end.

(** A layer only appends operations to the graph. *)
Lemma compose_layer_appends idx layer g g' :
  compose_layer repr_container tmp_dir can_write sc width height idx layer g = Ok g' ->
  exists lines, filter_lines g' = filter_lines g ++ lines.
Proof.
  unfold compose_layer, overlay_layer, text_layer. intros H.
  binds H; inversion H; subst; clear H; cbn [filter_lines];
    try (exists []; now rewrite app_nil_r); eauto.
Qed.

Lemma compose_appends idx layers : forall g g',
  compose repr_container tmp_dir can_write sc width height idx layers g = Ok g' ->
  exists lines, filter_lines g' = filter_lines g ++ lines.
Proof.
  induction layers as [|l layers IH]; simpl; intros g g' H.
  - inversion H; subst. exists []. now rewrite app_nil_r.
  - bind_inv H as g1 Hg1.
    destruct (compose_layer_appends _ _ _ _ Hg1) as [l1 E1].
    destruct (IH _ _ H) as [l2 E2].
    exists (l1 ++ l2). now rewrite E2, E1, app_assoc.
Qed.

(** The layers before a layer are composed first, the layer is composed
    on their result, and the layers after it on the result of that. *)
Lemma compose_turn idx before layer after g0 g :
  compose repr_container tmp_dir can_write sc width height idx
    (before ++ layer :: after) g0 = Ok g ->
  exists g1 g2,
    compose repr_container tmp_dir can_write sc width height idx before g0 = Ok g1
    /\ compose_layer repr_container tmp_dir can_write sc width height idx layer g1
       = Ok g2
    /\ compose repr_container tmp_dir can_write sc width height idx after g2 = Ok g
    /\ (exists earlier, filter_lines g1 = filter_lines g0 ++ earlier)
    /\ (exists own, filter_lines g2 = filter_lines g1 ++ own)
    /\ (exists later, filter_lines g = filter_lines g2 ++ later).
Proof.
  intros H. rewrite compose_app in H. bind_inv H as g1 H1.
  cbn [compose] in H. bind_inv H as g2 H2.
  exists g1, g2. repeat split; try assumption.
  - eapply compose_appends, H1.
  - eapply compose_layer_appends, H2.
  - eapply compose_appends, H.
Qed.

Lemma text_is_not_media (ltype : json) :
  is_text ltype (lit "text") = true ->
  is_text ltype (lit "video") || is_text ltype (lit "image") = false.
Proof.
  destruct ltype as [| | | |t| |]; try discriminate. cbn [is_text].
  intros H. apply str_eqb_eq in H. subst t. reflexivity.
Qed.

(** The turn of a text layer whose text is not blank: one [drawtext]
    operation that reads the current label and writes a new one. *)
Lemma text_turn idx layer ltype tv t g g' :
  get layer (lit "type") = Ok ltype -> is_text ltype (lit "text") = true ->
  get layer (lit "text") = Ok tv -> resolve_token sc tv = Ok (JStr t) ->
  strip t <> [] ->
  compose_layer repr_container tmp_dir can_write sc width height idx layer g = Ok g' ->
  exists rest,
    filter_lines g'
    = filter_lines g
      ++ [current_label g
          ++ (lit "drawtext=textfile='"
              ++ path_join tmp_dir (lit "text_" ++ str_of_int (draw_index g + 1)
                                    ++ lit ".txt")
              ++ rest)
          ++ current_label g']
    /\ current_label g' = lit "[t" ++ str_of_int (draw_index g + 1) ++ lit "]"
    /\ text_files g'
       = (path_join tmp_dir (lit "text_" ++ str_of_int (draw_index g + 1)
                             ++ lit ".txt"), t) :: text_files g.
Proof.
  intros Ht Htext Hv Hr Hne H. unfold compose_layer in H. rewrite Ht in H.
  cbn [bind] in H. rewrite (text_is_not_media _ Htext), Htext in H.
  unfold text_layer in H. rewrite Hv in H. cbn [bind] in H. rewrite Hr in H.
  cbn [bind] in H. destruct (strip t) as [|c0 t0]; [congruence|].
  repeat match type of H with
         | bind ?c ?k = Ok _ =>
             let a := fresh "a" in
             let Ha := fresh "Ha" in
             apply bind_ok in H; destruct H as (a & Ha & H)
         end.
  apply Ok_inj in H. subst g'. cbn [filter_lines current_label text_files].
  eexists. repeat split.
Qed.

(** The turn of a video or image layer that has an input: its input is
    prepared, and one [overlay] operation lays it over the current label
    and writes a new one. *)
Lemma media_turn idx layer ltype id id' i g g' :
  get layer (lit "type") = Ok ltype ->
  is_text ltype (lit "video") || is_text ltype (lit "image") = true ->
  get layer (lit "id") = Ok id -> hashable id = Ok id' ->
  assoc key_eq idx id' = Some i ->
  compose_layer repr_container tmp_dir can_write sc width height idx layer g = Ok g' ->
  exists prepared alpha ov_in x y enable,
    filter_lines g'
    = filter_lines g
      ++ [(lit "[" ++ str_of_int i ++ lit ":v]") ++ prepared] ++ alpha
      ++ [current_label g ++ ov_in ++ lit "overlay=x=" ++ str_of_int x
          ++ lit ":y=" ++ str_of_int y ++ lit ":enable='" ++ enable
          ++ lit "'" ++ current_label g']
    /\ current_label g' = lit "[v" ++ str_of_int (overlay_index g) ++ lit "]".
Proof.
  intros Ht Hm Hid Hh Hi H. unfold compose_layer in H. rewrite Ht in H.
  cbn [bind] in H. rewrite Hm in H.
  unfold overlay_layer in H. rewrite Hid in H. cbn [bind] in H.
  rewrite Hh in H. cbn [bind] in H. rewrite Hi in H.
  bind_inv H as tr Htr. bind_inv H as transform Htf. bind_inv H as fitv Hfit.
  bind_inv H as op Hop. bind_inv H as opacity Hopa. bind_inv H as scaled Hsc.
  assert (Hprep : exists prepared,
            scaled = (lit "[" ++ str_of_int i ++ lit ":v]") ++ prepared).
  { binds Hsc; apply Ok_inj in Hsc; subst scaled; eexists; reflexivity. }
  destruct Hprep as [prepared ->].
  binds H; apply Ok_inj in H; subst g'; cbn [filter_lines current_label];
    do 6 eexists; split; reflexivity.
Qed.

(** The turns that add nothing: a video or image layer without input, a
    text layer whose text is blank or no text, and a layer of another
    type. *)
Lemma idle_turn idx layer ltype g g' :
  get layer (lit "type") = Ok ltype ->
  compose_layer repr_container tmp_dir can_write sc width height idx layer g = Ok g' ->
  (is_text ltype (lit "video") || is_text ltype (lit "image") = true ->
   (forall id id', get layer (lit "id") = Ok id -> hashable id = Ok id' ->
                   assoc key_eq idx id' = None) ->
   g' = g)
  /\ (is_text ltype (lit "text") = true ->
      (forall tv v, get layer (lit "text") = Ok tv -> resolve_token sc tv = Ok v ->
                    match v with JStr t => strip t = [] | _ => True end) ->
      g' = g)
  /\ (is_text ltype (lit "video") || is_text ltype (lit "image")
      || is_text ltype (lit "text") = false ->
      g' = g).
Proof.
  intros Ht H. unfold compose_layer in H. rewrite Ht in H. cbn [bind] in H.
  split; [|split].
  - intros Hm Hno. rewrite Hm in H. unfold overlay_layer in H.
    bind_inv H as id Hid. bind_inv H as id' Hh.
    rewrite (Hno id id' Hid Hh) in H. now apply Ok_inj in H.
  - intros Htext Hblank. rewrite (text_is_not_media _ Htext), Htext in H.
    unfold text_layer in H. bind_inv H as tv Hv. bind_inv H as v Hr.
    specialize (Hblank tv v Hv Hr).
    destruct v as [| | | |t| |]; try (now apply Ok_inj in H).
    rewrite Hblank in H. now apply Ok_inj in H.
  - intros Ho. apply orb_false_iff in Ho. destruct Ho as [Hm Htext].
    rewrite Hm, Htext in H. now apply Ok_inj in H.
Qed.

End Composition.

(** C9. Whenever every layer's z reads as an integer, [sorted_layers] is
    the layers in ascending z, a permutation of the declared ones in
    which layers of equal z keep their declaration order, and the filter
    graph is composed over that list from left to right.  Every layer of
    the list has its turn on the graph the layers before it have built,
    and the layers after it work on the graph it leaves.  In its turn a
    text layer whose text is not blank appends one [drawtext] operation,
    and a video or image layer that has an input appends the preparation
    of its input and one [overlay] operation; either operation reads the
    current label, the output of the last layer composited before, and
    writes a new one, so a layer is drawn over all composited layers of
    smaller z and under those of greater z.  A video or image layer
    without input, a text layer without text and a layer of another type
    leave the graph as it is.  For an image declared first with z = 2 and
    one declared second with z = 1, the z = 1 image (input 2) is overlaid
    on the background first and the z = 2 image (input 1) on top of the
    result; for a text with z = 3, a video with z = 2 and an image with
    z = 1, declared in this order, the image is overlaid first, the video
    over it, and the text is drawn over both. *)
Theorem layers_composited_in_stable_z_order :
  (forall layers,
     Forall (fun l => exists k, z_key l = Ok k) (filter is_dict layers) ->
     exists sorted,
       sorted_layers layers = Ok sorted
       /\ StronglySorted (fun a b => zk a <= zk b) sorted
       /\ Permutation (filter is_dict layers) sorted
       /\ forall k, filter (fun l => zk l =? k) sorted
                    = filter (fun l => zk l =? k) (filter is_dict layers))
  /\ (forall repr_container tmp_dir can_write sc width height asset_paths
             layers bg inputs idx g,
        compile_layers repr_container tmp_dir can_write sc width height
          asset_paths layers = Ok (bg, inputs, idx, g) ->
        exists sorted,
          sorted_layers layers = Ok sorted
          /\ compose repr_container tmp_dir can_write sc width height idx
               sorted base_graph = Ok g)
  /\ (forall repr_container tmp_dir can_write sc width height idx
             before layer after g0 g,
        compose repr_container tmp_dir can_write sc width height idx
          (before ++ layer :: after) g0 = Ok g ->
        exists g1 g2,
          compose repr_container tmp_dir can_write sc width height idx before g0
          = Ok g1
          /\ compose_layer repr_container tmp_dir can_write sc width height idx
               layer g1 = Ok g2
          /\ compose repr_container tmp_dir can_write sc width height idx after g2
             = Ok g
          /\ (exists earlier, filter_lines g1 = filter_lines g0 ++ earlier)
          /\ (exists own, filter_lines g2 = filter_lines g1 ++ own)
          /\ (exists later, filter_lines g = filter_lines g2 ++ later))
  /\ (forall repr_container tmp_dir can_write sc width height idx
             layer ltype tv t g g',
        get layer (lit "type") = Ok ltype -> is_text ltype (lit "text") = true ->
        get layer (lit "text") = Ok tv -> resolve_token sc tv = Ok (JStr t) ->
        strip t <> [] ->
        compose_layer repr_container tmp_dir can_write sc width height idx layer g
        = Ok g' ->
        exists rest,
          filter_lines g'
          = filter_lines g
            ++ [current_label g
                ++ (lit "drawtext=textfile='"
                    ++ path_join tmp_dir
                         (lit "text_" ++ str_of_int (draw_index g + 1) ++ lit ".txt")
                    ++ rest)
                ++ current_label g']
          /\ current_label g' = lit "[t" ++ str_of_int (draw_index g + 1) ++ lit "]"
          /\ text_files g'
             = (path_join tmp_dir
                  (lit "text_" ++ str_of_int (draw_index g + 1) ++ lit ".txt"), t)
               :: text_files g)
  /\ (forall repr_container tmp_dir can_write sc width height idx
             layer ltype id id' i g g',
        get layer (lit "type") = Ok ltype ->
        is_text ltype (lit "video") || is_text ltype (lit "image") = true ->
        get layer (lit "id") = Ok id -> hashable id = Ok id' ->
        assoc key_eq idx id' = Some i ->
        compose_layer repr_container tmp_dir can_write sc width height idx layer g
        = Ok g' ->
        exists prepared alpha ov_in x y enable,
          filter_lines g'
          = filter_lines g
            ++ [(lit "[" ++ str_of_int i ++ lit ":v]") ++ prepared] ++ alpha
            ++ [current_label g ++ ov_in ++ lit "overlay=x=" ++ str_of_int x
                ++ lit ":y=" ++ str_of_int y ++ lit ":enable='" ++ enable
                ++ lit "'" ++ current_label g']
          /\ current_label g' = lit "[v" ++ str_of_int (overlay_index g) ++ lit "]")
  /\ (forall repr_container tmp_dir can_write sc width height idx
             layer ltype g g',
        get layer (lit "type") = Ok ltype ->
        compose_layer repr_container tmp_dir can_write sc width height idx layer g
        = Ok g' ->
        (is_text ltype (lit "video") || is_text ltype (lit "image") = true ->
         (forall id id', get layer (lit "id") = Ok id -> hashable id = Ok id' ->
                         assoc key_eq idx id' = None) ->
         g' = g)
        /\ (is_text ltype (lit "text") = true ->
            (forall tv v, get layer (lit "text") = Ok tv ->
                          resolve_token sc tv = Ok v ->
                          match v with JStr t => strip t = [] | _ => True end) ->
            g' = g)
        /\ (is_text ltype (lit "video") || is_text ltype (lit "image")
            || is_text ltype (lit "text") = false ->
            g' = g))
  /\ (forall repr_container tmp_dir can_write,
        compile_layers repr_container tmp_dir can_write (scene_of both_urls)
          1080 1920 both_assets [top_layer; bottom_layer]
        = Ok (txt "black",
              [lit "-loop"; lit "1"; lit "-i"; lit "/tmp/render/img_top.png";
               lit "-loop"; lit "1"; lit "-i"; lit "/tmp/render/img_bottom.png"],
              [(txt "top", 1); (txt "bottom", 2)],
              {| filter_lines :=
                   [lit "[0:v]format=rgba[base]";
                    lit "[2:v]format=rgba[ov0]";
                    lit "[base][ov0]overlay=x=0:y=0:enable='between(t\,0.0\,15.0)'[v0]";
                    lit "[1:v]format=rgba[ov1]";
                    lit "[v0][ov1]overlay=x=0:y=0:enable='between(t\,0.0\,15.0)'[v1]"];
                 current_label := lit "[v1]";
                 draw_index := 0;
                 overlay_index := 2;
                 text_files := [] |}))
  /\ (forall repr_container,
        compile_layers repr_container demo_tmp demo_can_write (scene_of clip_urls)
          1080 1920 clip_assets [title_layer; clip_layer; bottom_layer]
        = Ok (txt "black",
              [lit "-stream_loop"; lit "-1"; lit "-i"; lit "/tmp/render/clip.mp4";
               lit "-loop"; lit "1"; lit "-i"; lit "/tmp/render/img_bottom.png"],
              [(txt "clip", 1); (txt "bottom", 2)],
              {| filter_lines :=
                   [lit "[0:v]format=rgba[base]";
                    lit "[2:v]format=rgba[ov0]";
                    lit "[base][ov0]overlay=x=0:y=0:enable='between(t\,0.0\,15.0)'[v0]";
                    lit "[1:v]scale=w=1080:h=1920:force_original_aspect_ratio=increase,"
                    ++ lit "crop=w=1080:h=1920,setsar=1,format=rgba[ov1]";
                    lit "[v0][ov1]overlay=x=0:y=0:enable='between(t\,0.0\,15.0)'[v1]";
                    lit "[v1]drawtext=textfile='/tmp/render/text_1.txt':font='Inter':"
                    ++ lit "fontsize=48:fontcolor=white:x=0:y=0:"
                    ++ lit "box=0:boxcolor=black@0.0:boxborderw=0:"
                    ++ lit "enable='between(t\,0.0\,15.0)'[t1]"];
                 current_label := lit "[t1]";
                 draw_index := 1;
                 overlay_index := 2;
                 text_files := [(lit "/tmp/render/text_1.txt", lit "Namaste")] |})).
Proof.
  split; [|split; [|split; [|split; [|split; [|split; [|split]]]]]].
  - intros layers Hk. destruct (sorted_layers_total layers Hk) as [sorted Hs].
    exists sorted. split; [exact Hs|]. now apply sorted_layers_spec.
  - intros until g. apply compile_layers_composes.
  - intros until g. apply compose_turn.
  - intros until g'. apply text_turn.
  - intros until g'. apply media_turn.
  - intros until g'. apply idle_turn.
  - intros. vm_compute. reflexivity.
  - intros. vm_compute. reflexivity.
Qed.

Lemma layers_composited_in_stable_z_order_witness :
  Forall (fun l => exists k, z_key l = Ok k)
         (filter is_dict [top_layer; bottom_layer; side_layer])
  /\ exists sorted,
       sorted_layers [top_layer; bottom_layer; side_layer] = Ok sorted
       /\ StronglySorted (fun a b => zk a <= zk b) sorted
       /\ Permutation (filter is_dict [top_layer; bottom_layer; side_layer]) sorted
       /\ forall k, filter (fun l => zk l =? k) sorted
                    = filter (fun l => zk l =? k)
                        (filter is_dict [top_layer; bottom_layer; side_layer]).
Proof.
  assert (H : Forall (fun l => exists k, z_key l = Ok k)
                (filter is_dict [top_layer; bottom_layer; side_layer])).
  { repeat constructor; eexists; vm_compute; reflexivity. }
  split; [exact H|].
  exact (proj1 layers_composited_in_stable_z_order _ H).
Defined.

Example equal_z_keeps_declaration_order :
  sorted_layers [top_layer; bottom_layer; side_layer]
  = Ok [bottom_layer; side_layer; top_layer].
Proof. vm_compute. reflexivity. Qed.

(** *** Token resolution *)

Lemma get_dict_ok (v : json) (k : str) :
  is_dict v = true -> exists r, get v k = Ok r.
Proof.
  destruct v; try discriminate. intros _. unfold get, get_default. eauto.
Qed.

Lemma get_default_dict_ok (v : json) (k : str) (d : json) :
  is_dict v = true -> exists r, get_default v k d = Ok r.
Proof. destruct v; try discriminate. intros _. unfold get_default. eauto. Qed.

Lemma or_dict_is_dict (v : json) :
  dict_or_falsy v = true -> is_dict (or_ v (JDict [])) = true.
Proof.
  unfold dict_or_falsy, or_. destruct (truthy v) eqn:E; [|reflexivity].
  rewrite orb_false_r. auto.
Qed.

Lemma get_raises_attribute (v : json) (k : str) (d : json) e :
  get_default v k d = Raise e -> e = AttributeError.
Proof. destruct v; simpl; intros H; congruence. Qed.

Lemma resolve_token_total sc value :
  well_formed sc -> exists r, resolve_token sc value = Ok r.
Proof.
  intros (Hc & Hd & Ht & Hcol & Hph). unfold resolve_token.
  destruct value as [| | | |s| |]; eauto.
  destruct (str_eqb s (lit "$duration")); [eauto|].
  destruct (startswith s (lit "$theme.colors.")) eqn:E1.
  - rewrite (split_once_prefix _ _ E1). cbn [index nth_error bind].
    destruct (get_dict_ok (theme sc) (lit "colors") Ht) as [colors Hg].
    rewrite Hg. cbn [bind].
    apply get_default_dict_ok, or_dict_is_dict, Hcol, Hg.
  - destruct (startswith s (lit "$placeholder.")) eqn:E2; [|eauto].
    rewrite (split_once_prefix _ _ E2). cbn [index nth_error bind].
    destruct (get_dict_ok (custom sc) (skipn (List.length (lit "$placeholder.")) s) Hc)
      as [v Hv].
    rewrite Hv. cbn [bind]. destruct (truthy v); [eauto|].
    destruct (get_dict_ok (definition sc) (lit "placeholders") Hd) as [phs Hp].
    rewrite Hp. cbn [bind]. destruct (Hph phs Hp) as [Hphs Hent].
    destruct (get_dict_ok _ (skipn (List.length (lit "$placeholder.")) s)
                (or_dict_is_dict _ Hphs)) as [ph Hg].
    rewrite Hg. cbn [bind].
    apply get_dict_ok, or_dict_is_dict. eapply Hent, Hg.
Qed.

Lemma resolve_token_raises sc value e :
  resolve_token sc value = Raise e -> e = AttributeError.
Proof.
  unfold resolve_token. destruct value as [| | | |s| |]; try discriminate.
  destruct (str_eqb s (lit "$duration")); [discriminate|].
  destruct (startswith s (lit "$theme.colors.")) eqn:E1.
  - rewrite (split_once_prefix _ _ E1). cbn [index nth_error bind].
    destruct (get (theme sc) (lit "colors")) eqn:Hg; cbn [bind].
    + apply get_raises_attribute.
    + intros H; inversion H; subst. eapply get_raises_attribute, Hg.
  - destruct (startswith s (lit "$placeholder.")) eqn:E2; [|discriminate].
    rewrite (split_once_prefix _ _ E2). cbn [index nth_error bind].
    destruct (get (custom sc) _) as [v|e'] eqn:Hv; cbn [bind];
      [|intros H; inversion H; subst; eapply get_raises_attribute, Hv].
    destruct (truthy v); [discriminate|].
    destruct (get (definition sc) _) as [phs|e'] eqn:Hp; cbn [bind];
      [|intros H; inversion H; subst; eapply get_raises_attribute, Hp].
    destruct (get (or_ phs _) _) as [ph|e'] eqn:Hg; cbn [bind];
      [|intros H; inversion H; subst; eapply get_raises_attribute, Hg].
    apply get_raises_attribute.
Qed.

Lemma resolve_placeholder_without_value sc key c d phs ph :
  custom sc = JDict c ->
  match lookup c key with Some v => truthy v = false | None => True end ->
  definition sc = JDict d ->
  lookup d (lit "placeholders") = Some (JDict phs) ->
  lookup phs key = Some (JDict ph) ->
  lookup ph (lit "required") = Some (JBool true) ->
  lookup ph (lit "default") = None ->
  resolve_token sc (JStr (lit "$placeholder." ++ key)) = Ok JNull.
Proof.
  intros Hc Hv Hd Hphs Hph Hreq Hdef. unfold resolve_token.
  assert (E0 : str_eqb (lit "$placeholder." ++ key) (lit "$duration") = false).
  { destruct (str_eqb _ _) eqn:E; [|reflexivity].
    apply str_eqb_eq in E. discriminate E. }
  rewrite E0.
  assert (E1 : startswith (lit "$placeholder." ++ key) (lit "$theme.colors.") = false)
    by reflexivity.
  rewrite E1, startswith_app, split_once_prefix by apply startswith_app.
  rewrite skipn_app, skipn_all, Nat.sub_diag. cbn [app skipn index nth_error bind].
  rewrite Hc, Hd. unfold get, get_default. cbn [bind].
  assert (Ht : truthy (match lookup c key with Some x => x | None => JNull end) = false)
    by (destruct (lookup c key); [exact Hv | reflexivity]).
  rewrite Ht, Hphs. cbn [bind or_ truthy].
  destruct phs as [|p phs']; [discriminate|].
  unfold or_ at 1. cbn [truthy]. rewrite Hph. cbn [bind].
  destruct ph as [|q ph']; [discriminate|].
  unfold or_. cbn [truthy]. now rewrite Hdef.
Qed.

(** C6, as stated, fails: the token of a required placeholder that has
    neither a customization value nor a default resolves to [None]; no
    error is raised. *)
Lemma required_placeholder_resolves_to_none :
  resolve_token required_scene (txt "$placeholder.title") = Ok JNull
  /\ match resolve_token required_scene (txt "$placeholder.title") with
     | Ok _ => True
     | Raise _ => False
     end.
Proof. split; [vm_compute; reflexivity | vm_compute; exact I]. Qed.

(** C6, amended. Resolving [$placeholder.<id>] for a required placeholder
    with no customization value and no default yields [None], not an
    error: token resolution has no required-field check.  On a scene
    whose customizations, definition, theme, colour table and placeholder
    entries are dicts it is total, and the only exception it can raise at
    all is the [AttributeError] of calling [get] on something that is not
    a dict. *)
Theorem token_resolution_has_no_required_check :
  (forall sc key c d phs ph,
     custom sc = JDict c ->
     match lookup c key with Some v => truthy v = false | None => True end ->
     definition sc = JDict d ->
     lookup d (lit "placeholders") = Some (JDict phs) ->
     lookup phs key = Some (JDict ph) ->
     lookup ph (lit "required") = Some (JBool true) ->
     lookup ph (lit "default") = None ->
     resolve_token sc (JStr (lit "$placeholder." ++ key)) = Ok JNull)
  /\ (forall sc value, well_formed sc -> exists r, resolve_token sc value = Ok r)
  /\ (forall sc value e, resolve_token sc value = Raise e -> e = AttributeError).
Proof.
  split; [|split].
  - exact resolve_placeholder_without_value.
  - exact resolve_token_total.
  - exact resolve_token_raises.
Qed.

Lemma token_resolution_has_no_required_check_witness :
  resolve_token required_scene (JStr (lit "$placeholder." ++ lit "title")) = Ok JNull
  /\ well_formed required_scene
  /\ exists r, resolve_token required_scene (txt "$theme.colors.primary") = Ok r.
Proof.
  assert (Hwf : well_formed required_scene).
  { repeat split; try reflexivity.
    - intros v H. vm_compute in H. inversion H. reflexivity.
    - vm_compute in H. inversion H. reflexivity.
    - intros key ph Hg. vm_compute in H. inversion H; subst. clear H.
      unfold or_ in Hg. cbn [truthy] in Hg. unfold get, get_default in Hg.
      cbn [lookup] in Hg.
      destruct (str_eqb _ key); inversion Hg; reflexivity. }
  split; [|split; [exact Hwf|]].
  - eapply (proj1 token_resolution_has_no_required_check required_scene (lit "title"));
      first [reflexivity | exact I].
  - exact (proj1 (proj2 token_resolution_has_no_required_check)
             required_scene (txt "$theme.colors.primary") Hwf).
Defined.

(** *** Leaving a layer out *)

Lemma insert_sorted_split {A} (x : Z * A) l :
  exists l1 l2, l = l1 ++ l2 /\ insert_sorted x l = l1 ++ x :: l2.
Proof.
  induction l as [|y l (l1 & l2 & E & Hi)]; simpl.
  - exists [], []. auto.
  - destruct (fst x <=? fst y).
    + exists [], (y :: l). auto.
    + exists (y :: l1), l2. simpl. rewrite Hi, <- E. auto.
Qed.

Lemma insert_sorted_around {A} (y x : Z * A) s1 s2 :
  StronglySorted key_le (s1 ++ x :: s2) ->
  exists t1 t2,
    insert_sorted y (s1 ++ x :: s2) = t1 ++ x :: t2
    /\ insert_sorted y (s1 ++ s2) = t1 ++ t2.
Proof.
  induction s1 as [|z s1 IH]; simpl; intros Hs.
  - destruct (fst y <=? fst x) eqn:E.
    + exists [y], s2. split; [reflexivity|].
      destruct s2 as [|w s2]; [reflexivity|]. simpl.
      inversion Hs as [|? ? _ Hx]; subst. inversion Hx as [|? ? Hw _]; subst.
      apply Z.leb_le in E. unfold key_le in Hw.
      assert (E' : (fst y <=? fst w) = true) by (apply Z.leb_le; lia).
      now rewrite E'.
    + exists [], (insert_sorted y s2). auto.
  - destruct (fst y <=? fst z).
    + exists (y :: z :: s1), s2. auto.
    + inversion Hs as [|? ? Hs' _]; subst.
      destruct (IH Hs') as (t1 & t2 & E1 & E2).
      exists (z :: t1), t2. simpl. now rewrite E1, E2.
Qed.

Lemma sorted_by_key_remove {A} (a : list (Z * A)) x b :
  exists s1 s2,
    sorted_by_key (a ++ x :: b) = s1 ++ x :: s2
    /\ sorted_by_key (a ++ b) = s1 ++ s2.
Proof.
  induction a as [|y a (s1 & s2 & E1 & E2)]; simpl.
  - destruct (insert_sorted_split x (sorted_by_key b)) as (l1 & l2 & E & Hi).
    exists l1, l2. auto.
  - rewrite E1, E2. apply insert_sorted_around.
    rewrite <- E1. apply sorted_by_key_ascending.
Qed.

(** The sorted layers of a list and of the list without one of its
    layers: both raise the same exception, or they differ by that layer. *)
Lemma sorted_layers_remove layer k l1 l2 :
  is_dict layer = true -> z_key layer = Ok k ->
  match sorted_layers (l1 ++ layer :: l2), sorted_layers (l1 ++ l2) with
  | Ok s, Ok s' => exists s1 s2, s = s1 ++ layer :: s2 /\ s' = s1 ++ s2
  | Raise e, Raise e' => e = e'
  | _, _ => False
  end.
Proof.
  intros Hd Hk. unfold sorted_layers, keyed_layers.
  rewrite !filter_app. simpl. rewrite Hd. rewrite !mapM_app. simpl.
  rewrite Hk. cbn [bind].
  destruct (mapM _ (filter is_dict l1)) as [k1|e]; cbn [bind]; [|reflexivity].
  destruct (mapM _ (filter is_dict l2)) as [k2|e]; cbn [bind]; [|reflexivity].
  destruct (sorted_by_key_remove k1 (k, layer) k2) as (s1 & s2 & E1 & E2).
  rewrite E1, E2. exists (map snd s1), (map snd s2).
  rewrite !map_app. auto.
Qed.

Lemma media_not_solid ltype :
  is_media ltype = true -> is_text ltype (lit "solid") = false.
Proof.
  unfold is_media, is_text. destruct ltype; try discriminate.
  intros H. apply orb_prop in H.
  destruct H as [H|H]; apply str_eqb_eq in H; subst; reflexivity.
Qed.

Section Omission.
Variable repr_container : json -> str.
Variable tmp_dir : str.
Variable can_write : str -> bool.
Variable sc : scene.
Variables width height : Z.
Variable asset_paths : list (str * str).

Lemma add_input_skips layer ltype acc :
  is_dict layer = true ->
  get layer (lit "type") = Ok ltype -> is_media ltype = true ->
  unmaterialized tmp_dir sc asset_paths layer ->
  add_input tmp_dir sc asset_paths layer acc = Ok acc.
Proof.
  intros Hd Ht Hm (raw & src & Hraw & Hsrc & Hp).
  unfold add_input. destruct acc as [inputs idx].
  rewrite Hd, Ht. cbn [negb bind]. fold (is_media ltype). rewrite Hm.
  cbn [negb]. rewrite Hraw. cbn [bind]. rewrite Hsrc. cbn [bind].
  destruct src as [| | | |s| |]; try reflexivity.
  destruct s as [|c s]; [reflexivity|]. rewrite Hp. reflexivity.
Qed.

Lemma add_inputs_app l1 l2 acc :
  add_inputs tmp_dir sc asset_paths (l1 ++ l2) acc
  = (acc' <- add_inputs tmp_dir sc asset_paths l1 acc ;;
     add_inputs tmp_dir sc asset_paths l2 acc').
Proof.
  revert acc. induction l1 as [|l l1 IH]; intros acc; simpl; [reflexivity|].
  destruct (add_input tmp_dir sc asset_paths l acc); simpl; [apply IH | reflexivity].
Qed.

Lemma add_inputs_skips layer ltype l1 l2 acc :
  is_dict layer = true ->
  get layer (lit "type") = Ok ltype -> is_media ltype = true ->
  unmaterialized tmp_dir sc asset_paths layer ->
  add_inputs tmp_dir sc asset_paths (l1 ++ layer :: l2) acc
  = add_inputs tmp_dir sc asset_paths (l1 ++ l2) acc.
Proof.
  intros Hd Ht Hm Hu. rewrite !add_inputs_app.
  destruct (add_inputs tmp_dir sc asset_paths l1 acc) as [acc1|e]; cbn [bind];
    [|reflexivity].
  simpl. now rewrite (add_input_skips layer ltype acc1 Hd Ht Hm Hu).
Qed.

(** A media layer without an entry in [input_index_by_layer_id] adds no
    operation to the graph. *)
Lemma compose_layer_skips idx layer ltype id g :
  get layer (lit "type") = Ok ltype -> is_media ltype = true ->
  get layer (lit "id") = Ok id -> hashable id = Ok id ->
  assoc key_eq idx id = None ->
  compose_layer repr_container tmp_dir can_write sc width height idx layer g = Ok g.
Proof.
  intros Ht Hm Hid Hh Hn. unfold compose_layer. rewrite Ht. cbn [bind].
  fold (is_media ltype). rewrite Hm. unfold overlay_layer.
  rewrite Hid. cbn [bind]. rewrite Hh. cbn [bind]. now rewrite Hn.
Qed.

Lemma background_skips layer ltype l1 l2 :
  get layer (lit "type") = Ok ltype -> is_media ltype = true ->
  background sc (l1 ++ layer :: l2) = background sc (l1 ++ l2).
Proof.
  intros Ht Hm. induction l1 as [|l l1 IH]; simpl.
  - rewrite Ht. cbn [bind]. rewrite (media_not_solid _ Hm).
    now destruct (is_dict layer).
  - destruct (is_dict l); [|exact IH].
    destruct (get l (lit "type")) as [ty|e]; cbn [bind]; [|reflexivity].
    destruct (is_text ty (lit "solid")); [reflexivity | exact IH].
Qed.

Lemma unmaterialized_layer_is_left_out layer ltype id k l1 l2 :
  is_dict layer = true ->
  get layer (lit "type") = Ok ltype -> is_media ltype = true ->
  unmaterialized tmp_dir sc asset_paths layer ->
  z_key layer = Ok k ->
  get layer (lit "id") = Ok id -> hashable id = Ok id ->
  (forall inputs idx,
     add_inputs tmp_dir sc asset_paths (l1 ++ l2) ([], []) = Ok (inputs, idx) ->
     assoc key_eq idx id = None) ->
  compile_layers repr_container tmp_dir can_write sc width height asset_paths
    (l1 ++ layer :: l2)
  = compile_layers repr_container tmp_dir can_write sc width height asset_paths
      (l1 ++ l2).
Proof.
  intros Hd Ht Hm Hu Hk Hid Hh Hfree. unfold compile_layers.
  rewrite (background_skips layer ltype l1 l2 Ht Hm).
  destruct (background sc (l1 ++ l2)) as [bg|e]; cbn [bind]; [|reflexivity].
  rewrite (add_inputs_skips layer ltype l1 l2 _ Hd Ht Hm Hu).
  destruct (add_inputs tmp_dir sc asset_paths (l1 ++ l2) ([], []))
    as [[inputs idx]|e] eqn:Hin; cbn [bind]; [|reflexivity].
  pose proof (sorted_layers_remove layer k l1 l2 Hd Hk) as Hs.
  destruct (sorted_layers (l1 ++ layer :: l2)) as [s|e],
           (sorted_layers (l1 ++ l2)) as [s'|e']; cbn [bind];
    try contradiction; [|congruence].
  destruct Hs as (s1 & s2 & -> & ->).
  rewrite !compose_app.
  destruct (compose _ _ _ _ _ _ idx s1 base_graph) as [g|e]; cbn [bind];
    [|reflexivity].
  simpl compose.
  rewrite (compose_layer_skips idx layer ltype id g Ht Hm Hid Hh (Hfree _ _ eq_refl)).
  reflexivity.
Qed.

End Omission.

(** *** The render job *)

Section Job.
Variable repr_container : json -> str.
Variable FFMPEG_PATH : str.
Variable tmp_dir : str.
Variable http_get : str -> exn response.
Variable can_write : str -> bool.
Variable run : list str -> exn (Z * str).
Variable read_file : str -> exn bytes.
Variable upload_file_content : bytes -> str -> str -> str -> exn str.
Variable utcnow : Z.
Variable builtin_text : exc -> str.

Lemma raise_for_status_raises r :
  400 <= status_code r < 600 ->
  raise_for_status r = Raise (HTTPStatusError (status_code r)).
Proof.
  intros H. unfold raise_for_status.
  destruct (200 <=? status_code r) eqn:E1, (status_code r <? 300) eqn:E2;
    try reflexivity.
  apply Z.leb_le in E1. apply Z.ltb_lt in E2. lia.
Qed.

(** Some download answering with an error status makes the loop raise,
    at that download or before. *)
Lemma prepare_loop_fails fields : forall asset_paths field_id url r,
  In (field_id, JStr url) fields ->
  startswith url (lit "http") = true ->
  http_get url = Ok r ->
  400 <= status_code r < 600 ->
  exists e, prepare_loop tmp_dir http_get can_write fields asset_paths = Raise e.
Proof.
  induction fields as [|[k v] fields IH]; intros ap field_id url r Hin Hs Hg Hr;
    [contradiction|].
  destruct Hin as [Heq|Hin].
  - inversion Heq; subst. simpl. rewrite Hs, Hg. cbn [bind].
    rewrite (raise_for_status_raises r Hr). cbn [bind]. eauto.
  - simpl.
    assert (Hrest : forall ap', exists e,
               prepare_loop tmp_dir http_get can_write fields ap' = Raise e)
      by (intros ap'; eapply IH; eauto).
    destruct v; try apply Hrest.
    destruct (startswith s (lit "http")); [|apply Hrest].
    destruct (http_get s) as [r'|e]; cbn [bind]; [|eauto].
    destruct (raise_for_status r') as [u|e]; cbn [bind]; [|eauto].
    destruct (asset_ext s r') as [ext|e]; cbn [bind]; [|eauto].
    destruct (open_write can_write _) as [u'|e]; cbn [bind]; [|eauto].
    apply Hrest.
Qed.

Lemma failed_download_fails_the_job t ut fields field_id url r fmt quality wm :
  customizations ut = JDict fields ->
  In (field_id, JStr url) fields ->
  startswith url (lit "http") = true ->
  http_get url = Ok r ->
  400 <= status_code r < 600 ->
  exists e,
    render_job repr_container FFMPEG_PATH tmp_dir http_get can_write run read_file
      upload_file_content utcnow builtin_text (Some t) ut fmt quality wm
    = [with_progress ut 10;
       with_failure (with_progress ut 10) (error_text builtin_text e)].
Proof.
  intros Hc Hin Hs Hg Hr. unfold render_job, _prepare_assets.
  cbn [customizations with_progress]. rewrite Hc.
  destruct fields as [|f fields]; [contradiction|].
  unfold or_, items. cbn [truthy bind].
  destruct (prepare_loop_fails (f :: fields) [] field_id url r Hin Hs Hg Hr)
    as [e He].
  rewrite He. eauto.
Qed.


End Job.

(** C1, as stated, fails: with two image layers whose URLs are both
    given, one of them answering 404, the job does not complete with the
    surviving layer; the download raises and the job ends [failed],
    without output. *)
Lemma download_404_fails_the_render :
  demo_http (lit "https://cdn.example/bottom.png")
    = Ok {| status_code := 404; content_type := None; content := [] |}
  /\ demo_render (job_with both_urls rendering None)
     = [with_progress (job_with both_urls rendering None) 10;
        with_failure (with_progress (job_with both_urls rendering None) 10)
          (lit "error")]
  /\ status (last (demo_render (job_with both_urls rendering None))
                  (job_with both_urls rendering None)) = failed
  /\ output_url (last (demo_render (job_with both_urls rendering None))
                      (job_with both_urls rendering None)) = None.
Proof. repeat split; vm_compute; reflexivity. Qed.

(** C1, amended. A video/image layer for which no local input exists
    (its placeholder is not among the downloaded assets and its source is
    not a path under the temporary directory) is silently left out: the
    compiled result is that of the template without the layer, so it
    contributes no input and no overlay and the other layers are compiled
    as before.  A download that answers with an HTTP error status (4xx or
    5xx, e.g. 404) is fatal: the job stops at progress 10 and ends
    [failed] with the exception's message and no output. *)
Theorem missing_input_left_out_failed_download_fatal :
  (forall repr_container tmp_dir can_write sc width height asset_paths
          layer ltype id k l1 l2,
     is_dict layer = true ->
     get layer (lit "type") = Ok ltype -> is_media ltype = true ->
     unmaterialized tmp_dir sc asset_paths layer ->
     z_key layer = Ok k ->
     get layer (lit "id") = Ok id -> hashable id = Ok id ->
     (forall inputs idx,
        add_inputs tmp_dir sc asset_paths (l1 ++ l2) ([], []) = Ok (inputs, idx) ->
        assoc key_eq idx id = None) ->
     compile_layers repr_container tmp_dir can_write sc width height asset_paths
       (l1 ++ layer :: l2)
     = compile_layers repr_container tmp_dir can_write sc width height asset_paths
         (l1 ++ l2))
  /\ (forall repr_container FFMPEG_PATH tmp_dir http_get can_write run read_file
             upload_file_content utcnow builtin_text
             t ut fields field_id url r fmt quality wm,
        customizations ut = JDict fields ->
        In (field_id, JStr url) fields ->
        startswith url (lit "http") = true ->
        http_get url = Ok r ->
        400 <= status_code r < 600 ->
        exists e,
          render_job repr_container FFMPEG_PATH tmp_dir http_get can_write run
            read_file upload_file_content utcnow builtin_text (Some t) ut
            fmt quality wm
          = [with_progress ut 10;
             with_failure (with_progress ut 10) (error_text builtin_text e)]).
Proof.
  split.
  - intros. eapply unmaterialized_layer_is_left_out; eassumption.
  - intros. eapply failed_download_fails_the_job; eassumption.
Qed.

Lemma missing_input_left_out_failed_download_fatal_witness :
  compile_layers demo_repr demo_tmp demo_can_write (scene_of one_url) 1080 1920
    top_asset ([top_layer] ++ bottom_layer :: [])
  = compile_layers demo_repr demo_tmp demo_can_write (scene_of one_url) 1080 1920
      top_asset ([top_layer] ++ [])
  /\ exists e,
       demo_render (job_with both_urls rendering None)
       = [with_progress (job_with both_urls rendering None) 10;
          with_failure (with_progress (job_with both_urls rendering None) 10)
            (error_text demo_text e)].
Proof.
  split.
  - apply (proj1 missing_input_left_out_failed_download_fatal
             demo_repr demo_tmp demo_can_write (scene_of one_url) 1080 1920
             top_asset bottom_layer (txt "image") (txt "bottom") 1
             [top_layer] []); try reflexivity.
    + exists (txt "$placeholder.img_bottom"), (txt "ftp://files.example/bottom.png").
      repeat split; vm_compute; reflexivity.
    + intros inputs idx H. vm_compute in H. inversion H. reflexivity.
  - apply (proj2 missing_input_left_out_failed_download_fatal
             demo_repr (lit "/usr/bin/ffmpeg") demo_tmp demo_http demo_can_write
             demo_run demo_read demo_upload 0 demo_text demo_template
             (job_with both_urls rendering None)
             [(lit "img_top", txt "https://cdn.example/top.png");
              (lit "img_bottom", txt "https://cdn.example/bottom.png")]
             (lit "img_bottom") (lit "https://cdn.example/bottom.png")
             {| status_code := 404; content_type := None; content := [] |}
             (lit "mp4") (lit "high") false); try reflexivity.
    + right. left. reflexivity.
    + simpl. lia.
Defined.

(** The render of the same template goes through when the second image
    is a reference that is never downloaded: only the first image is
    composited. *)
Example undownloaded_source_still_renders :
  compile_layers demo_repr demo_tmp demo_can_write (scene_of one_url) 1080 1920
    top_asset [top_layer; bottom_layer]
  = Ok (txt "black",
        [lit "-loop"; lit "1"; lit "-i"; lit "/tmp/render/img_top.png"],
        [(txt "top", 1)],
        {| filter_lines :=
             [lit "[0:v]format=rgba[base]";
              lit "[1:v]format=rgba[ov0]";
              lit "[base][ov0]overlay=x=0:y=0:enable='between(t\,0.0\,15.0)'[v0]"];
           current_label := lit "[v0]";
           draw_index := 0;
           overlay_index := 1;
           text_files := [] |})
  /\ map status (demo_render (job_with one_url rendering None))
     = [rendering; rendering; rendering; completed].
Proof. split; vm_compute; reflexivity. Qed.

(** *** Values without tokens *)

Import Samples.

Ltac bind_cases H :=
  repeat match type of H with
         | bind ?c ?k = Ok _ =>
             let a := fresh "a" in
             let Ha := fresh "Ha" in
             apply bind_ok in H; destruct H as (a & Ha & H)
         | (if ?b then _ else _) = Ok _ => destruct b
         | match ?x with _ => _ end = Ok _ => destruct x
         end.

Lemma resolve_token_literal sc s :
  is_token s = false -> resolve_token sc (JStr s) = Ok (JStr s).
Proof.
  unfold is_token. intros H.
  apply orb_false_iff in H. destruct H as [H H3].
  apply orb_false_iff in H. destruct H as [H1 H2].
  unfold resolve_token. now rewrite H1, H2, H3.
Qed.

(** X12. [resolve_obj] returns a value in which no text is a token as it
    is, whatever the scene: numbers, booleans, null, plain texts, and the
    lists and dicts made of them, at any depth. *)
Theorem resolve_obj_keeps_literals (sc : scene) (v : json) :
  token_free v = true -> resolve_obj sc v = Ok v.
Proof.
  induction v as [|b|z|f|s|l IHl|d IHd] using json_nested_ind; intros H;
    try reflexivity.
  - cbn [resolve_obj]. apply resolve_token_literal. now apply negb_true_iff.
  - cbn [token_free] in H. cbn [resolve_obj].
    match goal with |- bind ?X _ = _ => assert (E : X = Ok l) end.
    { induction l as [|x l IH]; [reflexivity|].
      cbn [forallb] in H. apply andb_prop in H. destruct H as [Hx Hl].
      inversion IHl as [|? ? Px Pl]; subst.
      rewrite (Px Hx). cbn [bind]. rewrite (IH Pl Hl). reflexivity. }
    rewrite E. reflexivity.
  - cbn [token_free] in H. cbn [resolve_obj].
    match goal with |- bind ?X _ = _ => assert (E : X = Ok d) end.
    { induction d as [|[k x] d IH]; [reflexivity|].
      cbn [forallb snd] in H. apply andb_prop in H. destruct H as [Hx Hd].
      inversion IHd as [|? ? Px Pd]; subst. cbn [snd] in Px.
      rewrite (Px Hx). cbn [bind]. rewrite (IH Pd Hd). reflexivity. }
    rewrite E. reflexivity.
Qed.

Lemma resolve_obj_keeps_literals_witness :
  resolve_obj titled_scene literal_transform = Ok literal_transform.
Proof. apply (resolve_obj_keeps_literals titled_scene literal_transform). reflexivity. Defined.

(** X13. Resolution keeps the shape of a value: a dict resolves to a dict
    with the same keys in the same order, each value being the resolution
    of the value it had; a list resolves to a list of the same length,
    element by element. *)
Theorem resolve_obj_keeps_keys_and_lengths (sc : scene) :
  (forall d v, resolve_obj sc (JDict d) = Ok v ->
     exists d', v = JDict d' /\ map fst d' = map fst d
                /\ Forall2 (fun x y => resolve_obj sc (snd x) = Ok (snd y)) d d')
  /\ (forall l v, resolve_obj sc (JList l) = Ok v ->
        exists l', v = JList l' /\ Forall2 (fun x y => resolve_obj sc x = Ok y) l l').
Proof.
  split.
  - intros d v H. cbn [resolve_obj] in H. bind_inv H as d' Hd'. injection H as <-.
    exists d'. split; [reflexivity|]. revert d' Hd'.
    induction d as [|[k x] d IH]; intros d' H.
    + injection H as <-. split; [reflexivity | constructor].
    + bind_inv H as x' Hx. bind_inv H as r' Hr. injection H as <-.
      destruct (IH _ Hr) as [E F]. split; [cbn [map fst]; now rewrite E|].
      constructor; [exact Hx | exact F].
  - intros l v H. cbn [resolve_obj] in H. bind_inv H as l' Hl'. injection H as <-.
    exists l'. split; [reflexivity|]. revert l' Hl'.
    induction l as [|x l IH]; intros l' H.
    + injection H as <-. constructor.
    + bind_inv H as x' Hx. bind_inv H as r' Hr. injection H as <-.
      constructor; [exact Hx | exact (IH _ Hr)].
Qed.

Lemma resolve_obj_keeps_keys_and_lengths_witness :
  exists d', resolve_obj titled_scene
               (obj [("text", txt "$placeholder.title"); ("size", JInt 48)]%string)
             = Ok (JDict d')
             /\ map fst d' = [lit "text"; lit "size"].
Proof.
  destruct (proj1 (resolve_obj_keeps_keys_and_lengths titled_scene)
              [(lit "text", txt "$placeholder.title"); (lit "size", JInt 48)]
              (JDict [(lit "text", txt "Untitled"); (lit "size", JInt 48)]))
    as (d' & E & K & _).
  - vm_compute. reflexivity.
  - exists d'. split; [rewrite <- E; vm_compute; reflexivity | exact K].
Defined.

(** *** Customized placeholders *)

Lemma placeholder_token_unfolds sc key :
  resolve_token sc (JStr (lit "$placeholder." ++ key))
  = (v <- get (custom sc) key ;;
     if truthy v then Ok v
     else
       phs <- get (definition sc) (lit "placeholders") ;;
       ph <- get (or_ phs (JDict [])) key ;;
       get (or_ ph (JDict [])) (lit "default")).
Proof.
  unfold resolve_token.
  assert (E0 : str_eqb (lit "$placeholder." ++ key) (lit "$duration") = false).
  { destruct (str_eqb _ _) eqn:E; [|reflexivity].
    apply str_eqb_eq in E. discriminate E. }
  rewrite E0.
  assert (E1 : startswith (lit "$placeholder." ++ key) (lit "$theme.colors.") = false)
    by reflexivity.
  rewrite E1, startswith_app, split_once_prefix by apply startswith_app.
  rewrite skipn_app, skipn_all, Nat.sub_diag. reflexivity.
Qed.

(** X14. When the customizations hold a value for a placeholder, the
    token resolves to that value if it is truthy; a falsy value (an empty
    text, 0, false, null, an empty list or dict) is passed over, and the
    token resolves as if the job customized nothing: to the default of
    the placeholder. *)
Theorem customization_wins_unless_falsy (sc : scene) (key : str)
    (c : list (str * json)) (v : json) :
  custom sc = JDict c -> lookup c key = Some v ->
  (truthy v = true ->
   resolve_token sc (JStr (lit "$placeholder." ++ key)) = Ok v)
  /\ (truthy v = false ->
      resolve_token sc (JStr (lit "$placeholder." ++ key))
      = resolve_token (without_customizations sc) (JStr (lit "$placeholder." ++ key))).
Proof.
  intros Hc Hv. rewrite !placeholder_token_unfolds.
  cbn [without_customizations custom definition]. rewrite Hc.
  unfold get, get_default. rewrite Hv. cbn [bind lookup truthy].
  split; intros Ht; rewrite Ht; reflexivity.
Qed.

Lemma customization_wins_unless_falsy_witness :
  resolve_token titled_scene (JStr (lit "$placeholder." ++ lit "name")) = Ok (txt "Asha")
  /\ resolve_token titled_scene (JStr (lit "$placeholder." ++ lit "title"))
     = resolve_token (without_customizations titled_scene)
         (JStr (lit "$placeholder." ++ lit "title")).
Proof.
  split.
  - apply (proj1 (customization_wins_unless_falsy titled_scene (lit "name")
                    [(lit "title", txt ""); (lit "name", txt "Asha")] (txt "Asha")
                    eq_refl eq_refl)).
    reflexivity.
  - apply (proj2 (customization_wins_unless_falsy titled_scene (lit "title")
                    [(lit "title", txt ""); (lit "name", txt "Asha")] (txt "")
                    eq_refl eq_refl)).
    reflexivity.
Defined.

(** *** The inputs of the command *)







(** *** The filter graph *)

Lemma join_last (sep : str) (pre : list str) (x : str) :
  exists p, join sep (pre ++ [x]) = p ++ x.
Proof.
  induction pre as [|a pre [p IH]].
  - exists []. reflexivity.
  - exists (a ++ sep ++ p). cbn [app].
    destruct (pre ++ [x]) as [|b rest] eqn:E; [now destruct pre|].
    change (join sep (a :: b :: rest)) with (a ++ sep ++ join sep (b :: rest)).
    rewrite IH. now rewrite <- !app_assoc.
Qed.

Section Graph.
Variable repr_container : json -> str.
Variable tmp_dir : str.
Variable can_write : str -> bool.
Variable sc : scene.
Variables width height : Z.

Lemma overlay_layer_inv idx ltype layer g g' :
  overlay_layer sc width height idx ltype layer g = Ok g' ->
  graph_inv tmp_dir can_write g -> graph_inv tmp_dir can_write g'.
Proof.
  unfold overlay_layer. intros H Inv.
  destruct Inv as ((pre & body & L) & D & N & W).
  assert (Same : graph_inv tmp_dir can_write g)
    by (split; [eauto | split; [exact D | split; [exact N | exact W]]]).
  bind_cases H; try (inversion H; subst; exact Same); apply Ok_inj in H; subst g';
    (split; [|split; [exact D | split; [exact N | exact W]]]);
    cbn [filter_lines current_label];
    match goal with
    | |- exists p b, ?l ++ [?s] ++ ?al ++ [?cur ++ ?ov ++ ?a1 ++ ?x ++ ?a2 ++ ?y
                                           ++ ?a3 ++ ?en ++ ?a4 ++ ?out] = _ =>
        exists (l ++ [s] ++ al),
               (cur ++ ov ++ a1 ++ x ++ a2 ++ y ++ a3 ++ en ++ a4);
        rewrite <- !app_assoc; reflexivity
    end.
Qed.

Lemma open_write_ok path u : open_write can_write path = Ok u -> can_write path = true.
Proof. unfold open_write. destruct (can_write path); [reflexivity | discriminate]. Qed.

Lemma text_layer_inv layer g g' :
  text_layer repr_container tmp_dir can_write sc layer g = Ok g' ->
  graph_inv tmp_dir can_write g -> graph_inv tmp_dir can_write g'.
Proof.
  unfold text_layer. intros H Inv.
  destruct Inv as ((pre & body & L) & D & N & W).
  assert (Same : graph_inv tmp_dir can_write g)
    by (split; [eauto | split; [exact D | split; [exact N | exact W]]]).
  destruct (get layer (lit "text")) as [tv|e]; cbn [bind] in H; [|discriminate].
  destruct (resolve_token sc tv) as [text_val|e]; cbn [bind] in H; [|discriminate].
  destruct text_val as [| | | |t| |]; try (inversion H; subst; exact Same).
  destruct (strip t) as [|c0 t0]; [inversion H; subst; exact Same|].
  repeat match type of H with
         | bind ?c ?k = Ok _ =>
             let a := fresh "a" in
             let Ha := fresh "Ha" in
             apply bind_ok in H; destruct H as (a & Ha & H)
         end.
  match goal with
  | Hw : open_write _ _ = Ok _ |- _ => apply open_write_ok in Hw; rename Hw into Hcw
  end.
  apply Ok_inj in H. subst g'. unfold graph_inv.
  cbn [filter_lines current_label draw_index text_files].
  split; [|split; [|split]].
  - eexists (filter_lines g), _. rewrite app_assoc. reflexivity.
  - rewrite D. cbn [List.length]. lia.
  - cbn [List.length map fst]. rewrite seq_S, rev_app_distr. cbn [rev app map].
    rewrite <- N. f_equal. unfold textfile_name. rewrite D.
    replace (Z.of_nat (1 + List.length (text_files g)))
      with (Z.of_nat (List.length (text_files g)) + 1) by lia.
    reflexivity.
  - apply Forall_cons; [exact Hcw | exact W].
Qed.

Lemma compose_layer_inv idx layer g g' :
  compose_layer repr_container tmp_dir can_write sc width height idx layer g = Ok g' ->
  graph_inv tmp_dir can_write g -> graph_inv tmp_dir can_write g'.
Proof.
  unfold compose_layer. intros H Inv. bind_inv H as ltype Ht.
  destruct (is_text ltype (lit "video") || is_text ltype (lit "image")).
  - eapply overlay_layer_inv; eassumption.
  - destruct (is_text ltype (lit "text")).
    + eapply text_layer_inv; eassumption.
    + now inversion H; subst.
Qed.

Lemma compose_inv idx layers : forall g g',
  compose repr_container tmp_dir can_write sc width height idx layers g = Ok g' ->
  graph_inv tmp_dir can_write g -> graph_inv tmp_dir can_write g'.
Proof.
  induction layers as [|l layers IH]; simpl; intros g g' H Inv.
  - now inversion H; subst.
  - bind_inv H as g1 H1. eapply IH; [exact H|]. eapply compose_layer_inv; eassumption.
Qed.

Lemma base_graph_inv : graph_inv tmp_dir can_write base_graph.
Proof.
  split; [|split; [|split]]; try reflexivity; [|constructor].
  exists [], (lit "[0:v]format=rgba"). reflexivity.
Qed.

End Graph.

(** X16. The filter graph handed to the encoder ends in the label that is
    mapped as the output: the text of [filter_complex], the operations
    joined by ";", ends with [current_label], whatever the layers. *)
Theorem graph_ends_in_the_mapped_label repr_container tmp_dir can_write sc
    width height asset_paths layers bg inputs idx g :
  compile_layers repr_container tmp_dir can_write sc width height asset_paths layers
    = Ok (bg, inputs, idx, g) ->
  exists body, join (lit ";") (filter_lines g) = body ++ current_label g.
Proof.
  intros H. apply compile_layers_composes in H. destruct H as (sorted & _ & H).
  apply compose_inv in H; [|apply base_graph_inv].
  destruct H as ((pre & body & L) & _). rewrite L.
  destruct (join_last (lit ";") pre (body ++ current_label g)) as [p E].
  exists (p ++ body). rewrite <- app_assoc. exact E.
Qed.

Lemma captioned_compiles :
  compile_layers demo_repr demo_tmp demo_can_write (scene_of both_urls)
    1080 1920 both_assets captioned_layers
  = Ok (txt "black", two_inputs, two_indexes, captioned_graph).
Proof. vm_compute. reflexivity. Qed.

Lemma graph_ends_in_the_mapped_label_witness :
  exists body,
    join (lit ";") (filter_lines captioned_graph) = body ++ current_label captioned_graph.
Proof.
  apply (graph_ends_in_the_mapped_label demo_repr demo_tmp demo_can_write
           (scene_of both_urls) 1080 1920 both_assets captioned_layers
           (txt "black") two_inputs two_indexes captioned_graph).
  vm_compute. reflexivity.
Defined.

(** X17. The text files of a compiled scene are text_1.txt, text_2.txt,
    ... in the temporary directory, numbered without gap in the order the
    text layers were drawn (the list holds the last one first); the
    counter equals their number, and each of them could be opened for
    writing. *)
Theorem text_files_are_numbered_in_order repr_container tmp_dir can_write sc
    width height asset_paths layers bg inputs idx g :
  compile_layers repr_container tmp_dir can_write sc width height asset_paths layers
    = Ok (bg, inputs, idx, g) ->
  draw_index g = Z.of_nat (List.length (text_files g))
  /\ map fst (text_files g)
     = map (textfile_name tmp_dir) (rev (seq 1 (List.length (text_files g))))
  /\ Forall (fun f => can_write (fst f) = true) (text_files g).
Proof.
  intros H. apply compile_layers_composes in H. destruct H as (sorted & _ & H).
  apply compose_inv in H; [|apply base_graph_inv]. apply H.
Qed.

Lemma text_files_are_numbered_in_order_witness :
  draw_index captioned_graph = 1
  /\ map fst (text_files captioned_graph) = [lit "/tmp/render/text_1.txt"].
Proof.
  destruct (text_files_are_numbered_in_order demo_repr demo_tmp demo_can_write
              (scene_of both_urls) 1080 1920 both_assets captioned_layers
              (txt "black") two_inputs two_indexes captioned_graph)
    as (D & N & _).
  - vm_compute. reflexivity.
  - split; [rewrite D; reflexivity | rewrite N; reflexivity].
Defined.

(** *** Downloaded assets *)

(** X18. The extension of an asset is always found, and a query string
    changes nothing: for a URL without "?", the extension with any query
    appended is that of the URL alone. *)
Theorem asset_ext_ignores_the_query (url : str) (r : response) :
  (exists ext, asset_ext url r = Ok ext)
  /\ (forall q, ~ In (ch "?") url ->
        asset_ext (url ++ lit "?" ++ q) r = asset_ext url r).
Proof.
  split.
  - unfold asset_ext, split_once. destruct (find url (lit "?") <? 0);
      cbn [index nth_error bind]; eauto.
  - intros q H. unfold asset_ext, split_once, find.
    change (lit "?") with [ch "?"]. cbn [app].
    rewrite (find_from_absent _ _ 0 H), (find_from_first _ _ q 0 H).
    assert (E : (0 + len url <? 0) = false) by (apply Z.ltb_ge; unfold len; lia).
    rewrite E. cbn [Z.ltb Z.compare index nth_error bind].
    replace (Z.to_nat (0 + len url)) with (List.length url) by (unfold len; lia).
    rewrite firstn_app, firstn_all, Nat.sub_diag. cbn [firstn]. now rewrite app_nil_r.
Qed.

Lemma asset_ext_ignores_the_query_witness :
  asset_ext (lit "https://cdn.example/a/top.PNG" ++ lit "?" ++ lit "v=2.jpg") png_response
  = asset_ext (lit "https://cdn.example/a/top.PNG") png_response.
Proof.
  apply (proj2 (asset_ext_ignores_the_query (lit "https://cdn.example/a/top.PNG")
                  png_response)).
  vm_compute. intuition discriminate.
Defined.

Lemma assign_str_in {V} (d : list (str * V)) k0 v k p :
  In (k, p) (assign str_eqb d k0 v) -> In (k, p) d \/ (k = k0 /\ p = v).
Proof.
  induction d as [|[k1 v1] d IH]; simpl.
  - intros [H|[]]. inversion H. now right.
  - destruct (str_eqb k1 k0) eqn:E; simpl.
    + apply str_eqb_eq in E. subst k1.
      intros [H|H]; [inversion H; now right | left; now right].
    + intros [H|H]; [left; now left|]. destruct (IH H) as [H'|H']; [left; now right | now right].
Qed.

Lemma assign_has_key {V} (d : list (str * V)) k v :
  assoc str_eqb (assign str_eqb d k v) k = Some v.
Proof.
  induction d as [|[k1 v1] d IH]; simpl.
  - now rewrite str_eqb_refl.
  - destruct (str_eqb k1 k) eqn:E; simpl; rewrite E; [reflexivity | exact IH].
Qed.

Lemma assign_keeps_keys {V} (d : list (str * V)) k0 v k :
  (exists p, assoc str_eqb d k = Some p) ->
  exists p, assoc str_eqb (assign str_eqb d k0 v) k = Some p.
Proof.
  induction d as [|[k1 v1] d IH]; simpl; intros [p H]; [discriminate|].
  destruct (str_eqb k1 k0) eqn:E0; simpl.
  - destruct (str_eqb k1 k); eauto.
  - destruct (str_eqb k1 k); eauto.
Qed.

Section Assets.
Variable tmp_dir : str.
Variable http_get : str -> exn response.
Variable can_write : str -> bool.

Lemma raise_for_status_ok r u : raise_for_status r = Ok u -> 200 <= status_code r < 300.
Proof.
  unfold raise_for_status.
  destruct (200 <=? status_code r) eqn:A; destruct (status_code r <? 300) eqn:B;
    try discriminate. intros _. apply Z.leb_le in A. apply Z.ltb_lt in B. lia.
Qed.

Lemma prepare_loop_sound fields : forall done ap ap',
  prepare_loop tmp_dir http_get can_write fields ap = Ok ap' ->
  (forall k p, In (k, p) ap ->
     downloaded tmp_dir http_get can_write (done ++ fields) k p) ->
  forall k p, In (k, p) ap' -> downloaded tmp_dir http_get can_write (done ++ fields) k p.
Proof.
  induction fields as [|[f v] fields IH]; intros done ap ap' H Hap k p Hin.
  - inversion H; subst. auto.
  - assert (Hskip : forall ap0,
              prepare_loop tmp_dir http_get can_write fields ap0 = Ok ap' ->
              (forall k p, In (k, p) ap0 ->
                 downloaded tmp_dir http_get can_write (done ++ (f, v) :: fields) k p) ->
              downloaded tmp_dir http_get can_write (done ++ (f, v) :: fields) k p).
    { intros ap0 H0 Hap0.
      replace (done ++ (f, v) :: fields) with ((done ++ [(f, v)]) ++ fields) in *
        by (now rewrite <- app_assoc).
      eapply IH; eauto. }
    cbn [prepare_loop] in H.
    destruct v as [| | | |url| |]; try (eapply Hskip; eassumption).
    destruct (startswith url (lit "http")) eqn:Es; [|eapply Hskip; eassumption].
    bind_inv H as r Hr. bind_inv H as u Hu. bind_inv H as ext He. bind_inv H as u' Hw.
    eapply Hskip; [exact H|]. intros k0 p0 Hin0.
    apply assign_str_in in Hin0. destruct Hin0 as [Hin0|[-> ->]]; [now apply Hap|].
    exists url, r, ext. repeat split; auto.
    + apply in_or_app. right. now left.
    + now apply raise_for_status_ok in Hu.
    + now apply raise_for_status_ok in Hu.
    + unfold open_write in Hw. destruct (can_write _); [reflexivity | discriminate].
Qed.

Lemma prepare_loop_keeps fields : forall ap ap' k,
  prepare_loop tmp_dir http_get can_write fields ap = Ok ap' ->
  (exists p, assoc str_eqb ap k = Some p) ->
  exists p, assoc str_eqb ap' k = Some p.
Proof.
  induction fields as [|[f v] fields IH]; intros ap ap' k H Hk.
  - now inversion H; subst.
  - cbn [prepare_loop] in H.
    destruct v as [| | | |url| |]; try (eapply IH; eassumption).
    destruct (startswith url (lit "http")); [|eapply IH; eassumption].
    bind_inv H as r Hr. bind_inv H as u Hu. bind_inv H as ext He. bind_inv H as u' Hw.
    eapply IH; [exact H|]. now apply assign_keeps_keys.
Qed.

Lemma prepare_loop_complete fields : forall ap ap' k url,
  prepare_loop tmp_dir http_get can_write fields ap = Ok ap' ->
  In (k, JStr url) fields -> startswith url (lit "http") = true ->
  exists p, assoc str_eqb ap' k = Some p.
Proof.
  induction fields as [|[f v] fields IH]; intros ap ap' k url H Hin Hs; [contradiction|].
  cbn [prepare_loop] in H. destruct Hin as [E|Hin].
  - inversion E; subst. rewrite Hs in H.
    bind_inv H as r Hr. bind_inv H as u Hu. bind_inv H as ext He. bind_inv H as u' Hw.
    eapply prepare_loop_keeps; [exact H|]. rewrite assign_has_key. eauto.
  - destruct v as [| | | |url'| |]; try (eapply IH; eassumption).
    destruct (startswith url' (lit "http")); [|eapply IH; eassumption].
    bind_inv H as r Hr. bind_inv H as u Hu. bind_inv H as ext He. bind_inv H as u' Hw.
    eapply IH; eassumption.
Qed.

Lemma prepare_assets_fields ut fields assets :
  customizations ut = JDict fields ->
  _prepare_assets tmp_dir http_get can_write ut = Ok assets ->
  prepare_loop tmp_dir http_get can_write fields [] = Ok assets.
Proof.
  intros Hc H. unfold _prepare_assets in H. rewrite Hc in H.
  destruct fields; exact H.
Qed.

End Assets.

(** X19. When [_prepare_assets] returns, its result holds exactly the
    customization fields whose value is a text starting with "http":
    every entry is such a field, downloaded with a 2xx answer and written
    to tmp_dir/field.ext, and every such field has an entry.  Other
    values (numbers, texts that are no URL) are passed over. *)
Theorem prepared_assets_are_the_downloaded_urls tmp_dir http_get can_write
    ut fields assets :
  customizations ut = JDict fields ->
  _prepare_assets tmp_dir http_get can_write ut = Ok assets ->
  (forall k p, In (k, p) assets -> downloaded tmp_dir http_get can_write fields k p)
  /\ (forall k url, In (k, JStr url) fields -> startswith url (lit "http") = true ->
        exists p, assoc str_eqb assets k = Some p).
Proof.
  intros Hc H. apply (prepare_assets_fields _ _ _ _ _ _ Hc) in H. split.
  - intros k p Hin.
    apply (prepare_loop_sound tmp_dir http_get can_write fields [] [] assets H);
      [contradiction | exact Hin].
  - intros k url Hin Hs. eapply prepare_loop_complete; eassumption.
Qed.

Lemma prepared_assets_are_the_downloaded_urls_witness :
  exists p, assoc str_eqb top_asset (lit "img_top") = Some p.
Proof.
  apply (proj2 (prepared_assets_are_the_downloaded_urls demo_tmp demo_http
                  demo_can_write (job_with one_url draft None)
                  [(lit "img_top", txt "https://cdn.example/top.png");
                   (lit "img_bottom", txt "ftp://files.example/bottom.png")]
                  top_asset eq_refl eq_refl)
           (lit "img_top") (lit "https://cdn.example/top.png")).
  - left. reflexivity.
  - reflexivity.
Defined.

(** *** The states a render commits *)

Section Render.
Variable repr_container : json -> str.
Variable FFMPEG_PATH : str.
Variable tmp_dir : str.
Variable http_get : str -> exn response.
Variable can_write : str -> bool.
Variable run : list str -> exn (Z * str).
Variable read_file : str -> exn bytes.
Variable upload_file_content : bytes -> str -> str -> str -> exn str.
Variable utcnow : Z.
Variable builtin_text : exc -> str.

(** X20. A render commits at least one state, and only the last one
    changes the status: it is failed, with an error message and the
    output URL, thumbnail URL and rendering time the job had, or it is
    completed, with progress 100, an output URL, a thumbnail URL, the
    current time, and the error message the job had. *)
Theorem render_job_ends_failed_or_completed (t : option template)
    (j : user_template) (fmt quality : str) (wm : bool) :
  let trace := render_job repr_container FFMPEG_PATH tmp_dir http_get can_write run
                 read_file upload_file_content utcnow builtin_text t j fmt quality wm in
  trace <> []
  /\ Forall (fun s => status s = status j) (removelast trace)
  /\ (ended_failed j (last trace j) \/ ended_completed utcnow j (last trace j)).
Proof.
  unfold render_job. destruct t as [t|].
  2: { cbn. repeat split; try discriminate; [constructor|].
       left. repeat split; discriminate. }
  destruct (_prepare_assets _ _ _ _) as [ap|e];
    [destruct (_render_video _ _ _ _ _ _ _ _ _ _ _) as [u|e];
     [destruct (publish _ _ _ _ _ _ _ _) as [[v th]|e]|]|];
    cbn [last removelast]; (split; [discriminate|]);
    (split; [repeat (apply Forall_cons; [reflexivity|]); apply Forall_nil|]);
    first [left; repeat split; discriminate | right; repeat split; discriminate].
Qed.

(** X21. No state a render commits changes the id, the owner, the
    template, the project, the title or the customizations of the job;
    the progress of the committed states never decreases, and when the
    template exists it takes the values 10, 40, 80 and 100 only. *)
Theorem render_job_progress_never_decreases (t : option template)
    (j : user_template) (fmt quality : str) (wm : bool) :
  Forall (same_identity j)
    (render_job repr_container FFMPEG_PATH tmp_dir http_get can_write run
       read_file upload_file_content utcnow builtin_text t j fmt quality wm)
  /\ StronglySorted Z.le
       (map render_progress
          (render_job repr_container FFMPEG_PATH tmp_dir http_get can_write run
             read_file upload_file_content utcnow builtin_text t j fmt quality wm))
  /\ (forall t' : template,
        Forall (fun s => In (render_progress s) [10; 40; 80; 100])
          (render_job repr_container FFMPEG_PATH tmp_dir http_get can_write run
             read_file upload_file_content utcnow builtin_text (Some t') j
             fmt quality wm)).
Proof.
  split; [|split].
  - unfold render_job. destruct t as [t|];
      [destruct (_prepare_assets _ _ _ _) as [ap|e];
       [destruct (_render_video _ _ _ _ _ _ _ _ _ _ _) as [u|e];
        [destruct (publish _ _ _ _ _ _ _ _) as [[v th]|e]|]|]|];
      repeat (apply Forall_cons; [repeat split; reflexivity|]); apply Forall_nil.
  - unfold render_job. destruct t as [t|];
      [destruct (_prepare_assets _ _ _ _) as [ap|e];
       [destruct (_render_video _ _ _ _ _ _ _ _ _ _ _) as [u|e];
        [destruct (publish _ _ _ _ _ _ _ _) as [[v th]|e]|]|]|];
      cbn [map render_progress with_progress with_failure with_output];
      repeat (apply SSorted_cons;
              [|repeat (apply Forall_cons; [lia|]); apply Forall_nil]);
      apply SSorted_nil.
  - intros t'. unfold render_job.
    destruct (_prepare_assets _ _ _ _) as [ap|e];
      [destruct (_render_video _ _ _ _ _ _ _ _ _ _ _) as [u|e];
       [destruct (publish _ _ _ _ _ _ _ _) as [[v th]|e]|]|];
      repeat (apply Forall_cons; [cbn; tauto|]); apply Forall_nil.
Qed.

(** X22. When the assets are prepared and the scene compiles but the
    encoder exits with a code other than 0, the render commits three
    states: progress 10, progress 40, and failed at progress 40 with the
    message "FFmpeg error: " followed by what the encoder wrote to its
    standard error. *)
Theorem encoder_failure_fails_the_job (t : template) (j : user_template)
    (fmt quality : str) (wm : bool) (assets : list (str * str)) (c : compiled)
    (returncode : Z) (stderr : str) :
  _prepare_assets tmp_dir http_get can_write (with_progress j 10) = Ok assets ->
  compile repr_container tmp_dir can_write t
    (with_progress (with_progress j 10) 40) assets = Ok c ->
  run (command repr_container FFMPEG_PATH c
         (path_join tmp_dir (lit "output." ++ fmt)) quality) = Ok (returncode, stderr) ->
  returncode <> 0 ->
  render_job repr_container FFMPEG_PATH tmp_dir http_get can_write run
    read_file upload_file_content utcnow builtin_text (Some t) j fmt quality wm
  = [with_progress j 10; with_progress (with_progress j 10) 40;
     with_failure (with_progress (with_progress j 10) 40)
       (lit "FFmpeg error: " ++ stderr)].
Proof.
  intros Ha Hc Hr Hn. unfold render_job. rewrite Ha.
  unfold _render_video. rewrite Hc. cbn [bind]. rewrite Hr. cbn [bind].
  apply Z.eqb_neq in Hn. rewrite Hn. reflexivity.
Qed.

End Render.

Lemma encoder_failure_fails_the_job_witness :
  map (fun s => (status s, render_progress s, error_message s))
    (render_job demo_repr (lit "/usr/bin/ffmpeg") demo_tmp demo_http demo_can_write
       failing_run demo_read demo_upload 0 demo_text (Some demo_template)
       (job_with one_url rendering None) (lit "mp4") (lit "high") false)
  = [(rendering, 10, None); (rendering, 40, None);
     (failed, 40,
      Some (lit "FFmpeg error: " ++ lit "Invalid data found when processing input"))].
Proof.
  destruct (compile demo_repr demo_tmp demo_can_write demo_template
              (with_progress (with_progress (job_with one_url rendering None) 10) 40)
              top_asset) as [c|e] eqn:Hc; [|vm_compute in Hc; discriminate Hc].
  rewrite (encoder_failure_fails_the_job demo_repr (lit "/usr/bin/ffmpeg") demo_tmp
             demo_http demo_can_write failing_run demo_read demo_upload 0 demo_text
             demo_template (job_with one_url rendering None) (lit "mp4") (lit "high")
             false top_asset c 1 (lit "Invalid data found when processing input")
             eq_refl Hc eq_refl ltac:(discriminate)).
  reflexivity.
Defined.

End TemplateFacts.

(* ===================================================================== *)
(** * Properties of the render endpoints                                   *)
(* ===================================================================== *)

Module EndpointFacts.
Import Py PyFacts Template Endpoints Demo.

Lemma find_replaced (p : user_template -> bool) (started : user_template) rows :
  p started = true ->
  (forall r, p r = true -> str_eqb (ut_id r) (ut_id started) = true) ->
  (exists j, In j rows /\ p j = true) ->
  List.find p
    (map (fun j' => if str_eqb (ut_id j') (ut_id started) then started else j') rows)
  = Some started.
Proof.
  intros Hs Hid. induction rows as [|r rows IH]; intros (j & Hin & Hj).
  - contradiction.
  - simpl. destruct (str_eqb (ut_id r) (ut_id started)) eqn:E.
    + now rewrite Hs.
    + destruct (p r) eqn:Hr; [rewrite (Hid r Hr) in E; discriminate|].
      apply IH. destruct Hin as [->|Hin]; [congruence | eauto].
Qed.

(** Whatever the status of the job: if it is the caller's and a credit is
    left, the start is accepted and the row becomes [rendering]. *)
Lemma start_sets_rendering db request current_user j :
  List.find (owned_job request current_user) (user_templates db) = Some j ->
  0 < credits_remaining current_user ->
  exists resp task db',
    Endpoints.render_template db request current_user = (inr (resp, task), db')
    /\ rs_status resp = rendering
    /\ tk_user_template_id task = ut_id j
    /\ find_job db' (ut_id j) = Some (with_status j rendering)
    /\ List.find (owned_job request current_user) (user_templates db')
       = Some (with_status j rendering).
Proof.
  intros Hf Hc. unfold Endpoints.render_template. rewrite Hf.
  assert (E : (credits_remaining current_user <=? 0) = false) by (apply Z.leb_gt; lia).
  rewrite E. do 3 eexists. split; [reflexivity|].
  destruct (find_some _ _ Hf) as [Hin Hp].
  unfold owned_job in Hp. apply andb_prop in Hp. destruct Hp as [Hid Hu].
  apply str_eqb_eq in Hid.
  repeat split; unfold find_job; cbn [user_templates store_job].
  - apply find_replaced.
    + apply str_eqb_refl.
    + auto.
    + exists j. split; [exact Hin | apply str_eqb_refl].
  - apply find_replaced.
    + unfold owned_job. cbn [ut_id user_id with_status].
      rewrite Hu. rewrite Hid. now rewrite str_eqb_refl.
    + intros r Hr. unfold owned_job in Hr. apply andb_prop in Hr.
      destruct Hr as [Hr _]. cbn [ut_id with_status]. now rewrite Hid.
    + exists j. split; [exact Hin|]. unfold owned_job.
      rewrite Hu, Hid. now rewrite str_eqb_refl.
Qed.









(** *** What a render and a start leave alone *)

Import Samples.

Lemma find_other_id (J : user_template) (id' : str) rows :
  id' <> ut_id J ->
  List.find (fun j => str_eqb (ut_id j) id')
    (map (fun j' => if str_eqb (ut_id j') (ut_id J) then J else j') rows)
  = List.find (fun j => str_eqb (ut_id j) id') rows.
Proof.
  intros Hne. induction rows as [|r rows IH]; [reflexivity|]. simpl.
  destruct (str_eqb (ut_id r) (ut_id J)) eqn:E.
  - apply str_eqb_eq in E.
    assert (E1 : str_eqb (ut_id J) id' = false).
    { destruct (str_eqb (ut_id J) id') eqn:E1; [|reflexivity].
      apply str_eqb_eq in E1. congruence. }
    rewrite E, E1. exact IH.
  - destruct (str_eqb (ut_id r) id'); [reflexivity | exact IH].
Qed.

Lemma map_replace_ids (J : user_template) rows :
  map ut_id (map (fun j' => if str_eqb (ut_id j') (ut_id J) then J else j') rows)
  = map ut_id rows.
Proof.
  induction rows as [|r rows IH]; [reflexivity|]. simpl. rewrite IH.
  destruct (str_eqb (ut_id r) (ut_id J)) eqn:E; [|reflexivity].
  apply str_eqb_eq in E. now rewrite E.
Qed.

Section Service.
Variable repr_container : json -> str.
Variable FFMPEG_PATH : str.
Variable tmp_dir : str.
Variable http_get : str -> exn response.
Variable can_write : str -> bool.
Variable run : list str -> exn (Z * str).
Variable read_file : str -> exn bytes.
Variable upload_file_content : bytes -> str -> str -> str -> exn str.
Variable utcnow : Z.
Variable builtin_text : exc -> str.

Lemma last_state_keeps_id t j fmt quality wm :
  ut_id (last (render_job repr_container FFMPEG_PATH tmp_dir http_get can_write run
                 read_file upload_file_content utcnow builtin_text t j fmt quality wm) j)
  = ut_id j.
Proof.
  unfold render_job. destruct t as [t|];
    [destruct (_prepare_assets _ _ _ _) as [ap|e];
     [destruct (_render_video _ _ _ _ _ _ _ _ _ _ _) as [u|e];
      [destruct (publish _ _ _ _ _ _ _ _) as [[v th]|e]|]|]|]; reflexivity.
Qed.

(** X23. The background render writes one row only: the templates and
    the users are unchanged, the rows of the jobs keep their ids and
    their order, every other job is found as before, and the job itself
    is found in the last state the render committed.  For an id that is
    no job nothing is committed and the tables are unchanged. *)
Theorem render_touches_only_its_job (db : database) (id fmt quality : str) (wm : bool) :
  let result := Template.render_template repr_container FFMPEG_PATH tmp_dir http_get
                  can_write run read_file upload_file_content utcnow builtin_text
                  db id fmt quality wm in
  templates (snd result) = templates db
  /\ users (snd result) = users db
  /\ map ut_id (user_templates (snd result)) = map ut_id (user_templates db)
  /\ (forall id', id' <> id -> find_job (snd result) id' = find_job db id')
  /\ (forall j, find_job db id = Some j ->
        find_job (snd result) id = Some (last (fst result) j))
  /\ (find_job db id = None -> result = ([], db)).
Proof.
  unfold Template.render_template. destruct (find_job db id) as [j|] eqn:Hj.
  2: { cbn. repeat split; auto; discriminate. }
  cbn [fst snd store_job templates users user_templates].
  destruct (find_some _ _ Hj) as [Hin Hid]. apply str_eqb_eq in Hid.
  pose proof (last_state_keeps_id (find_template db (template_id j)) j fmt quality wm)
    as Hl.
  repeat split.
  - apply map_replace_ids.
  - intros id' Hne. unfold find_job. cbn [user_templates].
    apply find_other_id. congruence.
  - intros j' E. injection E as <-. unfold find_job. cbn [user_templates].
    apply (find_replaced (fun j0 => str_eqb (ut_id j0) id)).
    + apply str_eqb_eq. congruence.
    + intros r Hr. apply str_eqb_eq in Hr. apply str_eqb_eq. congruence.
    + exists j. split; [exact Hin|]. apply str_eqb_eq. congruence.
  - discriminate.
Qed.

End Service.

Lemma render_touches_only_its_job_witness :
  templates after_render = templates after_start
  /\ users after_render = users after_start
  /\ find_job after_render (lit "J2") = find_job after_start (lit "J2").
Proof.
  destruct (render_touches_only_its_job demo_repr (lit "/usr/bin/ffmpeg") demo_tmp
              demo_http demo_can_write demo_run demo_read demo_upload 0 demo_text
              after_start (lit "J1") (lit "mp4") (lit "high") false)
    as (A & B & _ & C & _).
  split; [exact A|]. split; [exact B|]. apply C. discriminate.
Defined.

(** *** Creating a job *)

Lemma find_app_fresh {A} (p : A -> bool) (l : list A) (x : A) :
  List.find p l = None -> p x = true -> List.find p (l ++ [x]) = Some x.
Proof.
  induction l as [|a l IH]; simpl; intros H Hx; [now rewrite Hx|].
  destruct (p a); [discriminate | auto].
Qed.

Lemma find_counted (tid id : str) (ts : list template) :
  option_map usage_count
    (List.find (fun t => str_eqb (t_id t) id)
       (map (fun t' =>
               if str_eqb (t_id t') tid
               then {| t_id := t_id t'; is_premium := is_premium t';
                       usage_count := usage_count t' + 1;
                       t_duration_seconds := t_duration_seconds t';
                       t_fps := t_fps t'; t_width := t_width t';
                       t_height := t_height t';
                       template_data := template_data t' |}
               else t') ts))
  = option_map (fun t => usage_count t + (if str_eqb id tid then 1 else 0))
      (List.find (fun t => str_eqb (t_id t) id) ts).
Proof.
  induction ts as [|t ts IH]; [reflexivity|]. cbn [map List.find].
  destruct (str_eqb (t_id t) tid) eqn:E1; cbn [t_id].
  - destruct (str_eqb (t_id t) id) eqn:E2; [|exact IH].
    apply str_eqb_eq in E1, E2. cbn [option_map usage_count].
    assert (E : str_eqb id tid = true) by (apply str_eqb_eq; congruence).
    now rewrite E.
  - destruct (str_eqb (t_id t) id) eqn:E2; [|exact IH].
    cbn [option_map]. apply str_eqb_eq in E2.
    assert (E : str_eqb id tid = false).
    { destruct (str_eqb id tid) eqn:E; [|reflexivity]. apply str_eqb_eq in E.
      rewrite E2, E, str_eqb_refl in E1. discriminate E1. }
    rewrite E. f_equal. lia.
Qed.

(** X24. An accepted [use_template] appends one row, owned by the caller,
    for the template, with the customizations of the request and progress
    0, and adds 1 to the usage count of that template and of no other;
    the users are unchanged, and when the new id was free the job is
    found under it.  A refusal is 404 or 403 and changes nothing. *)
Theorem use_template_counts_one_use (db : database) (new_id tid : str)
    (request : create_request) (current_user : user) :
  (forall row db',
     use_template db new_id tid request current_user = (inr row, db') ->
     user_templates db' = user_templates db ++ [row]
     /\ users db' = users db
     /\ ut_id row = new_id /\ user_id row = u_id current_user
     /\ template_id row = tid /\ customizations row = rq_customizations request
     /\ render_progress row = 0
     /\ (forall id,
           option_map usage_count (find_template db' id)
           = option_map (fun t => usage_count t + (if str_eqb id tid then 1 else 0))
               (find_template db id))
     /\ (find_job db new_id = None -> find_job db' new_id = Some row))
  /\ (forall e db',
        use_template db new_id tid request current_user = (inl e, db') ->
        db' = db /\ (e = Not_found \/ e = Forbidden)).
Proof.
  unfold use_template. split.
  - intros row db' H. destruct (find_template db tid) as [t|]; [|discriminate].
    destruct (is_premium t && _); [discriminate|].
    injection H as <- <-. cbn.
    repeat split.
    + intros id. unfold find_template. cbn [templates]. apply find_counted.
    + intros Hf. unfold find_job in *. cbn [user_templates].
      apply find_app_fresh; [exact Hf | apply str_eqb_refl].
  - intros e db' H. destruct (find_template db tid) as [t|].
    + destruct (is_premium t && _); [|discriminate]. injection H as <- <-. auto.
    + injection H as <- <-. auto.
Qed.

Lemma use_template_counts_one_use_witness :
  option_map usage_count (find_template after_create (lit "T1")) = Some 1
  /\ find_job after_create (lit "J1")
     = Some (job_with one_url draft None).
Proof.
  destruct (proj1 (use_template_counts_one_use empty_db (lit "J1") (lit "T1")
                     create_reel (caller empty_db))
              (job_with one_url draft None) after_create eq_refl)
    as (_ & _ & _ & _ & _ & _ & _ & Hc & Hj).
  split.
  - rewrite (Hc (lit "T1")). reflexivity.
  - apply Hj. reflexivity.
Defined.

(** *** The credit of a start *)

Lemma find_user_charged (cu : user) (id : str) (us : list user) :
  option_map credits_remaining
    (List.find (fun u => str_eqb (u_id u) id)
       (map (fun u =>
               if str_eqb (u_id u) (u_id cu)
               then {| u_id := u_id u; subscription_tier := subscription_tier u;
                       credits_remaining := credits_remaining cu - 1 |}
               else u) us))
  = option_map (fun u => if str_eqb id (u_id cu) then credits_remaining cu - 1
                         else credits_remaining u)
      (List.find (fun u => str_eqb (u_id u) id) us).
Proof.
  induction us as [|u us IH]; [reflexivity|]. cbn [map List.find].
  destruct (str_eqb (u_id u) (u_id cu)) eqn:E1; cbn [u_id].
  - destruct (str_eqb (u_id u) id) eqn:E2; [|exact IH].
    apply str_eqb_eq in E1, E2. cbn [option_map credits_remaining].
    assert (E : str_eqb id (u_id cu) = true) by (apply str_eqb_eq; congruence).
    now rewrite E.
  - destruct (str_eqb (u_id u) id) eqn:E2; [|exact IH].
    cbn [option_map]. apply str_eqb_eq in E2.
    assert (E : str_eqb id (u_id cu) = false).
    { destruct (str_eqb id (u_id cu)) eqn:E; [|reflexivity]. apply str_eqb_eq in E.
      rewrite E2, E, str_eqb_refl in E1. discriminate E1. }
    now rewrite E.
Qed.

Lemma start_charges (db : database) (request : render_request)
    (current_user : user) resp task db' :
  Endpoints.render_template db request current_user = (inr (resp, task), db') ->
  forall id,
    option_map credits_remaining (find_user db' id)
    = option_map (fun u => if str_eqb id (u_id current_user)
                           then credits_remaining current_user - 1
                           else credits_remaining u)
        (find_user db id).
Proof.
  unfold Endpoints.render_template.
  destruct (List.find _ _) as [j|]; [|discriminate].
  destruct (credits_remaining current_user <=? 0); [discriminate|].
  intros H. injection H as <- <- <-.
  intros id. unfold find_user. cbn [users]. apply find_user_charged.
Qed.

(** X25. An accepted start was made with a credit left and costs the
    caller exactly one: the balance stored for the caller's id is the
    balance of the request minus 1, the other users keep theirs, the
    templates and every other job are unchanged, and the scheduled task
    carries the job id, format, quality and watermark of the request. *)
Theorem start_costs_one_credit (db : database) (request : render_request)
    (current_user : user) resp task db' :
  Endpoints.render_template db request current_user = (inr (resp, task), db') ->
  0 < credits_remaining current_user
  /\ templates db' = templates db
  /\ map ut_id (user_templates db') = map ut_id (user_templates db)
  /\ (forall id, id <> rq_user_template_id request -> find_job db' id = find_job db id)
  /\ (forall id,
        option_map credits_remaining (find_user db' id)
        = option_map (fun u => if str_eqb id (u_id current_user)
                               then credits_remaining current_user - 1
                               else credits_remaining u)
            (find_user db id))
  /\ tk_user_template_id task = rq_user_template_id request
  /\ tk_output_format task = rq_output_format request
  /\ tk_quality task = rq_quality request
  /\ tk_watermark task = rq_watermark request.
Proof.
  unfold Endpoints.render_template.
  destruct (List.find _ _) as [j|] eqn:Hj; [|discriminate].
  destruct (credits_remaining current_user <=? 0) eqn:Hc; [discriminate|].
  intros H. injection H as <- <- <-. apply Z.leb_gt in Hc.
  destruct (find_some _ _ Hj) as [Hin Hown]. unfold owned_job in Hown.
  apply andb_prop in Hown. destruct Hown as [Hid _]. apply str_eqb_eq in Hid.
  cbn [templates users user_templates store_job tk_user_template_id tk_output_format
       tk_quality tk_watermark ut_id with_status].
  repeat split; auto.
  - apply (map_replace_ids (with_status j rendering)).
  - intros id Hne. unfold find_job. cbn [user_templates].
    apply (find_other_id (with_status j rendering)). cbn [ut_id with_status]. congruence.
  - intros id. unfold find_user. cbn [users]. apply find_user_charged.
Qed.

Lemma start_costs_one_credit_witness :
  option_map credits_remaining (find_user after_start (lit "U1")) = Some 4.
Proof.
  destruct (Endpoints.render_template after_create start_J1 (caller after_create))
    as [[e|[resp task]] db'] eqn:E; [vm_compute in E; discriminate E|].
  destruct (start_costs_one_credit after_create start_J1 (caller after_create)
              resp task db' E) as (_ & _ & _ & _ & Hc & _).
  assert (Edb : after_start = db') by (unfold after_start; now rewrite E).
  rewrite Edb, (Hc (lit "U1")). reflexivity.
Defined.

(** *** Polling *)

(** X26. Polling after an accepted start reports the row as it is
    stored, when the stored progress is between 0 and 100: status
    rendering, and the progress, output URL, thumbnail URL and error
    message the job had before the start, not the progress 0 of the
    start's answer.  For a job that does not exist or belongs to another
    user both the start and the poll answer 404.  For a job of the caller
    whose stored progress is below 0 or above 100 the poll raises
    [ValidationError]: the response model bounds the progress. *)
Theorem poll_reports_the_stored_row :
  (forall db request current_user j,
     List.find (owned_job request current_user) (user_templates db) = Some j ->
     0 < credits_remaining current_user ->
     0 <= render_progress j <= 100 ->
     get_render_status (snd (Endpoints.render_template db request current_user))
       (rq_user_template_id request) current_user
     = Ok (inr {| sr_user_template_id := ut_id j; sr_status := rendering;
                  sr_progress := render_progress j; sr_output_url := output_url j;
                  sr_thumbnail_url := thumbnail_url j;
                  sr_error_message := error_message j |}))
  /\ (forall db request current_user,
        List.find (owned_job request current_user) (user_templates db) = None ->
        Endpoints.render_template db request current_user = (inl Not_found, db)
        /\ get_render_status db (rq_user_template_id request) current_user
           = Ok (inl Not_found))
  /\ (forall db request current_user j,
        List.find (owned_job request current_user) (user_templates db) = Some j ->
        render_progress j < 0 \/ 100 < render_progress j ->
        get_render_status db (rq_user_template_id request) current_user
        = Raise ValidationError).
Proof.
  split; [|split].
  - intros db request cu j Hj Hc Hp.
    destruct (start_sets_rendering db request cu j Hj Hc)
      as (resp & task & db' & E & _ & _ & _ & Hf).
    rewrite E. cbn [snd]. unfold get_render_status.
    change (List.find (owned_job request cu) (user_templates db')
            = Some (with_status j rendering)) in Hf.
    unfold owned_job in Hf. rewrite Hf. unfold RenderStatusResponse.
    cbn [render_progress with_status].
    assert (E1 : (0 <=? render_progress j) = true) by (apply Z.leb_le; lia).
    assert (E2 : (render_progress j <=? 100) = true) by (apply Z.leb_le; lia).
    rewrite E1, E2. reflexivity.
  - intros db request cu Hn. split.
    + unfold Endpoints.render_template. now rewrite Hn.
    + unfold get_render_status. unfold owned_job in Hn. now rewrite Hn.
  - intros db request cu j Hj Hp. unfold get_render_status.
    unfold owned_job in Hj. rewrite Hj. unfold RenderStatusResponse.
    assert (E : (0 <=? render_progress j) && (render_progress j <=? 100) = false).
    { apply andb_false_iff. destruct Hp as [Hp|Hp]; [left | right];
        apply Z.leb_gt; exact Hp. }
    rewrite E. reflexivity.
Qed.

Lemma poll_reports_the_stored_row_witness :
  get_render_status
    (snd (Endpoints.render_template (db_with (with_progress finished_job 100))
            start_J1 demo_user))
    (lit "J1") demo_user
  = Ok (inr {| sr_user_template_id := lit "J1"; sr_status := rendering;
               sr_progress := 100;
               sr_output_url :=
                 Some (lit "https://storage.example/renders/U1/reel.mp4");
               sr_thumbnail_url :=
                 Some (lit "https://storage.example/renders/U1/reel.mp4");
               sr_error_message := None |})
  /\ get_render_status (db_with finished_job) (lit "J1") other_user
     = Ok (inl Not_found)
  /\ get_render_status (db_with (with_progress finished_job 140)) (lit "J1") demo_user
     = Raise ValidationError.
Proof.
  split; [|split].
  - apply (proj1 poll_reports_the_stored_row
             (db_with (with_progress finished_job 100)) start_J1 demo_user
             (with_progress finished_job 100) eq_refl eq_refl).
    split; discriminate.
  - apply (proj2 (proj1 (proj2 poll_reports_the_stored_row)
                    (db_with finished_job) start_J1 other_user eq_refl)).
  - apply (proj2 (proj2 poll_reports_the_stored_row)
             (db_with (with_progress finished_job 140)) start_J1 demo_user
             (with_progress finished_job 140) eq_refl).
    right. reflexivity.
Defined.

(** *** Starting again and again *)

Lemma owned_by_same_id request (u u' : user) :
  u_id u' = u_id u -> owned_job request u' = owned_job request u.
Proof. intros E. unfold owned_job. now rewrite E. Qed.

(** X27. The credits bound the number of starts: a user with k credits
    who starts a job of theirs k + 1 times in a row is accepted k times
    and then refused with 402, and is left with no credit. *)
Theorem credits_bound_the_number_of_starts (db : database) (request : render_request)
    (uid : str) (k : nat) (u : user) (j : user_template) :
  find_user db uid = Some u -> credits_remaining u = Z.of_nat k ->
  List.find (owned_job request u) (user_templates db) = Some j ->
  map refused_with (fst (start_repeatedly (S k) db request uid))
  = repeat None k ++ [Some Payment_required]
  /\ option_map credits_remaining
       (find_user (snd (start_repeatedly (S k) db request uid)) uid) = Some 0.
Proof.
  revert db u j. induction k as [|k IH]; intros db0 u j Hu Hk Hj.
  - cbn [start_repeatedly]. rewrite Hu.
    unfold Endpoints.render_template. rewrite Hj.
    assert (E : (credits_remaining u <=? 0) = true) by (apply Z.leb_le; lia).
    rewrite E. cbn. rewrite Hu. cbn. split; [reflexivity | now rewrite Hk].
  - change (start_repeatedly (S (S k)) db0 request uid)
      with (match find_user db0 uid with
            | None => ([], db0)
            | Some current_user =>
                let '(answer, db1) :=
                  Endpoints.render_template db0 request current_user in
                let '(answers, db2) := start_repeatedly (S k) db1 request uid in
                (answer :: answers, db2)
            end).
    rewrite Hu.
    assert (Hc : 0 < credits_remaining u) by lia.
    destruct (start_sets_rendering db0 request u j Hj Hc)
      as (resp & task & db1 & E & _ & _ & _ & Hf).
    rewrite E.
    pose proof (start_charges db0 request u resp task db1 E uid) as Hcr.
    rewrite Hu in Hcr. cbn [option_map] in Hcr.
    destruct (find_some _ _ Hu) as [_ Hid]. apply str_eqb_eq in Hid.
    assert (Eid : str_eqb uid (u_id u) = true) by (apply str_eqb_eq; congruence).
    rewrite Eid in Hcr.
    destruct (find_user db1 uid) as [u1|] eqn:Hu1; [|discriminate].
    cbn [option_map] in Hcr. injection Hcr as Hcr.
    destruct (find_some _ _ Hu1) as [_ Hid1]. apply str_eqb_eq in Hid1.
    assert (Hown : List.find (owned_job request u1) (user_templates db1)
                   = Some (with_status j rendering)).
    { rewrite (owned_by_same_id request u u1) by congruence. exact Hf. }
    destruct (IH db1 u1 (with_status j rendering) Hu1 ltac:(lia) Hown) as [A B].
    destruct (start_repeatedly (S k) db1 request uid) as [answers db2].
    cbn [fst snd] in *. split; [|exact B].
    cbn [map refused_with repeat app]. now rewrite A.
Qed.

Lemma credits_bound_the_number_of_starts_witness :
  map refused_with (fst (start_repeatedly 6 after_create start_J1 (lit "U1")))
  = [None; None; None; None; None; Some Payment_required].
Proof.
  apply (proj1 (credits_bound_the_number_of_starts after_create start_J1 (lit "U1")
                  5 demo_user (job_with one_url draft None)
                  eq_refl eq_refl eq_refl)).
Defined.

End EndpointFacts.

(* ================================================================== *)
(** * Facts about the catalogue of templates *)
(* ================================================================== *)

Module CatalogFacts.
Import Py PyFacts Template Catalog Samples.

Lemma name_eqb_eq a b : name_eqb a b = true <-> a = b.
Proof.
  destruct a as [s|], b as [t|]; simpl; split; try congruence.
  - intros H. apply str_eqb_eq in H. congruence.
  - intros H. injection H as ->. apply str_eqb_refl.
Qed.

Lemma name_eqb_refl a : name_eqb a a = true.
Proof. now apply name_eqb_eq. Qed.

Lemma name_eqb_neq a b : a <> b -> name_eqb a b = false.
Proof.
  intros H. destruct (name_eqb a b) eqn:E; [|reflexivity].
  apply name_eqb_eq in E. contradiction.
Qed.

Section Dict.
Context {V : Type}.
Implicit Types (d : list (option str * V)) (k : option str).

Lemma assoc_assign_same d k v : assoc name_eqb (assign name_eqb d k v) k = Some v.
Proof.
  induction d as [|[k1 v1] d IH]; simpl.
  - now rewrite name_eqb_refl.
  - destruct (name_eqb k1 k) eqn:E; simpl; rewrite E; [reflexivity | exact IH].
Qed.

Lemma assoc_assign_other d k v k' :
  k' <> k -> assoc name_eqb (assign name_eqb d k v) k' = assoc name_eqb d k'.
Proof.
  intros Hne. induction d as [|[k1 v1] d IH]; simpl.
  - rewrite name_eqb_neq by congruence. reflexivity.
  - destruct (name_eqb k1 k) eqn:E; simpl.
    + apply name_eqb_eq in E. subst k1.
      rewrite name_eqb_neq by congruence. reflexivity.
    + now rewrite IH.
Qed.

Lemma assoc_none_not_key d k : assoc name_eqb d k = None -> ~ In k (map fst d).
Proof.
  induction d as [|[k1 v1] d IH]; simpl; [tauto|].
  destruct (name_eqb k1 k) eqn:E; [discriminate|].
  intros H [H1|H1]; [|now apply IH].
  subst k1. rewrite name_eqb_refl in E. discriminate.
Qed.

Lemma keys_assign d k v :
  map fst (assign name_eqb d k v)
  = match assoc name_eqb d k with
    | Some _ => map fst d
    | None => map fst d ++ [k]
    end.
Proof.
  induction d as [|[k1 v1] d IH]; simpl; [reflexivity|].
  destruct (name_eqb k1 k) eqn:E; simpl; [reflexivity|].
  rewrite IH. now destruct (assoc name_eqb d k).
Qed.

Lemma in_assoc d k v : NoDup (map fst d) -> (In (k, v) d <-> assoc name_eqb d k = Some v).
Proof.
  induction d as [|[k1 v1] d IH]; simpl; intros Hn.
  - split; [tauto | discriminate].
  - inversion Hn as [|? ? Hk Hd]; subst. destruct (name_eqb k1 k) eqn:E.
    + apply name_eqb_eq in E. subst k1. split.
      * intros [H|H]; [congruence|]. exfalso. apply Hk.
        change k with (fst (k, v)). now apply in_map.
      * intros H. left. congruence.
    + split.
      * intros [H|H]; [|now apply IH].
        injection H as -> ->. rewrite name_eqb_refl in E. discriminate.
      * intros H. right. now apply IH.
Qed.

End Dict.

Lemma add_to_festival_inv templates festivals t :
  festivals_inv templates festivals ->
  festivals_inv (templates ++ [t]) (add_to_festival festivals t).
Proof.
  intros [Hn Hm]. unfold add_to_festival.
  set (n := festival_name t).
  assert (Ft : forall k, filter (named k) (templates ++ [t])
                         = filter (named k) templates
                           ++ (if name_eqb n k then [t] else [])).
  { intros k. rewrite filter_app. cbn [filter]. unfold named at 2. fold n.
    now destruct (name_eqb n k). }
  destruct (assoc name_eqb festivals n) as [f|] eqn:Ef.
  - rewrite Ef. split.
    + rewrite keys_assign, Ef. exact Hn.
    + intros k. destruct (name_eqb n k) eqn:E.
      * apply name_eqb_eq in E. subst k. rewrite assoc_assign_same.
        rewrite Ft, name_eqb_refl. rewrite Hm in Ef.
        destruct (filter (named n) templates) as [|t0 rest] eqn:Efil; [discriminate|].
        injection Ef as <-. unfold festival_of. rewrite Ft, name_eqb_refl, Efil.
        reflexivity.
      * rewrite assoc_assign_other
          by (intros ->; rewrite name_eqb_refl in E; discriminate).
        rewrite Hm, Ft, E, app_nil_r. unfold festival_of.
        now rewrite Ft, E, app_nil_r.
  - rewrite assoc_assign_same. split.
    + rewrite !keys_assign, Ef, assoc_assign_same.
      apply NoDup_app_remove_l with (l := []). cbn [app].
      apply Permutation_NoDup with (l := n :: map fst festivals).
      * apply Permutation_cons_append.
      * constructor; [now apply assoc_none_not_key | exact Hn].
    + intros k. destruct (name_eqb n k) eqn:E.
      * apply name_eqb_eq in E. subst k. rewrite assoc_assign_same.
        rewrite Ft, name_eqb_refl. rewrite Hm in Ef.
        destruct (filter (named n) templates) as [|t0 rest] eqn:Efil; [|discriminate].
        cbn [app]. unfold festival_of. rewrite Ft, name_eqb_refl, Efil. reflexivity.
      * assert (Hne : k <> n)
          by (intros ->; rewrite name_eqb_refl in E; discriminate).
        rewrite !assoc_assign_other by exact Hne.
        rewrite Hm, Ft, E, app_nil_r. unfold festival_of.
        now rewrite Ft, E, app_nil_r.
Qed.

Lemma fold_festivals_inv ts : forall done festivals,
  festivals_inv done festivals ->
  festivals_inv (done ++ ts) (fold_left add_to_festival ts festivals).
Proof.
  induction ts as [|t ts IH]; intros done festivals H; simpl.
  - now rewrite app_nil_r.
  - replace (done ++ t :: ts) with ((done ++ [t]) ++ ts) by (now rewrite <- app_assoc).
    apply IH. now apply add_to_festival_inv.
Qed.

(** X28. Grouping by festival partitions the templates: no two groups
    have the same festival name, there is a group for the festival name
    of every template and no other, each group holds exactly the
    templates of its name in the order they came, none is empty, and the
    date of a group is that of its first template. *)
Theorem festivals_partition_the_templates (templates : list listing) :
  NoDup (map f_name (group_by_festival templates))
  /\ (forall g, In g (group_by_festival templates) <->
                exists t, In t templates /\ g = festival_of templates (festival_name t))
  /\ (forall g, In g (group_by_festival templates) ->
        f_templates g = filter (named (f_name g)) templates
        /\ exists t rest, f_templates g = t :: rest /\ f_date g = festival_date t).
Proof.
  pose proof (fold_festivals_inv templates [] []) as H. cbn [app] in H.
  destruct H as [Hn Hm]; [split; [constructor | reflexivity]|].
  unfold group_by_festival.
  set (fs := fold_left add_to_festival templates []) in *.
  assert (Hin : forall g, In g (map snd fs) <->
            exists t, In t templates /\ g = festival_of templates (festival_name t)).
  { intros g. rewrite in_map_iff. split.
    - intros ([k f] & <- & Hkf). cbn [snd].
      apply (in_assoc _ _ _ Hn) in Hkf. rewrite Hm in Hkf.
      destruct (filter (named k) templates) as [|t0 rest] eqn:Ef; [discriminate|].
      injection Hkf as <-.
      assert (Ht : In t0 (filter (named k) templates)) by (rewrite Ef; now left).
      apply filter_In in Ht. destruct Ht as [Ht Hk]. apply name_eqb_eq in Hk.
      exists t0. split; [exact Ht | now rewrite Hk].
    - intros (t & Ht & ->). exists (festival_name t, festival_of templates (festival_name t)).
      split; [reflexivity|]. apply (in_assoc _ _ _ Hn). rewrite Hm.
      destruct (filter (named (festival_name t)) templates) as [|t0 rest] eqn:Ef;
        [|reflexivity].
      assert (Hf : In t (filter (named (festival_name t)) templates)).
      { apply filter_In. split; [exact Ht | apply name_eqb_refl]. }
      rewrite Ef in Hf. contradiction. }
  split; [|split].
  - assert (E : map f_name (map snd fs) = map fst fs).
    { rewrite map_map. apply map_ext_in. intros [k f] Hkf. cbn [fst snd].
      apply (in_assoc _ _ _ Hn) in Hkf. rewrite Hm in Hkf.
      destruct (filter (named k) templates); [discriminate|].
      now injection Hkf as <-. }
    rewrite E. exact Hn.
  - exact Hin.
  - intros g Hg. apply Hin in Hg. destruct Hg as (t & Ht & ->).
    split; [reflexivity|]. cbn [festival_of f_templates f_date f_name].
    destruct (filter (named (festival_name t)) templates) as [|t0 rest] eqn:Ef.
    + assert (Hf : In t (filter (named (festival_name t)) templates)).
      { apply filter_In. split; [exact Ht | apply name_eqb_refl]. }
      rewrite Ef in Hf. contradiction.
    + eauto.
Qed.

Lemma festivals_partition_the_templates_witness :
  In (festival_of sample_table (Some (lit "Holi"))) (group_by_festival sample_table).
Proof.
  apply (proj2 (proj1 (proj2 (festivals_partition_the_templates sample_table))
                  (festival_of sample_table (Some (lit "Holi"))))).
  exists (listed "T2" false 7 (Some "Holi") (Some 200))%string.
  split; [right; left; reflexivity | reflexivity].
Defined.

(** *** Pages *)

Lemma offset_limit_in {A} (offset limit : Z) (rows : list A) (x : A) :
  In x (offset_limit offset limit rows) -> In x rows.
Proof.
  unfold offset_limit. intros H.
  rewrite <- (firstn_skipn (Z.to_nat offset) rows). apply in_or_app. right.
  rewrite <- (firstn_skipn (Z.to_nat limit) (skipn (Z.to_nat offset) rows)).
  apply in_or_app. now left.
Qed.

Lemma offset_limit_pages {A} (size : Z) (rows : list A) (n : nat) :
  0 <= size ->
  List.concat (map (fun p => offset_limit ((Z.of_nat p - 1) * size) size rows)
                 (seq 1 n))
  = firstn (n * Z.to_nat size) rows.
Proof.
  intros Hs. induction n as [|n IH]; [reflexivity|].
  rewrite seq_S, map_app, concat_app, IH. cbn [map List.concat]. rewrite app_nil_r.
  unfold offset_limit.
  replace (Z.to_nat ((Z.of_nat (1 + n) - 1) * size)) with (n * Z.to_nat size)%nat by nia.
  replace (S n * Z.to_nat size)%nat with (n * Z.to_nat size + Z.to_nat size)%nat by lia.
  now rewrite firstn_plus.
Qed.

Lemma by_usage_perm rows : Permutation (by_usage rows) rows.
Proof.
  unfold by_usage.
  apply Permutation_sym.
  etransitivity; [|apply Permutation_map, TemplateFacts.sorted_by_key_perm].
  rewrite map_map. cbn [snd]. rewrite map_id. reflexivity.
Qed.

Section Listing.
Variable order_by_featured_usage : list listing -> list listing.
Variable festival_name_ilike : str -> listing -> bool.
Variable search_matches : str -> listing -> bool.

(** X29. For a page and a page size of at least 1, and whatever order the
    database gives the rows: a page of [list_templates] holds at most
    page_size templates, all active and matching the filters; total is
    the number of matching templates on every page; has_more tells
    whether rows remain after this page; and the pages 1 to n one after
    the other are the first n * page_size matching rows in the order of
    the database, so no template is repeated or left out. *)
Theorem list_templates_pages_partition_the_matches (table : list listing)
    (q : list_query) :
  1 <= q_page q -> 1 <= q_page_size q ->
  (forall rows, Permutation (order_by_featured_usage rows) rows) ->
  let matching := filter (selected festival_name_ilike search_matches q) table in
  let answer := list_templates order_by_featured_usage festival_name_ilike
                  search_matches table q in
  (List.length (items answer) <= Z.to_nat (q_page_size q))%nat
  /\ Forall (fun t => is_active t = true
                      /\ selected festival_name_ilike search_matches q t = true)
       (items answer)
  /\ total answer = Z.of_nat (List.length matching)
  /\ (has_more answer = true <->
      skipn (Z.to_nat (q_page q * q_page_size q)) (order_by_featured_usage matching)
      <> [])
  /\ (forall n : nat,
        List.concat
          (map (fun p => items (list_templates order_by_featured_usage
                                  festival_name_ilike search_matches table
                                  (on_page q (Z.of_nat p))))
               (seq 1 n))
        = firstn (n * Z.to_nat (q_page_size q)) (order_by_featured_usage matching)).
Proof.
  intros Hp Hs Hperm matching answer. subst answer. unfold list_templates.
  cbn [items total has_more]. fold matching.
  split; [|split; [|split; [|split]]].
  - unfold offset_limit. apply firstn_le_length.
  - apply Forall_forall. intros t Hin. apply offset_limit_in in Hin.
    apply (Permutation_in _ (Hperm matching)) in Hin.
    apply filter_In in Hin. destruct Hin as [_ Hsel]. split; [|exact Hsel].
    unfold selected in Hsel. rewrite !andb_true_iff in Hsel. tauto.
  - reflexivity.
  - rewrite Z.ltb_lt.
    pose proof (Permutation_length (Hperm matching)) as Hlen.
    pose proof (length_skipn (Z.to_nat (q_page q * q_page_size q))
                  (order_by_featured_usage matching)) as Hsk.
    split.
    + intros H E. rewrite E in Hsk. cbn in Hsk. lia.
    + intros H. destruct (skipn _ _) eqn:E; [congruence|]. cbn in Hsk. lia.
  - intros n.
    cbn [q_page q_page_size on_page].
    rewrite (map_ext _ (fun p => offset_limit ((Z.of_nat p - 1) * q_page_size q)
                                   (q_page_size q) (order_by_featured_usage matching)))
      by (intros p; reflexivity).
    apply offset_limit_pages. lia.
Qed.

End Listing.

Lemma list_templates_pages_partition_the_matches_witness :
  (List.length (items (list_templates by_usage no_match no_match sample_table
                         second_page_of_two)) <= 2)%nat
  /\ has_more (list_templates by_usage no_match no_match sample_table
                 second_page_of_two) = true.
Proof.
  destruct (list_templates_pages_partition_the_matches by_usage no_match no_match
              sample_table second_page_of_two ltac:(vm_compute; discriminate)
              ltac:(vm_compute; discriminate) by_usage_perm)
    as (A & _ & _ & B & _).
  split; [exact A|]. apply B. vm_compute. discriminate.
Defined.

(** X30. Whatever order the database gives the rows, the total of
    [get_featured_templates] is the number of templates it returns, the
    smaller of the limit and the number of active featured templates, not
    the number of featured templates; has_more is always false, and every
    template returned is active and featured. *)
Theorem featured_total_counts_what_is_returned
    (order_by_usage : list listing -> list listing)
    (table : list listing) (limit : Z) :
  (forall rows, Permutation (order_by_usage rows) rows) ->
  let featured := filter (fun t => is_active t && is_featured t) table in
  let answer := get_featured_templates order_by_usage table limit in
  total answer = Z.of_nat (List.length (items answer))
  /\ total answer = Z.min (Z.max 0 limit) (Z.of_nat (List.length featured))
  /\ has_more answer = false
  /\ Forall (fun t => is_active t = true /\ is_featured t = true) (items answer).
Proof.
  intros Hperm featured answer. subst answer. unfold get_featured_templates.
  cbn [items total has_more]. fold featured.
  pose proof (Permutation_length (Hperm featured)) as Hlen.
  repeat split.
  - rewrite length_firstn. lia.
  - apply Forall_forall. intros t Hin. apply firstn_in in Hin.
    apply (Permutation_in _ (Hperm featured)) in Hin.
    apply filter_In in Hin. destruct Hin as [_ H]. now apply andb_prop in H.
Qed.

Lemma featured_total_counts_what_is_returned_witness :
  total (get_featured_templates by_usage sample_table 2) = 2
  /\ List.length (filter (fun t => is_active t && is_featured t) sample_table) = 3%nat.
Proof.
  destruct (featured_total_counts_what_is_returned by_usage sample_table 2 by_usage_perm)
    as (_ & B & _).
  split; [rewrite B; reflexivity | reflexivity].
Defined.

End CatalogFacts.

(* ================================================================== *)
(** * Facts about the caption requests *)
(* ================================================================== *)

Module CaptionJobFacts.
Import Py PyFacts CaptionJobs Samples.

(** X10. The file name taken from a source URL is the text after the
    last "/" of the whole URL, query string included, up to the next "?"
    or the end.  The URL is the text before the name, the name and the
    text after it, where the text before is empty or ends with "/", the
    name and the text after hold no "/", the name holds no "?", and the
    text after is empty or starts with "?". *)
Theorem source_file_name_is_a_clean_part_of_the_url (url : str) :
  exists before after,
    url = before ++ source_file_name url ++ after
    /\ (before = [] \/ exists b, before = b ++ lit "/")
    /\ ~ In (ch "/") (source_file_name url ++ after)
    /\ ~ In (ch "?") (source_file_name url)
    /\ (after = [] \/ exists a, after = lit "?" ++ a).
Proof.
  unfold source_file_name.
  set (w := last (split_char (ch "/") url) []).
  assert (Hw : ~ In (ch "/") w).
  { pose proof (split_char_pieces (ch "/") url) as F. rewrite Forall_forall in F.
    apply F. subst w.
    destruct (exists_last (split_char_not_nil (ch "/") url)) as (l & x & E).
    rewrite E, last_last. apply in_or_app. right. now left. }
  destruct (join_cut_before_last [ch "/"] (split_char (ch "/") url)
              (split_char_not_nil _ _)) as (p & Ep & Hp).
  rewrite split_char_join in Ep. fold w in Ep.
  destruct (join_cut_after_head [ch "?"] (split_char (ch "?") w)) as (q & Eq & Hq).
  rewrite split_char_join in Eq.
  set (n := hd [] (split_char (ch "?") w)) in *.
  exists p, q. split; [now rewrite <- Eq|]. split; [exact Hp|].
  split; [now rewrite <- Eq|]. split; [|exact Hq].
  pose proof (split_char_pieces (ch "?") w) as F. rewrite Forall_forall in F.
  apply F. subst n.
  destruct (split_char (ch "?") w) as [|a l] eqn:E;
    [now apply split_char_not_nil in E | now left].
Qed.

Lemma source_file_name_is_a_clean_part_of_the_url_witness :
  source_file_name (lit "https://cdn.example/media/holi.mp4?token=a") = lit "holi.mp4"
  /\ source_file_name (lit "https://cdn.example/media/holi.mp4?token=a/b") = lit "b"
  /\ exists before after,
       lit "https://cdn.example/media/holi.mp4?token=a/b"
       = before ++ lit "b" ++ after
       /\ (before = [] \/ exists b, before = b ++ lit "/")
       /\ ~ In (ch "/") (lit "b" ++ after)
       /\ ~ In (ch "?") (lit "b")
       /\ (after = [] \/ exists a, after = lit "?" ++ a).
Proof.
  split; [reflexivity|]. split; [reflexivity|].
  exact (source_file_name_is_a_clean_part_of_the_url
           (lit "https://cdn.example/media/holi.mp4?token=a/b")).
Defined.

Section Credits.
Variable http_head : str -> exn (option str).
Variable upload_file_content : list N -> str -> str -> option str -> exn str.

(** X11. A caption request costs two credits and counts one caption.
    [generate_captions] answers 402 and changes nothing whenever the
    caller's balance is 0 or less; with a positive balance, when the HEAD
    request answers and its content length reads as a number, it creates
    a pending job for the caller and the URL and charges the two credits,
    so a balance of 1 becomes -1; when creating the job raises, the
    exception is passed on and nothing is charged.
    [upload_and_generate_captions] answers 400 and changes nothing for a
    file that is not .mp4 or .mov or is larger than 100 MB, and never
    looks at the balance: any other file that can be stored creates a
    pending job for its stored URL and takes two credits whatever the
    balance. *)
Theorem caption_requests_cost_two_credits :
  (forall new_id request current_user,
     a_credits_remaining current_user <= 0 ->
     generate_captions http_head new_id request current_user
     = Ok (inl Insufficient_credits, current_user))
  /\ (forall new_id request current_user header,
        0 < a_credits_remaining current_user ->
        http_head (g_source_file_url request) = Ok header ->
        (forall text, header = Some text -> exists n, int_base10 text = Ok n) ->
        exists caption task,
          generate_captions http_head new_id request current_user
          = Ok (inr (caption, task), charged current_user)
          /\ a_credits_remaining (charged current_user)
             = a_credits_remaining current_user - 2
          /\ a_total_captions_generated (charged current_user)
             = a_total_captions_generated current_user + 1
          /\ c_status caption = PENDING /\ c_user_id caption = a_id current_user
          /\ c_source_file_url caption = g_source_file_url request
          /\ tt_caption_id task = c_id caption)
  /\ (forall new_id request current_user e,
        0 < a_credits_remaining current_user ->
        create_caption_job http_head new_id (a_id current_user) request = Raise e ->
        generate_captions http_head new_id request current_user = Raise e)
  /\ (forall new_id current_user file title language_hint word_timestamps
             style_preset_id,
        str_eqb (upload_extension (filename file)) (lit ".mp4")
        || str_eqb (upload_extension (filename file)) (lit ".mov") = false ->
        upload_and_generate_captions upload_file_content new_id current_user file
          title language_hint word_timestamps style_preset_id
        = Ok (inl Unsupported_file_type, current_user))
  /\ (forall new_id current_user file title language_hint word_timestamps
             style_preset_id,
        str_eqb (upload_extension (filename file)) (lit ".mp4")
        || str_eqb (upload_extension (filename file)) (lit ".mov") = true ->
        100 * 1024 * 1024 < len (file_bytes file) ->
        upload_and_generate_captions upload_file_content new_id current_user file
          title language_hint word_timestamps style_preset_id
        = Ok (inl File_too_large, current_user))
  /\ (forall new_id current_user file title language_hint word_timestamps
             style_preset_id url,
        str_eqb (upload_extension (filename file)) (lit ".mp4")
        || str_eqb (upload_extension (filename file)) (lit ".mov") = true ->
        len (file_bytes file) <= 100 * 1024 * 1024 ->
        upload_file_content (file_bytes file) (filename file)
          (lit "captions/" ++ a_id current_user) (file_content_type file) = Ok url ->
        exists caption task,
          upload_and_generate_captions upload_file_content new_id current_user file
            title language_hint word_timestamps style_preset_id
          = Ok (inr (caption, task), charged current_user)
          /\ c_source_file_url caption = url /\ c_status caption = PENDING
          /\ a_credits_remaining (charged current_user)
             = a_credits_remaining current_user - 2).
Proof.
  split; [|split; [|split; [|split; [|split]]]].
  - intros new_id request cu Hc. unfold generate_captions.
    assert (E : (a_credits_remaining cu <=? 0) = true) by (apply Z.leb_le; exact Hc).
    now rewrite E.
  - intros new_id request cu header Hc Hh Hn. unfold generate_captions.
    assert (E : (a_credits_remaining cu <=? 0) = false) by (apply Z.leb_gt; exact Hc).
    rewrite E. unfold create_caption_job. rewrite Hh. cbn [bind].
    assert (Hlen : exists n, match header with
                             | Some text => int_base10 text
                             | None => Ok 0
                             end = Ok n).
    { destruct header as [text|]; [apply (Hn text eq_refl) | eauto]. }
    destruct Hlen as [n ->]. cbn [bind]. do 2 eexists. repeat split.
  - intros new_id request cu e Hc He. unfold generate_captions.
    assert (E : (a_credits_remaining cu <=? 0) = false) by (apply Z.leb_gt; exact Hc).
    rewrite E, He. reflexivity.
  - intros new_id cu file title hint wt preset Hext.
    unfold upload_and_generate_captions. now rewrite Hext.
  - intros new_id cu file title hint wt preset Hext Hsize.
    unfold upload_and_generate_captions. rewrite Hext. cbn [negb].
    assert (E : (100 * 1024 * 1024 <? len (file_bytes file)) = true)
      by (apply Z.ltb_lt; exact Hsize).
    now rewrite E.
  - intros new_id cu file title hint wt preset url Hext Hsize Hup.
    unfold upload_and_generate_captions, upload_and_create_job.
    rewrite Hext. cbn [negb].
    assert (E : (100 * 1024 * 1024 <? len (file_bytes file)) = false)
      by (apply Z.ltb_ge; exact Hsize).
    rewrite E, Hup. cbn [bind]. do 2 eexists. repeat split.
Qed.

End Credits.

Lemma caption_requests_cost_two_credits_witness :
  generate_captions head_ok (lit "C0") reel_request overdrawn
  = Ok (inl Insufficient_credits, overdrawn)
  /\ (exists caption task,
        generate_captions head_ok (lit "C1") reel_request last_credit
        = Ok (inr (caption, task), charged last_credit)
        /\ a_credits_remaining (charged last_credit) = -1)
  /\ exists caption task,
       upload_and_generate_captions store_ok (lit "C2") overdrawn clip
         (lit "Holi") (lit "auto") false None
       = Ok (inr (caption, task), charged overdrawn)
       /\ a_credits_remaining (charged overdrawn) = -5.
Proof.
  split; [|split].
  - apply (proj1 (caption_requests_cost_two_credits head_ok store_ok)
             (lit "C0") reel_request overdrawn).
    discriminate.
  - destruct (proj1 (proj2 (caption_requests_cost_two_credits head_ok store_ok))
                (lit "C1") reel_request last_credit (Some (lit "1048576"))
                eq_refl eq_refl)
      as (caption & task & E & _).
    + intros text Ht. injection Ht as <-. eexists. vm_compute. reflexivity.
    + exists caption, task. split; [exact E | reflexivity].
  - destruct (proj2 (proj2 (proj2 (proj2 (proj2
                (caption_requests_cost_two_credits head_ok store_ok)))))
                (lit "C2") overdrawn clip (lit "Holi") (lit "auto") false None
                (lit "https://storage.example/captions/U1/holi.MP4")
                eq_refl ltac:(vm_compute; discriminate) eq_refl)
      as (caption & task & E & _ & _ & Hc).
    exists caption, task. split; [exact E | reflexivity].
Defined.

End CaptionJobFacts.

(* ================================================================== *)
(** * Facts about the stored transcription *)
(* ================================================================== *)

Module TranscriptionFacts.
Import Py PyFacts Transcription Samples.

Section Segments.
Variable nfc : str -> str.

Lemma stored_segment_fields wt i seg s :
  stored_segment nfc wt i seg = Ok s ->
  get s (lit "segment_index") = Ok (JInt i)
  /\ get s (lit "start_time") = get_default seg (lit "start") (JInt 0)
  /\ get s (lit "end_time") = get_default seg (lit "end") (JInt 0)
  /\ (wt = false -> exists d, s = JDict d /\ lookup d (lit "words") = None).
Proof.
  unfold stored_segment. intros H.
  bind_inv H as start Hs. bind_inv H as end_ He. bind_inv H as text Ht.
  bind_inv H as text' Ht'. bind_inv H as conf Hc.
  rewrite Hs, He.
  destruct wt.
  - destruct (match seg with JDict d => lookup d (lit "words") | _ => None end)
      as [ws|].
    + bind_inv H as l Hl. bind_inv H as words Hw. injection H as <-.
      repeat split; try reflexivity. discriminate.
    + injection H as <-. repeat split; try reflexivity. discriminate.
  - injection H as <-. repeat split; try reflexivity. intros _. eexists.
    split; reflexivity.
Qed.

Lemma stored_segments_nth wt segs : forall i out,
  stored_segments nfc wt i segs = Ok out ->
  List.length out = List.length segs
  /\ forall k s, nth_error out k = Some s ->
       exists seg, nth_error segs k = Some seg
                   /\ stored_segment nfc wt (i + Z.of_nat k) seg = Ok s.
Proof.
  induction segs as [|seg segs IH]; intros i out H; simpl in H.
  - injection H as <-. split; [reflexivity|]. intros [|k] s Hk; discriminate.
  - bind_inv H as s0 H0. bind_inv H as rest Hr. injection H as <-.
    destruct (IH _ _ Hr) as [L N]. split; [simpl; now rewrite L|].
    intros [|k] s Hk; simpl in Hk.
    + injection Hk as <-. exists seg. split; [reflexivity|].
      now rewrite Z.add_0_r.
    + destruct (N k s Hk) as (seg' & Hn & Hs). exists seg'. split; [exact Hn|].
      replace (i + Z.of_nat (S k)) with (i + 1 + Z.of_nat k) by lia. exact Hs.
Qed.

(** X9. The stored segments are as many as the segments of the
    transcription, in the same order; the k-th has segment_index k
    (counted from 0) and the start and end of the k-th segment of the
    transcription (0 where it has none), and no words when word
    timestamps are off.  When there is a segment, the duration taken from
    the stored segments is the end of the last segment of the
    transcription. *)
Theorem stored_segments_are_numbered (word_timestamps : bool)
    (segs out : list json) :
  stored_segments nfc word_timestamps 0 segs = Ok out ->
  List.length out = List.length segs
  /\ (forall k s, nth_error out k = Some s ->
        get s (lit "segment_index") = Ok (JInt (Z.of_nat k))
        /\ exists seg, nth_error segs k = Some seg
             /\ get s (lit "start_time") = get_default seg (lit "start") (JInt 0)
             /\ get s (lit "end_time") = get_default seg (lit "end") (JInt 0)
             /\ (word_timestamps = false ->
                 exists d, s = JDict d /\ lookup d (lit "words") = None))
  /\ (segs <> [] ->
      exists seg v, nth_error segs (List.length segs - 1) = Some seg
                    /\ get_default seg (lit "end") (JInt 0) = Ok v
                    /\ last_end_time out = Ok v).
Proof.
  intros H. destruct (stored_segments_nth _ _ _ _ H) as [L N].
  split; [exact L|]. split.
  - intros k s Hk. destruct (N k s Hk) as (seg & Hn & Hs).
    apply stored_segment_fields in Hs. destruct Hs as (A & B & C & D).
    split; [exact A|]. exists seg. auto.
  - intros Hne.
    assert (Hlen : (0 < List.length out)%nat)
      by (rewrite L; destruct segs; [congruence | simpl; lia]).
    destruct (nth_error out (List.length out - 1)) as [s|] eqn:Hk;
      [|apply nth_error_None in Hk; lia].
    destruct (N _ _ Hk) as (seg & Hn & Hs).
    pose proof Hs as Hs'. apply stored_segment_fields in Hs'.
    destruct Hs' as (_ & _ & C & _).
    assert (Hd : exists d, s = JDict d).
    { unfold stored_segment in Hs. bind_inv Hs as a1 H1. bind_inv Hs as a2 H2.
      bind_inv Hs as a3 H3. bind_inv Hs as a4 H4. bind_inv Hs as a5 H5.
      destruct (if word_timestamps then _ else _).
      - bind_inv Hs as a6 H6. bind_inv Hs as a7 H7. injection Hs as <-. eauto.
      - injection Hs as <-. eauto. }
    destruct Hd as [d ->].
    assert (Hend : exists v, lookup d (lit "end_time") = Some v
                             /\ get_default seg (lit "end") (JInt 0) = Ok v).
    { unfold stored_segment in Hs. bind_inv Hs as a1 H1. bind_inv Hs as a2 H2.
      bind_inv Hs as a3 H3. bind_inv Hs as a4 H4. bind_inv Hs as a5 H5.
      destruct (if word_timestamps then _ else _).
      - bind_inv Hs as a6 H6. bind_inv Hs as a7 H7. injection Hs as <-.
        exists a2. split; [reflexivity | exact H2].
      - injection Hs as <-. exists a2. split; [reflexivity | exact H2]. }
    destruct Hend as (v & Hv & Hg).
    exists seg, v. rewrite <- L. split; [exact Hn|]. split; [exact Hg|].
    unfold last_end_time, index.
    assert (Hrev : nth_error (rev out) 0 = Some (JDict d)).
    { rewrite nth_error_rev. apply Nat.ltb_lt in Hlen. rewrite Hlen. exact Hk. }
    rewrite Hrev. cbn [bind]. now rewrite Hv.
Qed.

End Segments.

Lemma stored_segments_are_numbered_witness :
  exists out,
    stored_segments keep_text true 0 whisper_segments = Ok out
    /\ List.length out = 2%nat
    /\ last_end_time out = Ok (JFloat (dec 325 2)).
Proof.
  destruct (stored_segments keep_text true 0 whisper_segments) as [out|e] eqn:E;
    [|vm_compute in E; discriminate E].
  destruct (stored_segments_are_numbered keep_text true whisper_segments out E)
    as (L & _ & D).
  exists out. split; [reflexivity|]. split; [exact L|].
  destruct D as (seg & v & Hn & Hg & Hl); [discriminate|].
  rewrite Hl. vm_compute in Hn. injection Hn as <-. vm_compute in Hg.
  now injection Hg as <-.
Defined.

End TranscriptionFacts.

(* ================================================================== *)
(** * Facts about the ASS style line *)
(* ================================================================== *)

Module AssFacts.
Import Py PyFacts Caption CaptionFacts Ass Samples.

Lemma assoc_in_values {V} (d : list (str * V)) k v :
  Template.assoc str_eqb d k = Some v -> In v (map snd d).
Proof.
  induction d as [|[k1 v1] d IH]; simpl; [discriminate|].
  destruct (str_eqb k1 k); [intros H; injection H as ->; now left | auto].
Qed.

Lemma preset_of_known (preset_id : str) :
  exists p, preset_of preset_id = Ok p /\ In p (map snd CAPTION_STYLES).
Proof.
  unfold preset_of.
  destruct (Template.assoc str_eqb CAPTION_STYLES preset_id) as [[|f p]|] eqn:E.
  - eexists. split; [reflexivity|]. vm_compute. tauto.
  - exists (f :: p). split; [reflexivity|]. eapply assoc_in_values, E.
  - eexists. split; [reflexivity|]. vm_compute. tauto.
Qed.

Lemma preset_lines_table :
  forallb (fun p =>
             match preset_style_line p with
             | Ok line =>
                 Nat.eqb (List.length (fields_of line)) 24
                 && str_eqb (nth 18 (fields_of line) []) (lit "2")
                 && str_eqb (nth 19 (fields_of line) [])
                      (str_of_int (_alignment_from_position
                                     (field_or p "position" "bottom")))
             | Raise _ => false
             end)
          (map snd CAPTION_STYLES) = true.
Proof. vm_compute. reflexivity. Qed.

(** X8. The Style line of an ASS file has one field more than its Format
    line names: the Format line has 23 fields, with Alignment at position
    18 and MarginL at 19, and the Style line has 24, with the constant 2
    at position 18 and the alignment computed from the position at 19.
    This holds for the style line of every preset, known or not, and for
    the line [_generate_ass] writes from the style settings when the font
    family holds no comma. *)
Theorem style_line_has_one_field_too_many :
  List.length (fields_of format_line) = 23%nat
  /\ nth 18 (fields_of format_line) [] = lit " Alignment"
  /\ nth 19 (fields_of format_line) [] = lit " MarginL"
  /\ (forall preset_id, exists p line,
        preset_of preset_id = Ok p /\ preset_style_line p = Ok line
        /\ List.length (fields_of line) = 24%nat
        /\ nth 18 (fields_of line) [] = lit "2"
        /\ nth 19 (fields_of line) []
           = str_of_int (_alignment_from_position (field_or p "position" "bottom")))
  /\ (forall style line,
        plain_style_line style = Ok line -> ~ In (ch ",") (font_family style) ->
        List.length (fields_of line) = 24%nat
        /\ nth 18 (fields_of line) [] = lit "2"
        /\ nth 19 (fields_of line) []
           = str_of_int (_alignment_from_position (position style))).
Proof.
  split; [reflexivity|]. split; [reflexivity|]. split; [reflexivity|]. split.
  - intros preset_id. destruct (preset_of_known preset_id) as (p & Hp & Hin).
    pose proof preset_lines_table as T. rewrite forallb_forall in T.
    specialize (T p Hin).
    destruct (preset_style_line p) as [line|e] eqn:El; [|discriminate].
    apply andb_prop in T. destruct T as [T C]. apply andb_prop in T.
    destruct T as [A B]. apply Nat.eqb_eq in A. apply str_eqb_eq in B, C.
    exists p, line. repeat split; assumption.
  - intros style line H Hfont. unfold plain_style_line in H.
    bind_inv H as primary Hp. bind_inv H as secondary Hs. bind_inv H as outline Ho.
    bind_inv H as back Hb.
    apply Ok_inj in H. subst line.
    apply hex_color_no_comma in Hp, Hs, Ho. apply back_color_no_comma in Hb.
    set (al := str_of_int (_alignment_from_position (position style))).
    assert (Hal : ~ In (ch ",") al) by (apply format_int_no_comma; lia).
    assert (Hsz : ~ In (ch ",") (str_of_int (font_size style)))
      by (apply format_int_no_comma; lia).
    assert (E : fields_of
                  (lit "Style: Default," ++ font_family style ++ lit ","
                   ++ str_of_int (font_size style) ++ lit "," ++ primary ++ lit ","
                   ++ secondary ++ lit "," ++ outline ++ lit "," ++ back
                   ++ lit ",-1,0,0,0,100,100,0,0,1,3,1,2," ++ al ++ lit ",30,30,80,1")
                = [lit " Default"; font_family style; str_of_int (font_size style);
                   primary; secondary; outline; back; lit "-1"; lit "0"; lit "0";
                   lit "0"; lit "100"; lit "100"; lit "0"; lit "0"; lit "1"; lit "3";
                   lit "1"; lit "2"; al; lit "30"; lit "30"; lit "80"; lit "1"]).
    { rewrite <- (split_char_of_join (ch ",")
                    [lit " Default"; font_family style; str_of_int (font_size style);
                     primary; secondary; outline; back; lit "-1"; lit "0"; lit "0";
                     lit "0"; lit "100"; lit "100"; lit "0"; lit "0"; lit "1"; lit "3";
                     lit "1"; lit "2"; al; lit "30"; lit "30"; lit "80"; lit "1"]).
      - reflexivity.
      - discriminate.
      - repeat (apply Forall_cons;
                [first [assumption | vm_compute; intuition discriminate]|]).
        apply Forall_nil. }
    rewrite E. repeat split.
Qed.

Lemma style_line_has_one_field_too_many_witness :
  exists line,
    plain_style_line airy_style = Ok line
    /\ List.length (fields_of line) = 24%nat
    /\ nth 18 (fields_of line) [] = lit "2"
    /\ nth 19 (fields_of line) [] = lit "8".
Proof.
  destruct (plain_style_line airy_style) as [line|e] eqn:E;
    [|vm_compute in E; discriminate E].
  destruct (proj2 (proj2 (proj2 (proj2 style_line_has_one_field_too_many)))
              airy_style line E) as (A & B & C).
  - vm_compute. intuition discriminate.
  - exists line. repeat split; assumption.
Defined.

End AssFacts.
